(** * ecd_sample_prep: frame synthesis and LVDS cell permutation

    A shallow embedding of the latest revision of the program (the one with
    the [-nolvds] and [-lvdsmap] switches and the [diagnostic_values]
    configuration entry), followed by the properties of its core:
    the LVDS translation table, the row reordering and its inverse lookup,
    the data-frame builder, the capacity arithmetic, the loader of the
    distribution definitions and the writer of the output file.  The last
    part covers the rest of the program: the tokenizer and the two loaders
    on lines as they are written, the command line, trace, the size of the
    output file, and the writer of the earlier revision.

    Conventions of the embedding.
    - [uint32_t], [uint64_t], [uint8_t] and [int] values are integers of [Z];
      every conversion and every wrap-around of the C++ code is written out
      with [u32], [u64], [u8] and [i32].
    - A buffer ([uint8_t*], [int[]], [vector]) is a [list Z].  A read or a
      write through an index that is outside the buffer is undefined
      behaviour in C++; the embedding stops there with [OutOfBounds].
    - [exit(1)], a thrown [runtime_error] and an integer division by zero
      end the run; they are the constructors of [outcome].
    - Three limits of the program are not written into the functions, and
      are hypotheses of the statements that need them: the product
      [ROW_SIZE * row] of reorderForLvds is a product of [int]s, exact in
      frames of fewer than 2^31 + 2048 cells; a token is copied into a
      [char[1000]] and a message of throwRuntime into a [char[1024]], which
      suffice on lines and names of at most 997 characters ([shortText]);
      and execute is followed from loadFragments on, which the program
      reaches when neither [-lvdsmap] nor [-trace] is given. *)

From Stdlib Require Import ZArith Lia String Ascii List.
From stdpp Require Import base option list gmap strings numbers.

Local Open Scope Z_scope.

(** ** Machine integers *)

Module Int.

Definition u8  (x : Z) : Z := x mod 2^8.
Definition u32 (x : Z) : Z := x mod 2^32.
Definition u64 (x : Z) : Z := x mod 2^64.

(** Conversion to [int] (two's complement, 32 bits). *)
Definition i32 (x : Z) : Z := (x + 2^31) mod 2^32 - 2^31.

Definition is_u32 (x : Z) : Prop := 0 <= x < 2^32.
Definition is_i32 (x : Z) : Prop := - 2^31 <= x < 2^31.

End Int.
Import Int.

(** ** Outcomes of a run *)

Inductive error : Type :=
  | InvalidCellNumber (n : Z)            (* "Invalid cell number %i" *)
  | UndefinedFragment (name : string)    (* "Undefined fragment name '%s'" *)
  | FileNotFound (name : string)         (* "%s not found" *)
  | CantCreate (name : string)           (* "Can't create %s" *)
  | LvdsBug (rawCellOffset : Z).         (* "BUG: findLvdsCellOffset with invalid cell offset %i" *)

Inductive exit_reason : Type :=
  | NotMultipleOfRowSize   (* "Config value 'cells_per_frame' must a multiple of %i" *)
  | WontFit.               (* "The specified fragment distribution won't fit ..." *)

(** How a run ends when a call does not return. *)
Inductive failure : Type :=
  | Throw (e : error)          (* throwRuntime *)
  | Exit (r : exit_reason)     (* printf of the message, then exit(1) *)
  | DivideByZero               (* integer division by zero *)
  | OutOfBounds                (* access outside a buffer *)
  | Diverges.                  (* a loop that never ends *)

Inductive outcome (A : Type) : Type :=
  | Ok (a : A)
  | Fail (f : failure).
Arguments Ok {A} a.
Arguments Fail {A} f.

(** Sequencing: the first call that does not return ends the run.  With the
    instance below, [x ← m; k] is stdpp's notation for it. *)
#[export] Instance outcome_bind : MBind outcome := fun A B k m =>
  match m with
  | Ok a => k a
  | Fail f => Fail f
  end.

(** ** Buffers *)

(** [buf[i]] as an rvalue. *)
Definition load (buf : list Z) (i : Z) : outcome Z :=
  if (0 <=? i) && (i <? Z.of_nat (length buf))
  then match buf !! Z.to_nat i with Some v => Ok v | None => Fail OutOfBounds end
  else Fail OutOfBounds.

(** [buf[i] = v]. *)
Definition store (buf : list Z) (i v : Z) : outcome (list Z) :=
  if (0 <=? i) && (i <? Z.of_nat (length buf))
  then Ok (<[Z.to_nat i := v]> buf)
  else Fail OutOfBounds.

(** [memset(frame, c, n)] on a buffer of [n] bytes. *)
Definition memset (c : Z) (n : Z) : list Z := replicate (Z.to_nat n) c.

(** ** Global data of the program *)

Record distribution_t : Type := mk_distribution {
  first : Z;
  last : Z;
  step : Z;
  cellValue : list Z
}.

Record config_t : Type := mk_config {
  cells_per_frame : Z;          (* uint32_t *)
  contig_size : Z;              (* uint64_t *)
  diagnostic_values : list Z;   (* vector<uint8_t> *)
  data_frames : Z;              (* uint32_t *)
  quiescent : Z;                (* uint8_t *)
  fragment_file : string;
  distribution_file : string;
  output_file : string
}.

Record cmdline_t : Type := mk_cmdline {
  trace_flag : bool;
  cellNumber : Z;
  nolvds : bool;
  lvdsmap : bool
}.

Definition ROW_SIZE : Z := 2048.

(** ** The LVDS translation table *)

(** The array [int lvdsTranslationTable[ROW_SIZE]] has static storage: it
    holds zeros until createLvdsTranslationTable runs. *)
Definition zeroTable : list Z := replicate (Z.to_nat ROW_SIZE) 0.

(** The innermost loop, from [i] on:
    [lvdsTranslationTable[rowOffset - i] = cellValue; cellValue = cellValue + 8;] *)
Fixpoint cellLoop (n : nat) (i rowOffset cellValue : Z) (table : list Z)
    : outcome (list Z) :=
  match n with
  | O => Ok table
  | S n' =>
      table' ← store table (rowOffset - i) cellValue;
      cellLoop n' (i + 1) rowOffset (cellValue + 8) table'
  end.

(** The loop over the four rows of a group, from [row] on. *)
Fixpoint rowLoop (n : nat) (row groupOffset group : Z) (table : list Z)
    : outcome (list Z) :=
  match n with
  | O => Ok table
  | S n' =>
      let rowOffset := groupOffset + row * 64 in
      let cellValue := row * 512 + group in
      table' ← cellLoop 64 0 rowOffset cellValue table;
      rowLoop n' (row + 1) groupOffset group table'
  end.

(** The loop over the eight groups, from [group] on. *)
Fixpoint groupLoop (n : nat) (group : Z) (table : list Z) : outcome (list Z) :=
  match n with
  | O => Ok table
  | S n' =>
      let groupOffset := group * 256 + 63 in
      table' ← rowLoop 4 0 groupOffset group table;
      groupLoop n' (group + 1) table'
  end.

Definition createLvdsTranslationTable (table : list Z) : outcome (list Z) :=
  groupLoop 8 0 table.

(** The table the rest of the run reads: execute() builds it before anything
    else uses it. *)
Definition lvdsTranslationTable :=
  Eval vm_compute in
    match createLvdsTranslationTable zeroTable with
    | Ok t => t
    | _ => []
    end.

(** The table is a constant of 2048 entries: proofs read it through the
    lemmas below, and evaluate it only with [vm_compute]. *)
Global Opaque lvdsTranslationTable.

(** findLvdsCellOffset: linear search from index [i]. *)
Fixpoint searchFrom (table : list Z) (i rawCellOffset : Z) : option Z :=
  match table with
  | [] => None
  | x :: table' =>
      if x =? rawCellOffset then Some i else searchFrom table' (i + 1) rawCellOffset
  end.

Definition findLvdsCellOffset (rawCellOffset : Z) : outcome Z :=
  match searchFrom lvdsTranslationTable 0 rawCellOffset with
  | Some i => Ok i
  | None => Fail (Throw (LvdsBug rawCellOffset))
  end.

(** The loop [for (i...) lvdsRow[i] = rawRow[lvdsTranslationTable[i]]] where
    [rawRow = rawFrame + ROW_SIZE * row].  In the source [ROW_SIZE * row] is
    a product of [int]s: it is the product written here (and in copyRow) for
    the rows below 2^20, that is, for every row of a frame of fewer than
    2^31 + 2048 cells. *)
Fixpoint translateRow (table : list Z) (rawFrame : list Z) (row : Z) : outcome (list Z) :=
  match table with
  | [] => Ok []
  | x :: table' =>
      v ← load rawFrame (ROW_SIZE * row + x);
      lvdsRow ← translateRow table' rawFrame row;
      Ok (v :: lvdsRow)
  end.

(** [memcpy(rawRow, lvdsRow, ROW_SIZE)]. *)
Definition copyRow (rawFrame lvdsRow : list Z) (row : Z) : list Z :=
  take (Z.to_nat (ROW_SIZE * row)) rawFrame ++ lvdsRow
    ++ drop (Z.to_nat (ROW_SIZE * row) + length lvdsRow) rawFrame.

Fixpoint reorderRows (n : nat) (row : Z) (rawFrame : list Z) : outcome (list Z) :=
  match n with
  | O => Ok rawFrame
  | S n' =>
      lvdsRow ← translateRow lvdsTranslationTable rawFrame row;
      reorderRows n' (row + 1) (copyRow rawFrame lvdsRow row)
  end.

(** The program calls reorderForLvds on the frame buffer of writeOutputFile,
    which has [cells_per_frame] bytes. *)
Definition reorderForLvds (config : config_t) (rawFrame : list Z) : outcome (list Z) :=
  let rowsPerFrame := i32 (cells_per_frame config / ROW_SIZE) in
  reorderRows (Z.to_nat rowsPerFrame) 0 rawFrame.

(** The first part of trace(): the cell to read in a frame of the file. *)
Definition traceCellNumber (cmdLine : cmdline_t) : outcome Z :=
  if nolvds cmdLine then Ok (cellNumber cmdLine)
  else
    let row := i32 (cellNumber cmdLine / ROW_SIZE) in
    let rawCellOffset := i32 (cellNumber cmdLine mod ROW_SIZE) in
    lvdsCellOffset ← findLvdsCellOffset rawCellOffset;
    Ok (u32 (row * ROW_SIZE + lvdsCellOffset)).

(** ** Reading the definition files *)

(** A line is a C string: the end of the [string] is its terminating NUL,
    and a NUL character inside it ends it as well.  The program copies a
    token into a buffer of its caller ([char token[1000]],
    [char fragmentName[1000]], [char buffer[1000]]) without a check, and
    throwRuntime formats a name into a [char buffer[1024]]: the functions
    below are the program on tokens of fewer than 1000 characters and names
    of at most 997.  Both hold on a line of at most 997 characters. *)

Local Open Scope char_scope.

Definition peek (p : string) : ascii :=
  match p with
  | EmptyString => "000"
  | String c _ => c
  end.

(** [++p] *)
Definition advance (p : string) : string :=
  match p with
  | EmptyString => EmptyString
  | String _ p' => p'
  end.

(** The character is a space or a tab (codes 32 and 9). *)
Definition isBlank (c : ascii) : bool := (c =? " ") || (c =? "009").

(** The character is NUL, LF or CR (codes 0, 10 and 13). *)
Definition isEol (c : ascii) : bool := (c =? "000") || (c =? "010") || (c =? "013").

(** The loop that skips spaces and tabs. *)
Fixpoint skipBlanks (p : string) : string :=
  match p with
  | EmptyString => p
  | String c p' => if isBlank c then skipBlanks p' else p
  end.

(** The loop that copies characters into [token] up to a space, a tab, an
    end of line or a comma; returns the token and the new [p]. *)
Fixpoint extractToken (p : string) : string * string :=
  match p with
  | EmptyString => (EmptyString, p)
  | String c p' =>
      if isBlank c || isEol c || (c =? ",") then (EmptyString, p)
      else let (token, rest) := extractToken p' in (String c token, rest)
  end.

(** Returns the status, the token and the new value of [p]. *)
Definition getNextCommaSeparatedToken (p : string) : bool * string * string :=
  let p := skipBlanks p in
  if isEol (peek p) then (false, EmptyString, p)
  else
    let (token, p) := extractToken p in
    let p := skipBlanks p in
    let p := if peek p =? "," then advance p else p in
    (true, token, p).

(** [atoi] as the C library has it: [(int) strtol(s, NULL, 10)].  White space
    is skipped, then an optional sign and the decimal digits are read;
    [strtol] saturates at the bounds of [long]. *)
Definition isspace (c : ascii) : bool :=
  let n := nat_of_ascii c in (n =? 32)%nat || ((9 <=? n)%nat && (n <=? 13)%nat).

Definition digitValue (c : ascii) : option Z :=
  let n := nat_of_ascii c in
  if (48 <=? n)%nat && (n <=? 57)%nat then Some (Z.of_nat n - 48)%Z else None.

Fixpoint skipSpaces (s : string) : string :=
  match s with
  | EmptyString => s
  | String c s' => if isspace c then skipSpaces s' else s
  end.

Fixpoint readDigits (s : string) (acc : Z) : Z :=
  match s with
  | EmptyString => acc
  | String c s' =>
      match digitValue c with
      | Some d => readDigits s' (10 * acc + d)%Z
      | None => acc
      end
  end.

Definition strtol (s : string) : Z :=
  let s := skipSpaces s in
  let v := match s with
           | String "-" s' => (- readDigits s' 0)%Z
           | String "+" s' => readDigits s' 0
           | _ => readDigits s 0
           end in
  Z.max (- 2^63) (Z.min (2^63 - 1) v).

Definition atoi (s : string) : Z := i32 (strtol s).

Definition getNextCommaSeparatedInt (p : string) : bool * Z * string :=
  let '(status, token, p) := getNextCommaSeparatedToken p in
  (status, atoi token, p).

Local Close Scope char_scope.

(** The tests at the top of both line loops: after the leading blanks, is
    this a blank line, a [#] comment or a [//] comment? *)
Definition isSkippedLine (p : string) : bool :=
  isEol (peek p) || (peek p =? "#")%char
  || ((peek p =? "/")%char && (peek (advance p) =? "/")%char).

(** *** loadFragments *)

(** [while (getNextCommaSeparatedToken(p, buffer)) v.push_back(atoi(buffer));]
    Each token read shortens [p], so [fuel] larger than the length of [p]
    is never used up. *)
Fixpoint fragmentValues (fuel : nat) (p : string) (v : list Z) : outcome (list Z) :=
  match fuel with
  | O => Fail Diverges
  | S fuel' =>
      let '(status, buffer, p') := getNextCommaSeparatedToken p in
      if status then fragmentValues fuel' p' (v ++ [atoi buffer]) else Ok v
  end.

Definition loadFragmentLine (fragment : gmap string (list Z)) (line : string)
    : outcome (gmap string (list Z)) :=
  let p := skipBlanks line in
  if isSkippedLine p then Ok fragment
  else
    let '(_, fragmentName, p) := getNextCommaSeparatedToken p in
    if String.eqb fragmentName EmptyString then Ok fragment
    else
      v ← fragmentValues (S (String.length p)) p [];
      Ok (<[fragmentName := v]> fragment).

Fixpoint loadFragmentLines (fragment : gmap string (list Z)) (lines : list string)
    : outcome (gmap string (list Z)) :=
  match lines with
  | [] => Ok fragment
  | line :: lines' =>
      fragment' ← loadFragmentLine fragment line;
      loadFragmentLines fragment' lines'
  end.

(** [file] is the content of the fragment file, [None] when it cannot be
    opened. *)
Definition loadFragments (config : config_t) (file : option (list string))
    (fragment : gmap string (list Z)) : outcome (gmap string (list Z)) :=
  match file with
  | None => Fail (Throw (FileNotFound (fragment_file config)))
  | Some lines => loadFragmentLines fragment lines
  end.

(** *** loadDistribution *)

(** [strchr(p, '$')] followed by [*delimeter++ = 13]: the buffer with the
    first [$] replaced by a carriage return, and the text after that [$]. *)
Fixpoint splitAtDollar (p : string) : option (string * string) :=
  match p with
  | EmptyString => None
  | String c p' =>
      if (c =? "000")%char then None
      else if (c =? "$")%char then Some (String "013"%char p', p')
      else match splitAtDollar p' with
           | Some (buffer, delimeter) => Some (String c buffer, delimeter)
           | None => None
           end
  end.

(** The loop over the fragment names of a distribution line.  The values of a
    fragment are [int]s; appending them to a [vector<uint8_t>] converts them. *)
Fixpoint resolveFragments (fuel : nat) (fragment : gmap string (list Z))
    (p : string) (drcv : list Z) : outcome (list Z) :=
  match fuel with
  | O => Fail Diverges
  | S fuel' =>
      let '(status, fragmentName, p') := getNextCommaSeparatedToken p in
      if status then
        match fragment !! fragmentName with
        | None => Fail (Throw (UndefinedFragment fragmentName))
        | Some fragcv => resolveFragments fuel' fragment p' (drcv ++ (u8 <$> fragcv))
        end
      else Ok drcv
  end.

(** The three integers at the start of a distribution line. *)
Definition parseCells (p : string) : Z * Z * Z :=
  let '(_, first, p) := getNextCommaSeparatedInt p in
  let '(_, last, p) := getNextCommaSeparatedInt p in
  let '(_, step, _) := getNextCommaSeparatedInt p in
  (first, last, step).

(** The body of the line loop after the [$] has been found.  [distRecord]
    outlives the iteration in the source, but each of its fields is written
    here before it is read. *)
Definition distributionRecord (config : config_t) (fragment : gmap string (list Z))
    (buffer delimeter : string) : outcome distribution_t :=
  let delimeter := skipBlanks delimeter in
  let delimeter := if (peek delimeter =? ",")%char then advance delimeter else delimeter in
  let '(first, last, step) := parseCells buffer in
  if (first <? 1) || (u32 first >? cells_per_frame config)
  then Fail (Throw (InvalidCellNumber first))
  else
    let last := if last =? 0 then first else last in
    let step := if step =? 0 then 1 else step in
    drcv ← resolveFragments (S (String.length delimeter)) fragment delimeter [];
    Ok (mk_distribution first last step drcv).

(** One iteration of the line loop: the new [distributionList], and how the
    iteration ends. *)
Definition loadDistributionLine (config : config_t) (fragment : gmap string (list Z))
    (distributionList : list distribution_t) (line : string)
    : list distribution_t * outcome unit :=
  let p := skipBlanks line in
  if isSkippedLine p then (distributionList, Ok tt)
  else
    match splitAtDollar p with
    | None => (distributionList, Ok tt)
    | Some (buffer, delimeter) =>
        match distributionRecord config fragment buffer delimeter with
        | Ok distRecord => (distributionList ++ [distRecord], Ok tt)
        | Fail f => (distributionList, Fail f)
        end
    end.

Fixpoint loadDistributionLines (config : config_t) (fragment : gmap string (list Z))
    (distributionList : list distribution_t) (lines : list string)
    : list distribution_t * outcome unit :=
  match lines with
  | [] => (distributionList, Ok tt)
  | line :: lines' =>
      match loadDistributionLine config fragment distributionList line with
      | (distributionList', Ok _) =>
          loadDistributionLines config fragment distributionList' lines'
      | (distributionList', Fail f) => (distributionList', Fail f)
      end
  end.

Definition loadDistribution (config : config_t) (fragment : gmap string (list Z))
    (file : option (list string)) (distributionList : list distribution_t)
    : list distribution_t * outcome unit :=
  match file with
  | None => (distributionList, Fail (Throw (FileNotFound (distribution_file config))))
  | Some lines => loadDistributionLines config fragment distributionList lines
  end.

(** ** The capacity arithmetic *)

(** [distRec.cellValue.size() > longestLength] compares at the width of
    [size_t]; the assignment converts the size to [uint32_t]. *)
Fixpoint longestLoop (distributionList : list distribution_t) (longestLength : Z) : Z :=
  match distributionList with
  | [] => longestLength
  | distRec :: distributionList' =>
      let size := Z.of_nat (length (cellValue distRec)) in
      longestLoop distributionList' (if size >? longestLength then u32 size else longestLength)
  end.

Definition findLongestSequence (distributionList : list distribution_t) : Z :=
  longestLoop distributionList 0.

(** Integer division as the machine performs it. *)
Definition divide (a b : Z) : outcome Z :=
  if b =? 0 then Fail DivideByZero else Ok (a / b).

(** The local variables of verifyDistributionIsValid, which it prints. *)
Record capacity_t : Type := mk_capacity {
  maxFrames : Z;
  longestSequence : Z;
  frameGroupLength : Z;
  frameGroupCount : Z;
  totalReqdFrames : Z;
  totalContigReqd : Z
}.

(** The computation of those variables, from [maxFrames] to [totalContigReqd]. *)
Definition capacity (config : config_t) (distributionList : list distribution_t)
    : outcome capacity_t :=
  let diagnosticFrames := u32 (Z.of_nat (length (diagnostic_values config))) in
  q ← divide (contig_size config) (cells_per_frame config);
  let maxFrames := u32 q in
  let longestSequence := findLongestSequence distributionList in
  let frameGroupLength := u32 (diagnosticFrames + data_frames config) in
  q' ← divide longestSequence (data_frames config);
  let frameGroupCount := u32 (q' + 1) in
  let totalReqdFrames := u32 (frameGroupCount * frameGroupLength) in
  let totalContigReqd := u64 (u64 totalReqdFrames * u64 (cells_per_frame config)) in
  Ok (mk_capacity maxFrames longestSequence frameGroupLength frameGroupCount
        totalReqdFrames totalContigReqd).

Definition verifyDistributionIsValid (config : config_t)
    (distributionList : list distribution_t) : outcome Z :=
  if negb (cells_per_frame config mod ROW_SIZE =? 0) then Fail (Exit NotMultipleOfRowSize)
  else
    c ← capacity config distributionList;
    if totalReqdFrames c >? maxFrames c then Fail (Exit WontFit)
    else Ok (frameGroupCount c).

(** ** Building a data frame *)

(** The loop
    [for (uint32_t cellNumber = dr.first-1; cellNumber < dr.last; cellNumber += dr.step)]
    from the current [cellNumber] on.  The comparison and the addition are
    done on [uint32_t], to which [dr.last] and [dr.step] are converted.
    The fuel is one more than the number of cells of the frame: a run that
    writes inside the frame more often than that has been at some
    [cellNumber] twice, and so repeats forever. *)
Fixpoint populate (fuel : nat) (dr : distribution_t) (frameNumber cellNumber : Z)
    (frame : list Z) : outcome (list Z) :=
  if cellNumber <? u32 (last dr) then
    match fuel with
    | O => Fail Diverges
    | S fuel' =>
        v ← load (cellValue dr) frameNumber;
        frame' ← store frame cellNumber v;
        populate fuel' dr frameNumber (u32 (cellNumber + u32 (step dr))) frame'
    end
  else Ok frame.

Fixpoint distributionLoop (distributionList : list distribution_t) (frameNumber : Z)
    (frame : list Z) : outcome (list Z) :=
  match distributionList with
  | [] => Ok frame
  | dr :: distributionList' =>
      frame' ← (if frameNumber <? Z.of_nat (length (cellValue dr))
                then populate (S (length frame)) dr frameNumber (u32 (first dr - 1)) frame
                else Ok frame);
      distributionLoop distributionList' frameNumber frame'
  end.

Definition buildDataFrame (config : config_t) (distributionList : list distribution_t)
    (frameNumber : Z) : outcome (list Z) :=
  let frame := memset (quiescent config) (cells_per_frame config) in
  distributionLoop distributionList frameNumber frame.

(** ** Writing the output file *)

(** The bytes handed to the stream of the output file are a [list Z];
    [fwrite] appends the frame to them (its return value is not looked at by
    the program).  The stream is buffered: the bytes are the content of the
    file once [fclose] has run, that is, when writeOutputFile returns. *)
Definition fwrite (frame ofile : list Z) : list Z := ofile ++ frame.

(** The loop over the diagnostic frames of one frame group, from [i] on:
    [memset(frame, config.diagnostic_values[i], ...)], then [fwrite]. *)
Fixpoint diagnosticLoop (n : nat) (config : config_t) (i : Z) (ofile : list Z)
    : list Z * outcome unit :=
  match n with
  | O => (ofile, Ok tt)
  | S n' =>
      match load (diagnostic_values config) i with
      | Ok v =>
          let frame := memset v (cells_per_frame config) in
          diagnosticLoop n' config (i + 1) (fwrite frame ofile)
      | Fail f => (ofile, Fail f)
      end
  end.

(** The loop over the data frames of one frame group; returns the file and
    the value of [frameNumber] after the loop. *)
Fixpoint dataLoop (n : nat) (config : config_t) (cmdLine : cmdline_t)
    (distributionList : list distribution_t) (frameNumber : Z) (ofile : list Z)
    : list Z * outcome Z :=
  match n with
  | O => (ofile, Ok frameNumber)
  | S n' =>
      match (frame ← buildDataFrame config distributionList frameNumber;
             if nolvds cmdLine then Ok frame else reorderForLvds config frame) with
      | Ok frame =>
          dataLoop n' config cmdLine distributionList (u32 (frameNumber + 1))
            (fwrite frame ofile)
      | Fail f => (ofile, Fail f)
      end
  end.

(** The loop over the frame groups.  Its counter [frameGroup] is not read by
    the body; the body runs [frameGroupCount] times. *)
Fixpoint frameGroupLoop (n : nat) (config : config_t) (cmdLine : cmdline_t)
    (distributionList : list distribution_t) (frameNumber : Z) (ofile : list Z)
    : list Z * outcome unit :=
  match n with
  | O => (ofile, Ok tt)
  | S n' =>
      let diagnosticFrames := u32 (Z.of_nat (length (diagnostic_values config))) in
      match diagnosticLoop (Z.to_nat diagnosticFrames) config 0 ofile with
      | (ofile1, Ok _) =>
          match dataLoop (Z.to_nat (data_frames config)) config cmdLine
                  distributionList frameNumber ofile1 with
          | (ofile2, Ok frameNumber') =>
              frameGroupLoop n' config cmdLine distributionList frameNumber' ofile2
          | (ofile2, Fail f) => (ofile2, Fail f)
          end
      | (ofile1, Fail f) => (ofile1, Fail f)
      end
  end.

(** The bytes handed to the stream of the output file ([None]: the call did
    not open it) and how the call ends.  When the call returns, they are the
    content of the file; when the run ends inside the call, all that is
    known of the file is that it holds a prefix of them.  [canCreate] tells
    whether [fopen] succeeds. *)
Definition writeOutputFile (config : config_t) (cmdLine : cmdline_t)
    (distributionList : list distribution_t) (canCreate : bool) (frameGroupCount : Z)
    : option (list Z) * outcome unit :=
  if canCreate then
    let (ofile, r) :=
      frameGroupLoop (Z.to_nat frameGroupCount) config cmdLine distributionList 0 [] in
    (Some ofile, r)
  else (None, Fail (Throw (CantCreate (output_file config)))).

(** ** The run *)

(** The inputs that the program reads from its environment. *)
Record environment : Type := mk_environment {
  fragmentLines : option (list string);       (* lines of the fragment file *)
  distributionLines : option (list string);   (* lines of the distribution file *)
  canCreateOutput : bool                      (* can the output file be created? *)
}.

(** execute() from loadFragments on, after the configuration has been read
    and the translation table has been built.  The program gets there when
    neither [-lvdsmap] nor [-trace] is given (with either it prints and
    exits before); of [cmdLine] this part reads [nolvds] only.  The result
    is the one of writeOutputFile: the bytes handed to the stream of the
    output file ([None]: not opened) and how the run ends. *)
Definition execute (config : config_t) (cmdLine : cmdline_t) (env : environment)
    : option (list Z) * outcome unit :=
  match loadFragments config (fragmentLines env) ∅ with
  | Fail f => (None, Fail f)
  | Ok fragment =>
      match loadDistribution config fragment (distributionLines env) [] with
      | (_, Fail f) => (None, Fail f)
      | (distributionList, Ok _) =>
          match verifyDistributionIsValid config distributionList with
          | Fail f => (None, Fail f)
          | Ok frameGroupCount =>
              writeOutputFile config cmdLine distributionList (canCreateOutput env)
                frameGroupCount
          end
      end
  end.

(** ** Values of the declared types *)

Definition is_u8 (x : Z) : Prop := 0 <= x < 2^8.

(** The fields of [config] hold values of their C++ types. *)
Record wf_config (config : config_t) : Prop := mk_wf_config {
  wf_cells_per_frame : is_u32 (cells_per_frame config);
  wf_contig_size : 0 <= contig_size config < 2^64;
  wf_diagnostic_values : Forall is_u8 (diagnostic_values config);
  wf_data_frames : is_u32 (data_frames config);
  wf_quiescent : is_u8 (quiescent config)
}.

(** A line or a name that the fixed buffers of the program hold: a token of
    it has fewer than 1000 characters, and a message of throwRuntime that
    quotes a name of it has fewer than 1024. *)
Definition shortText (text : string) : Prop := (String.length text <= 997)%nat.

(** The fields [first], [last] and [step] of a record hold [int]s. *)
Record wf_distribution (dr : distribution_t) : Prop := mk_wf_distribution {
  wf_first : is_i32 (first dr);
  wf_last : is_i32 (last dr);
  wf_step : is_i32 (step dr)
}.

(** ** The table in closed form

    Functions that the proofs compare the table with. *)

(** The entry at position [j], in closed form: group [j / 256], sub-row
    [(j / 64) mod 4], walking backwards inside the sub-row. *)
Definition tableEntry (j : Z) : Z :=
  ((j / 64) mod 4) * 512 + j / 256 + 8 * (63 - j mod 64).

(** Where the raw offset [r] is found in the table, in closed form. *)
Definition tableIndex (r : Z) : Z :=
  (r mod 8) * 256 + (r / 512) * 64 + 63 - (r mod 512) / 8.

(** The assignments that the loops of createLvdsTranslationTable perform, as
    pairs (index, value) in program order, and what performing a list of
    assignments does to a table. *)
Fixpoint cellAssignments (n : nat) (i rowOffset cellValue : Z) : list (Z * Z) :=
  match n with
  | O => []
  | S n' =>
      (rowOffset - i, cellValue) :: cellAssignments n' (i + 1) rowOffset (cellValue + 8)
  end.

Fixpoint rowAssignments (n : nat) (row groupOffset group : Z) : list (Z * Z) :=
  match n with
  | O => []
  | S n' =>
      cellAssignments 64 0 (groupOffset + row * 64) (row * 512 + group)
        ++ rowAssignments n' (row + 1) groupOffset group
  end.

Fixpoint groupAssignments (n : nat) (group : Z) : list (Z * Z) :=
  match n with
  | O => []
  | S n' => rowAssignments 4 0 (group * 256 + 63) group ++ groupAssignments n' (group + 1)
  end.

Definition lvdsAssignments : list (Z * Z) := groupAssignments 8 0.

Fixpoint assignAll (table : list Z) (l : list (Z * Z)) : outcome (list Z) :=
  match l with
  | [] => Ok table
  | (k, v) :: l' => table' ← store table k v; assignAll table' l'
  end.

(** [assigned j v l]: the assignment of [v] to index [j] occurs in [l]. *)
Fixpoint assigned (j v : Z) (l : list (Z * Z)) : bool :=
  match l with
  | [] => false
  | (k, w) :: l' => if k =? j then (if w =? v then true else assigned j v l') else assigned j v l'
  end.

(** What index [j] holds after the assignments of [l], when it held
    [before]: the value of the last assignment to [j], if there is one. *)
Fixpoint lastAssigned (l : list (Z * Z)) (j : Z) (before : option Z) : option Z :=
  match l with
  | [] => before
  | (k, v) :: l' => lastAssigned l' j (if k =? j then Some v else before)
  end.

(** The cell that ends up at position [k] of a reordered frame. *)
Definition lvdsSource (k : Z) : Z :=
  ROW_SIZE * (k / ROW_SIZE) + tableEntry (k mod ROW_SIZE).

(** Linear arithmetic once [ROW_SIZE] is the constant 2048. *)
Ltac rlia := unfold ROW_SIZE in *; lia.

(** ** The frame that the distribution list describes

    The cells of the progression of a record, and the record that decides a
    cell: the last one in list order that has a value for the frame and has
    the cell in its progression. *)

Definition inProgression (dr : distribution_t) (k : Z) : bool :=
  (first dr - 1 <=? k) && (k <? last dr) && ((k - (first dr - 1)) mod step dr =? 0).

Definition writesCell (frameNumber k : Z) (dr : distribution_t) : bool :=
  (frameNumber <? Z.of_nat (length (cellValue dr))) && inProgression dr k.

Definition decidingRecord (distributionList : list distribution_t) (frameNumber k : Z)
    : option distribution_t :=
  find (writesCell frameNumber k) (rev distributionList).

Definition describedCell (config : config_t) (distributionList : list distribution_t)
    (frameNumber k : Z) : option Z :=
  match decidingRecord distributionList frameNumber k with
  | Some dr => cellValue dr !! Z.to_nat frameNumber
  | None => Some (quiescent config)
  end.

(** The records that the statements on buildDataFrame are about; [nonNegativeLast]
    is the further condition under which the loop compares [cellNumber] with
    the value of [dr.last] itself. *)
Record inRange (config : config_t) (dr : distribution_t) : Prop := mk_inRange {
  inRange_first : 1 <= first dr <= cells_per_frame config;
  inRange_last : last dr <= cells_per_frame config;
  inRange_step : 1 <= step dr
}.

Definition nonNegativeLast (dr : distribution_t) : Prop := 0 <= last dr.

(** The longest values sequence of a distribution list, as a number. *)
Definition maximumLength (distributionList : list distribution_t) : Z :=
  Z.of_nat (max_list ((fun dr => length (cellValue dr)) <$> distributionList)).

(** Every values sequence has a length that [uint32_t] can hold. *)
Definition lengthsFit (distributionList : list distribution_t) : Prop :=
  Forall (fun dr => Z.of_nat (length (cellValue dr)) < 2^32) distributionList.

(** ** The layout of the output file

    The frame that the data loop writes for a frame number, and the file as
    the specification describes it: frame groups, each made of the diagnostic frames
    followed by the data frames, with nothing before, between or after. *)

Definition builtFrame (config : config_t) (cmdLine : cmdline_t)
    (distributionList : list distribution_t) (frameNumber : Z) : outcome (list Z) :=
  frame ← buildDataFrame config distributionList frameNumber;
  if nolvds cmdLine then Ok frame else reorderForLvds config frame.

Definition diagnosticFrames (config : config_t) : list (list Z) :=
  (fun v => replicate (Z.to_nat (cells_per_frame config)) v) <$> diagnostic_values config.

(** [frames k] is the [k]-th data frame of the run, counted from 0. *)
Definition frameGroup (config : config_t) (frames : Z -> list Z) (g : Z) : list (list Z) :=
  diagnosticFrames config
    ++ (frames <$> seqZ (g * data_frames config) (data_frames config)).

Definition expectedFrames (config : config_t) (frames : Z -> list Z) (frameGroupCount : Z)
    : list (list Z) :=
  concat (frameGroup config frames <$> seqZ 0 frameGroupCount).

Definition expectedFile (config : config_t) (frames : Z -> list Z) (frameGroupCount : Z)
    : list Z :=
  concat (expectedFrames config frames frameGroupCount).

(** ** The fragment names of a distribution line

    The names that the loop of resolveFragments reads from [p], in order,
    when none of them stops it. *)
Fixpoint fragmentNames (fuel : nat) (p : string) : list string :=
  match fuel with
  | O => []
  | S fuel' =>
      let '(status, fragmentName, p') := getNextCommaSeparatedToken p in
      if status then fragmentName :: fragmentNames fuel' p' else []
  end.

(** The text after the [$] of a line as the name loop receives it, and the
    names listed there. *)
Definition namesText (delimeter : string) : string :=
  let delimeter := skipBlanks delimeter in
  if (peek delimeter =? ",")%char then advance delimeter else delimeter.


(** The record that a line stores once its cell numbers are accepted. *)
Definition storedRecord (first last step : Z) (values : list Z) : distribution_t :=
  mk_distribution first (if last =? 0 then first else last)
    (if step =? 0 then 1 else step) values.

(** ** Sample inputs

    The configuration file distributed with the program (one row per frame),
    and small inputs on which the statements below are run. *)

Definition sampleConfig : config_t :=
  mk_config 2048 42949672960 [34; 32; 172] 4582 170
    "fragments.csv" "distribution.csv" "output.dat".

Definition sampleFrame : list Z := seqZ 0 2048.

(** The capacity example: 4582 data frames, three diagnostic frames, and a
    longest sequence of 4583 values. *)
Definition longRecord : distribution_t := mk_distribution 1 1 1 (replicate 4583 0).

(** Configurations with a zero divisor, and with sizes beyond 32 bits. *)
Definition noDataFrames : config_t :=
  mk_config 2048 42949672960 [34; 32; 172] 0 170
    "fragments.csv" "distribution.csv" "output.dat".

Definition noCells : config_t :=
  mk_config 0 42949672960 [34; 32; 172] 4582 170
    "fragments.csv" "distribution.csv" "output.dat".

Definition manyDataFrames : config_t :=
  mk_config 2048 42949672960 [34] 4294967295 170
    "fragments.csv" "distribution.csv" "output.dat".

Definition hugeContig : config_t :=
  mk_config 2048 (2^43) [] 1 170
    "fragments.csv" "distribution.csv" "output.dat".

(** A frame size that is not a multiple of the row size. *)
Definition oddConfig : config_t :=
  mk_config 2000 42949672960 [34; 32; 172] 4582 170
    "fragments.csv" "distribution.csv" "output.dat".

(** A small run: one diagnostic frame and two data frames per group. *)
Definition smallConfig : config_t :=
  mk_config 2048 42949672960 [34] 2 170
    "fragments.csv" "distribution.csv" "output.dat".

Definition smallList : list distribution_t := [mk_distribution 1 4 2 [1; 2; 3]].

Definition lvdsCmdLine : cmdline_t := mk_cmdline false 0 false false.

(** A frame of two rows of bytes, and one that differs from it in the first
    row only. *)
Definition twoRowConfig : config_t :=
  mk_config 4096 42949672960 [34] 2 170
    "fragments.csv" "distribution.csv" "output.dat".

Definition rowFrom (a : Z) : list Z := (fun k => (a + k) mod 251) <$> seqZ 0 2048.

Definition twoRowFrame : list Z := rowFrom 0 ++ rowFrom 7.

Definition otherFrame : list Z := rowFrom 100 ++ rowFrom 7.

(** The small run without the reordering. *)
Definition rawCmdLine : cmdline_t := mk_cmdline false 0 true false.

(** Records with a negative [last], and the files that define the first. *)
Definition negativeLast : distribution_t := mk_distribution 1 (-1) 1 [7].

Definition wrappingRecord : distribution_t :=
  mk_distribution 2048 (-2147483648) 2147483647 [7].

Definition negativeLastEnv : environment :=
  mk_environment (Some ["A, 7"%string]) (Some ["1, -1, 1 $ A"%string]) true.

(** A fragment table, and distribution lines. *)
Definition sampleFragments : gmap string (list Z) :=
  <["A"%string := [1; 2; 300]]> (<["B"%string := [4; -1]]> ∅).

(** * The rest of the program *)

(** ** Printing numbers

    [printf("%d", n)]: the decimal digits of [n], after a minus sign when [n]
    is negative.  The fuel is at least the number of digits. *)
Fixpoint decimalDigits (fuel : nat) (n : Z) (acc : string) : string :=
  match fuel with
  | O => acc
  | S fuel' =>
      let acc' := String (ascii_of_nat (48 + Z.to_nat (n mod 10))) acc in
      if n <? 10 then acc' else decimalDigits fuel' (n / 10) acc'
  end.

Definition decimal (n : Z) : string :=
  if n <? 0
  then String "-"%char (decimalDigits (S (Z.to_nat (Z.log2 (- n)))) (- n) EmptyString)
  else decimalDigits (S (Z.to_nat (Z.log2 n))) n EmptyString.

(** ** trace *)

(** The loop [while (fread(frame, 1, cells_per_frame, ifile) == cells_per_frame)]
    of trace(): [ifile] is what is left of the file, [isFirst] the variable
    [first], [out] what has been printed.  A read that finds fewer than
    [cells_per_frame] bytes ends the loop.  Every iteration takes
    [cells_per_frame] bytes from the file, and with [cells_per_frame = 0]
    the first access to the frame is outside it, so fuel beyond the length
    of the file is never used up. *)
Fixpoint traceLoop (fuel : nat) (config : config_t) (cell : Z) (ifile : list Z)
    (isFirst : bool) (out : string) : outcome string :=
  match fuel with
  | O => Fail Diverges
  | S fuel' =>
      let frame := take (Z.to_nat (cells_per_frame config)) ifile in
      if Z.of_nat (length frame) =? cells_per_frame config then
        let out := if isFirst then out else out +:+ ", " in
        v ← load frame cell;
        traceLoop fuel' config cell (drop (Z.to_nat (cells_per_frame config)) ifile)
          false (out +:+ decimal v)
      else Ok (out +:+ String "010"%char EmptyString)
  end.

(** trace(): what it prints.  [ifile] is the content of the output file,
    [None] when it cannot be opened; the message of that error starts with
    "Can't create", as for writeOutputFile. *)
Definition trace (config : config_t) (cmdLine : cmdline_t) (ifile : option (list Z))
    : outcome string :=
  cell ← traceCellNumber cmdLine;
  match ifile with
  | None => Fail (Throw (CantCreate (output_file config)))
  | Some bytes => traceLoop (S (length bytes)) config cell bytes true EmptyString
  end.

(** ** parseCommandLine *)

(** How parseCommandLine ends: it returns, with [cmdLine] and its field
    [config] (the name of the configuration file); it throws
    "Missing parameter on ..."; or it prints "Illegal command line
    parameter" and exits. *)
Inductive parsed : Type :=
  | Parsed (cmdLine : cmdline_t) (configName : string)
  | MissingParameter (switch : string)
  | IllegalParameter (token : string).

(** The loop [while (argv[++i])] over the arguments that follow the program
    name. *)
Fixpoint parseArguments (argv : list string) (cmdLine : cmdline_t) (configName : string)
    : parsed :=
  match argv with
  | [] => Parsed cmdLine configName
  | token :: argv' =>
      if String.eqb token "-trace" then
        match argv' with
        | parameter :: argv'' =>
            parseArguments argv''
              (mk_cmdline true (u32 (atoi parameter)) (nolvds cmdLine) (lvdsmap cmdLine))
              configName
        | [] => MissingParameter "-trace"
        end
      else if String.eqb token "-config" then
        match argv' with
        | parameter :: argv'' => parseArguments argv'' cmdLine parameter
        | [] => MissingParameter "-config"
        end
      else if String.eqb token "-nolvds" then
        parseArguments argv'
          (mk_cmdline (trace_flag cmdLine) (cellNumber cmdLine) true (lvdsmap cmdLine))
          configName
      else if String.eqb token "-lvdsmap" then
        parseArguments argv'
          (mk_cmdline (trace_flag cmdLine) (cellNumber cmdLine) (nolvds cmdLine) true)
          configName
      else IllegalParameter token
  end.

(** The global [cmdLine] has static storage: all its fields are zero. *)
Definition noCmdLine : cmdline_t := mk_cmdline false 0 false false.

Definition parseCommandLine (argv : list string) : parsed :=
  parseArguments argv noCmdLine EmptyString.

(** ** The earlier revision of writeOutputFile

    The revision of the program without the LVDS reordering has one
    diagnostic constant and a number of diagnostic frames in its
    configuration; it fills the frame with the constant once per group and
    writes it [diagnostic_frames] times, then writes the data frames as
    buildDataFrame leaves them. *)
Record config_v1 : Type := mk_config_v1 {
  v1_cells_per_frame : Z;       (* uint32_t *)
  v1_contig_size : Z;           (* uint64_t *)
  v1_diagnostic_constant : Z;   (* uint8_t *)
  v1_diagnostic_frames : Z;     (* uint32_t *)
  v1_data_frames : Z;           (* uint32_t *)
  v1_quiescent : Z;             (* uint8_t *)
  v1_output_file : string
}.

(** buildDataFrame reads [quiescent] and [cells_per_frame] only; the earlier
    revision has the same function. *)
Definition buildDataFrame_v1 (config : config_v1) (distributionList : list distribution_t)
    (frameNumber : Z) : outcome (list Z) :=
  let frame := memset (v1_quiescent config) (v1_cells_per_frame config) in
  distributionLoop distributionList frameNumber frame.

Fixpoint diagnosticLoop_v1 (n : nat) (frame ofile : list Z) : list Z :=
  match n with
  | O => ofile
  | S n' => diagnosticLoop_v1 n' frame (fwrite frame ofile)
  end.

Fixpoint dataLoop_v1 (n : nat) (config : config_v1)
    (distributionList : list distribution_t) (frameNumber : Z) (ofile : list Z)
    : list Z * outcome Z :=
  match n with
  | O => (ofile, Ok frameNumber)
  | S n' =>
      match buildDataFrame_v1 config distributionList frameNumber with
      | Ok frame =>
          dataLoop_v1 n' config distributionList (u32 (frameNumber + 1)) (fwrite frame ofile)
      | Fail f => (ofile, Fail f)
      end
  end.

Fixpoint frameGroupLoop_v1 (n : nat) (config : config_v1)
    (distributionList : list distribution_t) (frameNumber : Z) (ofile : list Z)
    : list Z * outcome unit :=
  match n with
  | O => (ofile, Ok tt)
  | S n' =>
      let frame := memset (v1_diagnostic_constant config) (v1_cells_per_frame config) in
      let ofile1 := diagnosticLoop_v1 (Z.to_nat (v1_diagnostic_frames config)) frame ofile in
      match dataLoop_v1 (Z.to_nat (v1_data_frames config)) config distributionList
              frameNumber ofile1 with
      | (ofile2, Ok frameNumber') =>
          frameGroupLoop_v1 n' config distributionList frameNumber' ofile2
      | (ofile2, Fail f) => (ofile2, Fail f)
      end
  end.

Definition writeOutputFile_v1 (config : config_v1)
    (distributionList : list distribution_t) (canCreate : bool) (frameGroupCount : Z)
    : option (list Z) * outcome unit :=
  if canCreate then
    let (ofile, r) :=
      frameGroupLoop_v1 (Z.to_nat frameGroupCount) config distributionList 0 [] in
    (Some ofile, r)
  else (None, Fail (Throw (CantCreate (v1_output_file config)))).

(** The configuration of the current revision that stands for one of the
    earlier revision: the constant, once per diagnostic frame. *)
Definition upgradeConfig (config : config_v1) (fragmentFile distributionFile : string)
    : config_t :=
  mk_config (v1_cells_per_frame config) (v1_contig_size config)
    (replicate (Z.to_nat (v1_diagnostic_frames config)) (v1_diagnostic_constant config))
    (v1_data_frames config) (v1_quiescent config)
    fragmentFile distributionFile (v1_output_file config).

(** ** Functions that the statements below are written with *)

(** Where the raw cell [k] of a frame is found after reorderForLvds. *)
Definition lvdsPosition (k : Z) : Z :=
  ROW_SIZE * (k / ROW_SIZE) + tableIndex (k mod ROW_SIZE).

(** The frame that the data loop writes for the [k]-th data frame of a run,
    and the raw frame it is made from. *)
Definition rawFrameOf (config : config_t) (distributionList : list distribution_t)
    (k : Z) : list Z :=
  match buildDataFrame config distributionList (u32 k) with
  | Ok frame => frame
  | Fail _ => []
  end.

Definition writtenFrameOf (config : config_t) (cmdLine : cmdline_t)
    (distributionList : list distribution_t) (k : Z) : list Z :=
  match builtFrame config cmdLine distributionList (u32 k) with
  | Ok frame => frame
  | Fail _ => []
  end.

(** Numbers as trace() prints them: separated by a comma and a space. *)
Fixpoint commaSeparated (values : list Z) : string :=
  match values with
  | [] => EmptyString
  | [v] => decimal v
  | v :: values' => decimal v +:+ ", " +:+ commaSeparated values'
  end.

(** The value of cell [cell] in each frame of a run, frame by frame: in a
    group, the diagnostic values, then the cell of each raw data frame. *)
Definition cellHistory (config : config_t) (distributionList : list distribution_t)
    (cell frameGroupCount : Z) : list Z :=
  concat ((fun g =>
             diagnostic_values config ++
             ((fun k => rawFrameOf config distributionList k !!! Z.to_nat cell)
                <$> seqZ (g * data_frames config) (data_frames config)))
          <$> seqZ 0 frameGroupCount).

(** A token of the definition files: not empty, and without a space, a tab,
    an end of line or a comma in it. *)
Definition isSeparator (c : ascii) : bool :=
  isBlank c || isEol c || (c =? ",")%char.

Fixpoint noSeparator (token : string) : bool :=
  match token with
  | EmptyString => true
  | String c token' => negb (isSeparator c) && noSeparator token'
  end.

Definition isToken (token : string) : Prop :=
  token <> EmptyString /\ noSeparator token = true.

(** Tokens written one after the other, with a comma and a space between. *)
Fixpoint joinTokens (tokens : list string) : string :=
  match tokens with
  | [] => EmptyString
  | [token] => token
  | token :: tokens' => token +:+ ", " +:+ joinTokens tokens'
  end.

(** The values of the named fragments, one after the other, as bytes. *)
Definition fragmentBytes (fragment : gmap string (list Z)) (names : list string) : list Z :=
  concat ((fun name => u8 <$> default [] (fragment !! name)) <$> names).

(** The text of the definition files, as a user writes it. *)
Fixpoint allChars (ok : ascii -> bool) (s : string) : bool :=
  match s with
  | EmptyString => true
  | String c s' => ok c && allChars ok s'
  end.

(** A character of a printed number: a minus sign or a decimal digit. *)
Definition isNumberChar (c : ascii) : bool :=
  (c =? "-")%char || match digitValue c with Some _ => true | None => false end.

(** A line of the fragment file: the name, then the values. *)
Definition fragmentLine (name : string) (values : list Z) : string :=
  joinTokens (name :: (decimal <$> values)).

(** A line of the distribution file: the three cell numbers, a [$], then the
    fragment names. *)
Definition distributionLine (first last step : Z) (names : list string) : string :=
  decimal first +:+ ", " +:+ decimal last +:+ ", " +:+ decimal step +:+ " $ "
    +:+ joinTokens names.

(** Where [p] is left by getNextCommaSeparatedToken after a token that
    [rest] follows: after the blanks and one comma. *)
Definition afterToken (rest : string) : string :=
  let p := skipBlanks rest in
  if (peek p =? ",")%char then advance p else p.


(** A run of the whole program: the fragment [A] on the cells 1 and 3. *)
Definition smallEnv : environment :=
  mk_environment (Some ["A, 1, 2, 3"%string]) (Some ["1, 4, 2 $ A"%string]) true.

(** A configuration of the earlier revision. *)
Definition earlierConfig : config_v1 := mk_config_v1 4 1000 255 3 2 170 "output.dat".


Definition beyondTrace : cmdline_t := mk_cmdline true 4 true false.

(** Inputs on which the statements on the rest of the program are run. *)
Definition tinyConfig : config_t :=
  mk_config 4 1000 [34; 32] 2 170 "fragments.csv" "distribution.csv" "output.dat".

Definition tinyList : list distribution_t :=
  [mk_distribution 1 4 2 [1; 2; 3]; mk_distribution 2 2 1 [9]].

Definition tinyTrace : cmdline_t := mk_cmdline true 1 true false.

Definition lvdsTrace : cmdline_t := mk_cmdline true 2 false false.

(** * Properties *)

(** ** Buffers *)

Lemma load_Ok (buf : list Z) (i v : Z) :
  load buf i = Ok v <-> 0 <= i /\ buf !! Z.to_nat i = Some v.
Proof.
  unfold load. split.
  - destruct (0 <=? i) eqn:H0; simpl; [|discriminate].
    destruct (i <? Z.of_nat (length buf)); [|discriminate].
    destruct (buf !! Z.to_nat i); [|discriminate].
    intros [= ->]. split; [lia|reflexivity].
  - intros [H0 Hv].
    pose proof (lookup_lt_Some _ _ _ Hv) as Hlt.
    replace (0 <=? i) with true by (symmetry; apply Z.leb_le; lia).
    replace (i <? Z.of_nat (length buf)) with true by (symmetry; apply Z.ltb_lt; lia).
    simpl. rewrite Hv. reflexivity.
Qed.

Lemma load_in_range (buf : list Z) (i : Z) :
  0 <= i < Z.of_nat (length buf) -> exists v, load buf i = Ok v.
Proof.
  intros Hi.
  destruct (lookup_lt_is_Some_2 buf (Z.to_nat i)) as [v Hv]; [lia|].
  exists v. apply load_Ok. split; [lia|exact Hv].
Qed.

Lemma store_Ok (buf : list Z) (i v : Z) :
  0 <= i < Z.of_nat (length buf) -> store buf i v = Ok (<[Z.to_nat i := v]> buf).
Proof.
  intros Hi. unfold store.
  replace (0 <=? i) with true by (symmetry; apply Z.leb_le; lia).
  replace (i <? Z.of_nat (length buf)) with true by (symmetry; apply Z.ltb_lt; lia).
  reflexivity.
Qed.

Lemma store_out (buf : list Z) (i v : Z) :
  Z.of_nat (length buf) <= i -> store buf i v = Fail OutOfBounds.
Proof.
  intros Hi. unfold store.
  replace (i <? Z.of_nat (length buf)) with false by (symmetry; apply Z.ltb_ge; lia).
  rewrite andb_false_r. reflexivity.
Qed.

Lemma length_memset (c n : Z) : 0 <= n -> Z.of_nat (length (memset c n)) = n.
Proof. intros Hn. unfold memset. rewrite length_replicate. lia. Qed.

(** ** Bounded quantification by evaluation *)

Lemma forallb_seqZ (P : Z -> bool) (m n : Z) :
  forallb P (seqZ m n) = true -> forall i, m <= i < m + n -> P i = true.
Proof.
  intros H i Hi. rewrite forallb_forall in H. apply H.
  apply list_elem_of_In, elem_of_seqZ. exact Hi.
Qed.

(** ** The translation table *)

Lemma createLvdsTranslationTable_Ok :
  createLvdsTranslationTable zeroTable = Ok lvdsTranslationTable.
Proof. vm_compute. reflexivity. Qed.

Lemma length_lvdsTranslationTable :
  Z.of_nat (length lvdsTranslationTable) = ROW_SIZE.
Proof. vm_compute. reflexivity. Qed.

Lemma lvdsTranslationTable_entry (j : Z) :
  0 <= j < ROW_SIZE -> lvdsTranslationTable !! Z.to_nat j = Some (tableEntry j).
Proof.
  intros Hj.
  assert (H : forallb (fun j => bool_decide
            (lvdsTranslationTable !! Z.to_nat j = Some (tableEntry j)))
            (seqZ 0 ROW_SIZE) = true) by (vm_compute; reflexivity).
  apply (forallb_seqZ _ _ _ H j) in Hj. apply bool_decide_eq_true in Hj. exact Hj.
Qed.

Lemma tableEntry_range (j : Z) :
  0 <= j < ROW_SIZE -> 0 <= tableEntry j < ROW_SIZE.
Proof.
  unfold ROW_SIZE, tableEntry. intros Hj.
  pose proof (Z.mod_pos_bound (j / 64) 4).
  pose proof (Z.mod_pos_bound j 64).
  assert (0 <= j / 256 < 8)
    by (split; [apply Z.div_pos; lia | apply Z.div_lt_upper_bound; lia]).
  lia.
Qed.

Lemma tableIndex_range (r : Z) :
  0 <= r < ROW_SIZE -> 0 <= tableIndex r < ROW_SIZE.
Proof.
  unfold ROW_SIZE, tableIndex. intros Hr.
  pose proof (Z.mod_pos_bound r 8).
  pose proof (Z.mod_pos_bound r 512).
  assert (0 <= r / 512 < 4)
    by (split; [apply Z.div_pos; lia | apply Z.div_lt_upper_bound; lia]).
  assert (0 <= r mod 512 / 8 < 64)
    by (split; [apply Z.div_pos; lia | apply Z.div_lt_upper_bound; lia]).
  lia.
Qed.

Lemma tableEntry_tableIndex (r : Z) :
  0 <= r < ROW_SIZE -> tableEntry (tableIndex r) = r.
Proof.
  intros Hr.
  assert (H : forallb (fun r => tableEntry (tableIndex r) =? r) (seqZ 0 ROW_SIZE) = true)
    by (vm_compute; reflexivity).
  apply (forallb_seqZ _ _ _ H r) in Hr. apply Z.eqb_eq in Hr. exact Hr.
Qed.

Lemma tableIndex_tableEntry (j : Z) :
  0 <= j < ROW_SIZE -> tableIndex (tableEntry j) = j.
Proof.
  intros Hj.
  assert (H : forallb (fun j => tableIndex (tableEntry j) =? j) (seqZ 0 ROW_SIZE) = true)
    by (vm_compute; reflexivity).
  apply (forallb_seqZ _ _ _ H j) in Hj. apply Z.eqb_eq in Hj. exact Hj.
Qed.

Lemma lvdsTranslationTable_range :
  Forall (fun x => 0 <= x < ROW_SIZE) lvdsTranslationTable.
Proof.
  apply Forall_lookup. intros k x Hk.
  pose proof (lookup_lt_Some _ _ _ Hk) as Hlt.
  pose proof length_lvdsTranslationTable as Hlen.
  assert (Hj : 0 <= Z.of_nat k < ROW_SIZE) by lia.
  pose proof (lvdsTranslationTable_entry _ Hj) as He.
  rewrite Nat2Z.id in He. rewrite Hk in He. injection He as ->.
  apply tableEntry_range. exact Hj.
Qed.

Lemma assigned_elem_of (j v : Z) (l : list (Z * Z)) :
  assigned j v l = true -> (j, v) ∈ l.
Proof.
  induction l as [|[k w] l IH]; simpl; [discriminate|].
  destruct (k =? j) eqn:Hk; [destruct (w =? v) eqn:Hw|].
  - apply Z.eqb_eq in Hk, Hw. subst. intros _. apply list_elem_of_here.
  - intros H. apply list_elem_of_further, IH, H.
  - intros H. apply list_elem_of_further, IH, H.
Qed.

(** Every index of the table is the target of an assignment of the loops. *)
Lemma lvdsAssignments_cover (j : Z) :
  0 <= j < ROW_SIZE -> (j, tableEntry j) ∈ lvdsAssignments.
Proof.
  intros Hj.
  assert (H : forallb (fun j => assigned j (tableEntry j) lvdsAssignments)
            (seqZ 0 ROW_SIZE) = true) by (vm_compute; reflexivity).
  apply (forallb_seqZ _ _ _ H j) in Hj. apply assigned_elem_of. exact Hj.
Qed.

(** Performing assignments that fall inside the table: each index holds the
    value of the last assignment to it, or what it held before. *)
Lemma assignAll_cells (l : list (Z * Z)) :
  forall (t0 : list Z),
    Forall (fun a => 0 <= fst a < Z.of_nat (length t0)) l ->
    exists t, assignAll t0 l = Ok t /\ length t = length t0 /\
      forall j, 0 <= j -> t !! Z.to_nat j = lastAssigned l j (t0 !! Z.to_nat j).
Proof.
  induction l as [|[k v] l IH]; intros t0 Hall.
  - exists t0. repeat split; reflexivity.
  - inversion Hall as [|? ? Hk Hall']; subst. simpl in Hk.
    destruct (IH (<[Z.to_nat k := v]> t0)) as (t & Ht & Hlen & Hcells).
    { rewrite length_insert. exact Hall'. }
    exists t. simpl assignAll.
    rewrite store_Ok by exact Hk. cbn.
    split; [exact Ht|]. split; [rewrite Hlen; apply length_insert|].
    intros j Hj. rewrite (Hcells j Hj). simpl lastAssigned. f_equal.
    destruct (k =? j) eqn:Hkj.
    + apply Z.eqb_eq in Hkj. subst j. apply list_lookup_insert_eq. lia.
    + apply Z.eqb_neq in Hkj. apply list_lookup_insert_ne. lia.
Qed.

Lemma lastAssigned_before (l : list (Z * Z)) (j : Z) :
  forall (before : option Z),
    lastAssigned l j before =
      match lastAssigned l j None with
      | Some v => Some v
      | None => before
      end.
Proof.
  induction l as [|[k v] l IH]; intros before; simpl; [reflexivity|].
  destruct (k =? j); [|apply IH].
  rewrite (IH (Some v)). destruct (lastAssigned l j None); reflexivity.
Qed.

Lemma lvdsAssignments_range :
  Forall (fun a => 0 <= fst a < ROW_SIZE) lvdsAssignments.
Proof.
  assert (H : forallb (fun a => (0 <=? fst a) && (fst a <? ROW_SIZE)) lvdsAssignments = true)
    by (vm_compute; reflexivity).
  rewrite forallb_forall in H. apply Forall_forall. intros a Ha.
  apply H in Ha. apply andb_true_iff in Ha as [H1 H2].
  apply Z.leb_le in H1. apply Z.ltb_lt in H2. lia.
Qed.

Lemma lvdsAssignments_last (j : Z) (before : option Z) :
  0 <= j < ROW_SIZE -> lastAssigned lvdsAssignments j before = Some (tableEntry j).
Proof.
  intros Hj.
  assert (H : forallb (fun j =>
            match lastAssigned lvdsAssignments j None with
            | Some v => v =? tableEntry j
            | None => false
            end) (seqZ 0 ROW_SIZE) = true) by (vm_compute; reflexivity).
  apply (forallb_seqZ _ _ _ H j) in Hj. clear H. cbv beta in Hj.
  rewrite lastAssigned_before.
  destruct (lastAssigned lvdsAssignments j None); [|discriminate].
  apply Z.eqb_eq in Hj. subst. reflexivity.
Qed.

(** The loops perform the assignments of [lvdsAssignments]. *)
Lemma assignAll_app (l1 l2 : list (Z * Z)) :
  forall (table : list Z),
    assignAll table (l1 ++ l2) = (table' ← assignAll table l1; assignAll table' l2).
Proof.
  induction l1 as [|[k v] l1 IH]; intros table; [reflexivity|].
  simpl. destruct (store table k v) as [table'|]; cbn; [apply IH|reflexivity].
Qed.

Lemma cellLoop_assignments (n : nat) :
  forall (i rowOffset cellValue : Z) (table : list Z),
    cellLoop n i rowOffset cellValue table =
      assignAll table (cellAssignments n i rowOffset cellValue).
Proof.
  induction n as [|n IH]; intros i rowOffset cellValue table; [reflexivity|].
  simpl. destruct (store table (rowOffset - i) cellValue) as [table'|]; cbn;
    [apply IH|reflexivity].
Qed.

Lemma rowLoop_assignments (n : nat) :
  forall (row groupOffset group : Z) (table : list Z),
    rowLoop n row groupOffset group table =
      assignAll table (rowAssignments n row groupOffset group).
Proof.
  induction n as [|n IH]; intros row groupOffset group table; [reflexivity|].
  cbn [rowLoop rowAssignments]. cbv zeta.
  rewrite assignAll_app, cellLoop_assignments.
  destruct (assignAll table _) as [table'|]; cbn; [apply IH|reflexivity].
Qed.

Lemma groupLoop_assignments (n : nat) :
  forall (group : Z) (table : list Z),
    groupLoop n group table = assignAll table (groupAssignments n group).
Proof.
  induction n as [|n IH]; intros group table; [reflexivity|].
  cbn [groupLoop groupAssignments]. cbv zeta.
  rewrite assignAll_app, rowLoop_assignments.
  destruct (assignAll table _) as [table'|]; cbn; [apply IH|reflexivity].
Qed.

Lemma createLvdsTranslationTable_assignments (table : list Z) :
  createLvdsTranslationTable table = assignAll table lvdsAssignments.
Proof. apply groupLoop_assignments. Qed.

(** Whatever the array holds before, createLvdsTranslationTable leaves the
    same table: no entry keeps its former content. *)
Lemma createLvdsTranslationTable_any (table : list Z) :
  Z.of_nat (length table) = ROW_SIZE ->
  createLvdsTranslationTable table = Ok lvdsTranslationTable.
Proof.
  intros Hlen. rewrite createLvdsTranslationTable_assignments.
  destruct (assignAll_cells lvdsAssignments table) as (t & Ht & Hl & Hcells).
  { rewrite Hlen. exact lvdsAssignments_range. }
  rewrite Ht. f_equal. apply list_eq. intros i.
  pose proof length_lvdsTranslationTable as Htl.
  destruct (Z.lt_ge_cases (Z.of_nat i) ROW_SIZE) as [Hlt|Hge].
  - assert (Hi : 0 <= Z.of_nat i < ROW_SIZE) by lia.
    pose proof (Hcells (Z.of_nat i) ltac:(lia)) as Hc.
    rewrite (lvdsAssignments_last _ _ Hi), Nat2Z.id in Hc.
    pose proof (lvdsTranslationTable_entry _ Hi) as He. rewrite Nat2Z.id in He.
    congruence.
  - rewrite !lookup_ge_None_2 by lia. reflexivity.
Qed.

(** C1: the table built by createLvdsTranslationTable has ROW_SIZE = 2048
    entries and is fully populated: the table does not depend on what the
    array held before, and every entry is the target of one of the
    assignments that the loops perform and holds the value assigned to it.
    The table is a bijection on [0, 2048): every [i] in that range is the
    entry of exactly one index [j] of the range. *)
Theorem lvds_table_bijection :
  ROW_SIZE = 2048 /\
  Z.of_nat (length lvdsTranslationTable) = ROW_SIZE /\
  (forall table, Z.of_nat (length table) = ROW_SIZE ->
     createLvdsTranslationTable table = Ok lvdsTranslationTable) /\
  (forall table, createLvdsTranslationTable table = assignAll table lvdsAssignments) /\
  (forall j, 0 <= j < ROW_SIZE ->
     exists v, (j, v) ∈ lvdsAssignments /\ lvdsTranslationTable !! Z.to_nat j = Some v) /\
  (forall i, 0 <= i < ROW_SIZE ->
     exists j, (0 <= j < ROW_SIZE /\ lvdsTranslationTable !! Z.to_nat j = Some i) /\
       forall j', 0 <= j' < ROW_SIZE ->
         lvdsTranslationTable !! Z.to_nat j' = Some i -> j' = j).
Proof.
  split; [reflexivity|].
  split; [exact length_lvdsTranslationTable|].
  split; [exact createLvdsTranslationTable_any|].
  split; [exact createLvdsTranslationTable_assignments|].
  split.
  - intros j Hj. exists (tableEntry j).
    split; [apply lvdsAssignments_cover | apply lvdsTranslationTable_entry]; exact Hj.
  - intros i Hi. exists (tableIndex i). split.
    + split; [apply tableIndex_range; exact Hi|].
      rewrite lvdsTranslationTable_entry by (apply tableIndex_range; exact Hi).
      f_equal. apply tableEntry_tableIndex. exact Hi.
    + intros j' Hj' Hlook.
      rewrite lvdsTranslationTable_entry in Hlook by exact Hj'.
      injection Hlook as <-. symmetry. apply tableIndex_tableEntry. exact Hj'.
Qed.

Lemma lvds_table_bijection_witness :
  exists j, (0 <= j < ROW_SIZE /\ lvdsTranslationTable !! Z.to_nat j = Some 5) /\
    forall j', 0 <= j' < ROW_SIZE ->
      lvdsTranslationTable !! Z.to_nat j' = Some 5 -> j' = j.
Proof.
  destruct lvds_table_bijection as (_ & _ & _ & _ & _ & H).
  apply (H 5). unfold ROW_SIZE. lia.
Defined.

(** ** The inverse lookup *)

Lemma findLvdsCellOffset_Ok (r : Z) :
  0 <= r < ROW_SIZE -> findLvdsCellOffset r = Ok (tableIndex r).
Proof.
  intros Hr. unfold findLvdsCellOffset.
  assert (H : forallb (fun r =>
            match searchFrom lvdsTranslationTable 0 r with
            | Some i => i =? tableIndex r
            | None => false
            end) (seqZ 0 ROW_SIZE) = true) by (vm_compute; reflexivity).
  apply (forallb_seqZ _ _ _ H r) in Hr. clear H. cbv beta in Hr.
  destruct (searchFrom lvdsTranslationTable 0 r); [|discriminate].
  apply Z.eqb_eq in Hr. subst. reflexivity.
Qed.

(** ** Reordering a frame *)

Lemma translateRow_Ok (tbl frame : list Z) (row : Z) :
  0 <= row -> ROW_SIZE * (row + 1) <= Z.of_nat (length frame) ->
  Forall (fun x => 0 <= x < ROW_SIZE) tbl ->
  exists lvdsRow, translateRow tbl frame row = Ok lvdsRow /\
    length lvdsRow = length tbl /\
    forall (i : nat) (x : Z), tbl !! i = Some x ->
      lvdsRow !! i = frame !! Z.to_nat (ROW_SIZE * row + x).
Proof.
  intros Hrow Hlen. induction tbl as [|a tbl IH]; intros Hall.
  - exists []. repeat split. intros i x H. rewrite lookup_nil in H. discriminate.
  - inversion Hall as [|? ? Ha Hall']; subst.
    destruct (load_in_range frame (ROW_SIZE * row + a)) as [v Hv]; [rlia|].
    destruct (IH Hall') as (l & Hl & Hlenl & Hlook).
    exists (v :: l). simpl. rewrite Hv. cbn. rewrite Hl. cbn.
    split; [reflexivity|]. split; [simpl; congruence|].
    intros [|i] x Hx; simpl in *.
    + injection Hx as <-. apply load_Ok in Hv as [_ Hv]. symmetry. exact Hv.
    + apply Hlook. exact Hx.
Qed.

Lemma length_copyRow (frame lvdsRow : list Z) (row : Z) :
  0 <= row -> ROW_SIZE * row + Z.of_nat (length lvdsRow) <= Z.of_nat (length frame) ->
  length (copyRow frame lvdsRow row) = length frame.
Proof.
  intros Hrow Hlen. unfold copyRow.
  rewrite !length_app, length_take, length_drop. rlia.
Qed.

Lemma copyRow_lookup (frame lvdsRow : list Z) (row k : Z) :
  0 <= row -> ROW_SIZE * row + Z.of_nat (length lvdsRow) <= Z.of_nat (length frame) ->
  0 <= k ->
  copyRow frame lvdsRow row !! Z.to_nat k =
    if decide (ROW_SIZE * row <= k < ROW_SIZE * row + Z.of_nat (length lvdsRow))
    then lvdsRow !! Z.to_nat (k - ROW_SIZE * row)
    else frame !! Z.to_nat k.
Proof.
  intros Hrow Hlen Hk. unfold copyRow.
  assert (Htake : length (take (Z.to_nat (ROW_SIZE * row)) frame) = Z.to_nat (ROW_SIZE * row))
    by (rewrite length_take; rlia).
  destruct (decide (ROW_SIZE * row <= k < ROW_SIZE * row + Z.of_nat (length lvdsRow)))
    as [Hin|Hout].
  - rewrite lookup_app_r by (rewrite Htake; rlia).
    rewrite Htake, lookup_app_l by rlia.
    f_equal. rlia.
  - destruct (Z.lt_ge_cases k (ROW_SIZE * row)) as [Hlt|Hge].
    + rewrite lookup_app_l by (rewrite Htake; rlia).
      apply lookup_take_lt. rlia.
    + rewrite lookup_app_r by (rewrite Htake; rlia).
      rewrite Htake, lookup_app_r by rlia.
      rewrite lookup_drop. f_equal. rlia.
Qed.

Lemma lvdsSource_row (row k : Z) :
  0 <= row -> ROW_SIZE * row <= k < ROW_SIZE * (row + 1) ->
  k / ROW_SIZE = row /\ k mod ROW_SIZE = k - ROW_SIZE * row /\
  ROW_SIZE * row <= lvdsSource k < ROW_SIZE * (row + 1).
Proof.
  intros Hrow Hk. unfold ROW_SIZE in *.
  assert (Hq : k / 2048 = row)
    by (symmetry; apply (Z.div_unique k 2048 row (k - 2048 * row)); rlia).
  assert (Hm : k mod 2048 = k - 2048 * row)
    by (pose proof (Z.div_mod k 2048); rlia).
  split; [exact Hq|]. split; [exact Hm|].
  unfold lvdsSource, ROW_SIZE. rewrite Hq, Hm.
  pose proof (tableEntry_range (k - 2048 * row)). rlia.
Qed.

Lemma reorderRows_Ok (n : nat) : forall (row : Z) (frame : list Z),
  0 <= row -> ROW_SIZE * (row + Z.of_nat n) <= Z.of_nat (length frame) ->
  exists out, reorderRows n row frame = Ok out /\
    length out = length frame /\
    forall k, 0 <= k ->
      out !! Z.to_nat k =
        if decide (ROW_SIZE * row <= k < ROW_SIZE * (row + Z.of_nat n))
        then frame !! Z.to_nat (lvdsSource k)
        else frame !! Z.to_nat k.
Proof.
  induction n as [|n IH]; intros row frame Hrow Hlen.
  - exists frame. split; [reflexivity|]. split; [reflexivity|].
    intros k Hk. destruct (decide _) as [H|H]; [rlia|reflexivity].
  - pose proof length_lvdsTranslationTable as Htl.
    destruct (translateRow_Ok lvdsTranslationTable frame row Hrow)
      as (lvdsRow & Htr & Hlr & Hlook);
      [rlia | exact lvdsTranslationTable_range |].
    assert (Hlr' : Z.of_nat (length lvdsRow) = ROW_SIZE) by (rewrite Hlr; exact Htl).
    assert (Hfit : ROW_SIZE * row + Z.of_nat (length lvdsRow) <= Z.of_nat (length frame))
      by (rlia).
    destruct (IH (row + 1) (copyRow frame lvdsRow row)) as (out & Hout & Hlo & Hcells).
    { rlia. }
    { rewrite length_copyRow by assumption. rlia. }
    exists out. simpl. rewrite Htr. cbn. split; [exact Hout|].
    split; [rewrite Hlo; apply length_copyRow; assumption|].
    intros k Hk. rewrite (Hcells k Hk).
    destruct (decide (ROW_SIZE * (row + 1) <= k < ROW_SIZE * (row + 1 + Z.of_nat n)))
      as [Hlater|Hnot].
    + (* a later row: its source cells were not touched by this copy *)
      rewrite decide_True by (rlia).
      assert (Hq : 0 <= k / ROW_SIZE)
        by (apply Z.div_pos; rlia).
      assert (Hrk : row + 1 <= k / ROW_SIZE)
        by (apply Z.div_le_lower_bound; rlia).
      destruct (lvdsSource_row (k / ROW_SIZE) k) as (_ & _ & Hsrc); [rlia | |].
      { pose proof (Z.div_mod k ROW_SIZE). pose proof (Z.mod_pos_bound k ROW_SIZE).
        rlia. }
      rewrite copyRow_lookup by (try assumption; rlia).
      apply decide_False. rlia.
    + rewrite copyRow_lookup by assumption.
      destruct (decide (ROW_SIZE * row <= k < ROW_SIZE * row + Z.of_nat (length lvdsRow)))
        as [Hthis|Hother].
      * (* the row just copied *)
        rewrite decide_True by (rlia).
        destruct (lvdsSource_row row k Hrow) as (Hq & Hm & _);
          [rlia|].
        unfold lvdsSource. rewrite Hq, Hm.
        apply Hlook.
        rewrite <- (Z2Nat.id (k - ROW_SIZE * row)) at 2 by rlia.
        rewrite lvdsTranslationTable_entry by (rlia).
        rewrite Z2Nat.id by rlia. reflexivity.
      * rewrite decide_False by (rlia). reflexivity.
Qed.

Lemma i32_id (x : Z) : is_i32 x -> i32 x = x.
Proof. unfold is_i32, i32. intros H. rewrite Z.mod_small; lia. Qed.

Lemma u32_id (x : Z) : is_u32 x -> u32 x = x.
Proof. unfold is_u32, u32. intros H. apply Z.mod_small. lia. Qed.

Lemma u32_range (x : Z) : is_u32 (u32 x).
Proof. unfold is_u32, u32. apply Z.mod_pos_bound. lia. Qed.

Lemma reorderForLvds_Ok (config : config_t) (rawFrame : list Z) :
  is_u32 (cells_per_frame config) ->
  Z.of_nat (length rawFrame) = cells_per_frame config ->
  exists lvdsFrame, reorderForLvds config rawFrame = Ok lvdsFrame /\
    length lvdsFrame = length rawFrame /\
    forall k, 0 <= k ->
      lvdsFrame !! Z.to_nat k =
        if decide (k < ROW_SIZE * (cells_per_frame config / ROW_SIZE))
        then rawFrame !! Z.to_nat (lvdsSource k)
        else rawFrame !! Z.to_nat k.
Proof.
  intros Hcpf Hlen. unfold reorderForLvds.
  set (q := cells_per_frame config / ROW_SIZE).
  assert (Hq : 0 <= q < 2^21).
  { unfold q, is_u32, ROW_SIZE in *. split.
    - apply Z.div_pos; lia.
    - apply Z.div_lt_upper_bound; lia. }
  assert (Hmul : ROW_SIZE * q <= cells_per_frame config)
    by (unfold q, ROW_SIZE; apply Z.mul_div_le; lia).
  rewrite i32_id by (unfold is_i32; lia).
  destruct (reorderRows_Ok (Z.to_nat q) 0 rawFrame) as (out & Hout & Hlo & Hcells);
    [lia | rlia |].
  exists out. split; [exact Hout|]. split; [exact Hlo|].
  intros k Hk. rewrite (Hcells k Hk).
  destruct (decide (k < ROW_SIZE * q)) as [Hin|Hnot].
  - apply decide_True. rlia.
  - apply decide_False. rlia.
Qed.

(** C5: on a frame of [cells_per_frame] bytes, a multiple of 2048 below
    2^31 + 2048, reorderForLvds returns a frame of the same length, and in
    every row [r] the cell at position [i] of the result is the cell at
    position [table[i]] of the same row of the input; the result of row [r]
    is the same for any other input frame that has the same row [r]. *)
Theorem reorderForLvds_rows (config : config_t) (rawFrame : list Z) :
  wf_config config ->
  cells_per_frame config < 2^31 + 2048 ->
  Z.of_nat (length rawFrame) = cells_per_frame config ->
  cells_per_frame config mod ROW_SIZE = 0 ->
  exists lvdsFrame, reorderForLvds config rawFrame = Ok lvdsFrame /\
    length lvdsFrame = length rawFrame /\
    (forall r i, 0 <= r < cells_per_frame config / ROW_SIZE -> 0 <= i < ROW_SIZE ->
       exists x v, lvdsTranslationTable !! Z.to_nat i = Some x /\
         rawFrame !! Z.to_nat (r * ROW_SIZE + x) = Some v /\
         lvdsFrame !! Z.to_nat (r * ROW_SIZE + i) = Some v) /\
    (forall other r,
       length other = length rawFrame ->
       0 <= r < cells_per_frame config / ROW_SIZE ->
       (forall i, 0 <= i < ROW_SIZE ->
          other !! Z.to_nat (r * ROW_SIZE + i) = rawFrame !! Z.to_nat (r * ROW_SIZE + i)) ->
       exists otherLvds, reorderForLvds config other = Ok otherLvds /\
         forall i, 0 <= i < ROW_SIZE ->
           otherLvds !! Z.to_nat (r * ROW_SIZE + i) =
             lvdsFrame !! Z.to_nat (r * ROW_SIZE + i)).
Proof.
  intros [Hcpf _ _ _ _] _ Hlen Hmod.
  assert (Hfull : ROW_SIZE * (cells_per_frame config / ROW_SIZE) = cells_per_frame config).
  { pose proof (Z.div_mod (cells_per_frame config) ROW_SIZE). rlia. }
  assert (Hcell : forall frame lvds : list Z,
    Z.of_nat (length frame) = cells_per_frame config ->
    (forall k, 0 <= k -> lvds !! Z.to_nat k =
       if decide (k < ROW_SIZE * (cells_per_frame config / ROW_SIZE))
       then frame !! Z.to_nat (lvdsSource k) else frame !! Z.to_nat k) ->
    forall r i, 0 <= r < cells_per_frame config / ROW_SIZE -> 0 <= i < ROW_SIZE ->
      exists v, frame !! Z.to_nat (r * ROW_SIZE + tableEntry i) = Some v /\
        lvds !! Z.to_nat (r * ROW_SIZE + i) =
          frame !! Z.to_nat (r * ROW_SIZE + tableEntry i)).
  { intros frame lvds Hlf Hcells r i Hr Hi.
    pose proof (tableEntry_range i Hi) as Hx.
    destruct (lvdsSource_row r (r * ROW_SIZE + i)) as (Hq & Hm & _); [lia | rlia |].
    destruct (lookup_lt_is_Some_2 frame (Z.to_nat (r * ROW_SIZE + tableEntry i)))
      as [v Hv]; [rlia|].
    exists v. split; [exact Hv|].
    rewrite Hcells by rlia. rewrite decide_True by rlia.
    unfold lvdsSource. rewrite Hq, Hm.
    replace (r * ROW_SIZE + i - ROW_SIZE * r) with i by rlia.
    f_equal. rlia. }
  destruct (reorderForLvds_Ok config rawFrame Hcpf Hlen) as (lvdsFrame & Hre & Hll & Hcells).
  exists lvdsFrame. split; [exact Hre|]. split; [exact Hll|]. split.
  - intros r i Hr Hi.
    destruct (Hcell rawFrame lvdsFrame Hlen Hcells r i Hr Hi) as (v & Hv1 & Hv2).
    exists (tableEntry i), v.
    split; [apply lvdsTranslationTable_entry; exact Hi|].
    split; [exact Hv1|]. rewrite Hv2. exact Hv1.
  - intros other r Hlo Hr Hsame.
    assert (Hlen' : Z.of_nat (length other) = cells_per_frame config) by lia.
    destruct (reorderForLvds_Ok config other Hcpf Hlen') as (otherLvds & Hre' & Hll' & Hcells').
    exists otherLvds. split; [exact Hre'|].
    intros i Hi.
    destruct (Hcell rawFrame lvdsFrame Hlen Hcells r i Hr Hi) as (v & _ & Hv2).
    destruct (Hcell other otherLvds Hlen' Hcells' r i Hr Hi) as (w & _ & Hw2).
    rewrite Hv2, Hw2. apply Hsame. apply tableEntry_range. exact Hi.
Qed.

Lemma wf_sampleConfig : wf_config sampleConfig.
Proof.
  split; simpl; unfold is_u32, is_u8; try lia.
  repeat constructor; lia.
Qed.

Lemma wf_twoRowConfig : wf_config twoRowConfig.
Proof.
  split; simpl; unfold is_u32, is_u8; try lia.
  repeat constructor; lia.
Qed.

Lemma length_rowFrom (a : Z) : length (rowFrom a) = 2048%nat.
Proof. unfold rowFrom. rewrite length_fmap, length_seqZ. reflexivity. Qed.

Lemma reorderForLvds_rows_witness :
  exists lvdsFrame otherLvds,
    reorderForLvds twoRowConfig twoRowFrame = Ok lvdsFrame /\
    lvdsFrame !! Z.to_nat 0 = Some 2 /\
    lvdsFrame !! Z.to_nat 2048 = Some 9 /\
    reorderForLvds twoRowConfig otherFrame = Ok otherLvds /\
    otherLvds !! Z.to_nat 2048 = Some 9.
Proof.
  destruct (reorderForLvds_rows twoRowConfig twoRowFrame)
    as (lvdsFrame & Hre & _ & Hcells & Hrows).
  - exact wf_twoRowConfig.
  - simpl. lia.
  - unfold twoRowFrame. rewrite length_app, !length_rowFrom. reflexivity.
  - reflexivity.
  - assert (Hfirst : lvdsFrame !! Z.to_nat 0 = Some 2).
    { destruct (Hcells 0 0) as (x & v & Hx & Hraw & Hlvds);
        [vm_compute; split; [discriminate|reflexivity] | rlia |].
      vm_compute in Hx. injection Hx as <-.
      vm_compute in Hraw. injection Hraw as <-. exact Hlvds. }
    assert (Hsecond : lvdsFrame !! Z.to_nat 2048 = Some 9).
    { destruct (Hcells 1 0) as (x & v & Hx & Hraw & Hlvds);
        [vm_compute; split; [discriminate|reflexivity] | rlia |].
      vm_compute in Hx. injection Hx as <-.
      vm_compute in Hraw. injection Hraw as <-. exact Hlvds. }
    destruct (Hrows otherFrame 1) as (otherLvds & Hother & Hsame).
    + unfold otherFrame, twoRowFrame. rewrite !length_app, !length_rowFrom. reflexivity.
    + vm_compute. split; [discriminate|reflexivity].
    + intros i Hi. unfold otherFrame, twoRowFrame.
      rewrite !lookup_app_r by (rewrite length_rowFrom; rlia).
      rewrite !length_rowFrom. reflexivity.
    + exists lvdsFrame, otherLvds.
      split; [exact Hre|]. split; [exact Hfirst|]. split; [exact Hsecond|].
      split; [exact Hother|].
      rewrite <- Hsecond. apply (Hsame 0). rlia.
Defined.

(** Where a raw cell is found after the reordering. *)
Lemma reordered_cell (config : config_t) (rawFrame : list Z) (row r : Z) :
  is_u32 (cells_per_frame config) ->
  Z.of_nat (length rawFrame) = cells_per_frame config ->
  0 <= row < cells_per_frame config / ROW_SIZE ->
  0 <= r < ROW_SIZE ->
  exists lvdsFrame v, reorderForLvds config rawFrame = Ok lvdsFrame /\
    load rawFrame (row * ROW_SIZE + r) = Ok v /\
    load lvdsFrame (row * ROW_SIZE + tableIndex r) = Ok v.
Proof.
  intros Hcpf Hlen Hrow Hr.
  pose proof (tableIndex_range r Hr) as Hj.
  destruct (reorderForLvds_Ok config rawFrame Hcpf Hlen) as (lvdsFrame & Hre & Hll & Hcells).
  assert (Hmul : ROW_SIZE * (cells_per_frame config / ROW_SIZE) <= cells_per_frame config)
    by (unfold ROW_SIZE; apply Z.mul_div_le; lia).
  destruct (load_in_range rawFrame (row * ROW_SIZE + r)) as [v Hv]; [rlia|].
  exists lvdsFrame, v. split; [exact Hre|]. split; [exact Hv|].
  apply load_Ok. split; [rlia|].
  rewrite Hcells by rlia. rewrite decide_True by rlia.
  destruct (lvdsSource_row row (row * ROW_SIZE + tableIndex r)) as (Hq & Hm & _);
    [lia | rlia |].
  unfold lvdsSource. rewrite Hq, Hm.
  replace (row * ROW_SIZE + tableIndex r - ROW_SIZE * row) with (tableIndex r) by rlia.
  rewrite tableEntry_tableIndex by exact Hr.
  apply load_Ok in Hv as [_ Hv]. rewrite <- Hv. f_equal. rlia.
Qed.

(** The cell that trace() reads in a reordered frame holds what the raw frame
    held at the cell number given on the command line. *)
Lemma traceCellNumber_roundtrip (config : config_t) (cmdLine : cmdline_t)
    (rawFrame : list Z) :
  is_u32 (cells_per_frame config) ->
  Z.of_nat (length rawFrame) = cells_per_frame config ->
  nolvds cmdLine = false ->
  0 <= cellNumber cmdLine < ROW_SIZE * (cells_per_frame config / ROW_SIZE) ->
  exists lvdsFrame lvdsCell v,
    reorderForLvds config rawFrame = Ok lvdsFrame /\
    traceCellNumber cmdLine = Ok lvdsCell /\
    load rawFrame (cellNumber cmdLine) = Ok v /\
    load lvdsFrame lvdsCell = Ok v.
Proof.
  intros Hcpf Hlen Hlvds Hcell. unfold traceCellNumber. rewrite Hlvds.
  set (X := cellNumber cmdLine) in *.
  assert (Hrow : 0 <= X / ROW_SIZE < cells_per_frame config / ROW_SIZE).
  { split; [apply Z.div_pos; rlia|]. apply Z.div_lt_upper_bound; rlia. }
  assert (Hoff : 0 <= X mod ROW_SIZE < ROW_SIZE) by (apply Z.mod_pos_bound; rlia).
  assert (Hq : cells_per_frame config / ROW_SIZE < 2^21).
  { unfold is_u32, ROW_SIZE in *. apply Z.div_lt_upper_bound; lia. }
  pose proof (tableIndex_range _ Hoff) as Hj.
  rewrite !i32_id by (unfold is_i32; rlia).
  rewrite (findLvdsCellOffset_Ok _ Hoff). cbn.
  rewrite u32_id by (unfold is_u32; rlia).
  destruct (reordered_cell config rawFrame (X / ROW_SIZE) (X mod ROW_SIZE))
    as (lvdsFrame & v & Hre & Hraw & Hlv); try assumption.
  exists lvdsFrame, (X / ROW_SIZE * ROW_SIZE + tableIndex (X mod ROW_SIZE)), v.
  split; [exact Hre|]. split; [reflexivity|]. split; [|exact Hlv].
  rewrite <- Hraw. f_equal. pose proof (Z.div_mod X ROW_SIZE). rlia.
Qed.

(** C4: for every raw offset [r] of a row, findLvdsCellOffset returns (it
    does not throw) an offset [j] of the row with [table[j] = r]; and in a
    frame (of fewer than 2^31 + 2048 cells) that reorderForLvds has
    transformed, position [j] of any row holds what the raw frame held at
    position [r] of that row. *)
Theorem findLvdsCellOffset_roundtrip (r : Z) :
  0 <= r < ROW_SIZE ->
  exists j, findLvdsCellOffset r = Ok j /\
    0 <= j < ROW_SIZE /\
    lvdsTranslationTable !! Z.to_nat j = Some r /\
    forall (config : config_t) (rawFrame : list Z) (row : Z),
      wf_config config ->
      cells_per_frame config < 2^31 + 2048 ->
      Z.of_nat (length rawFrame) = cells_per_frame config ->
      0 <= row < cells_per_frame config / ROW_SIZE ->
      exists lvdsFrame v, reorderForLvds config rawFrame = Ok lvdsFrame /\
        rawFrame !! Z.to_nat (row * ROW_SIZE + r) = Some v /\
        lvdsFrame !! Z.to_nat (row * ROW_SIZE + j) = Some v.
Proof.
  intros Hr. exists (tableIndex r).
  pose proof (tableIndex_range r Hr) as Hj.
  split; [apply findLvdsCellOffset_Ok; exact Hr|].
  split; [exact Hj|]. split.
  - rewrite lvdsTranslationTable_entry by exact Hj.
    f_equal. apply tableEntry_tableIndex. exact Hr.
  - intros config rawFrame row [Hcpf _ _ _ _] _ Hlen Hrow.
    destruct (reordered_cell config rawFrame row r Hcpf Hlen Hrow Hr)
      as (lvdsFrame & v & Hre & Hraw & Hlvds).
    exists lvdsFrame, v. split; [exact Hre|].
    apply load_Ok in Hraw as [_ Hraw]. apply load_Ok in Hlvds as [_ Hlvds].
    split; assumption.
Qed.

Lemma findLvdsCellOffset_roundtrip_witness :
  findLvdsCellOffset 5 = Ok 1343 /\
  lvdsTranslationTable !! Z.to_nat 1343 = Some 5 /\
  exists lvdsFrame, reorderForLvds twoRowConfig twoRowFrame = Ok lvdsFrame /\
    twoRowFrame !! Z.to_nat (2048 + 5) = Some 12 /\
    lvdsFrame !! Z.to_nat (2048 + 1343) = Some 12.
Proof.
  destruct (findLvdsCellOffset_roundtrip 5) as (j & Hj & _ & Htable & Hframe);
    [rlia|].
  assert (Heq : j = 1343) by (vm_compute in Hj; injection Hj as <-; reflexivity).
  subst j. split; [exact Hj|]. split; [exact Htable|].
  destruct (Hframe twoRowConfig twoRowFrame 1) as (lvdsFrame & v & Hre & Hraw & Hlvds).
  - exact wf_twoRowConfig.
  - simpl. lia.
  - unfold twoRowFrame. rewrite length_app, !length_rowFrom. reflexivity.
  - vm_compute. split; [discriminate|reflexivity].
  - exists lvdsFrame. split; [exact Hre|].
    assert (Hv : v = 12) by (vm_compute in Hraw; injection Hraw as <-; reflexivity).
    subst v. split; [exact Hraw|exact Hlvds].
Defined.

(** ** Building a data frame *)

Lemma multiple_ge (d s : Z) : 0 < s -> 0 < d -> d mod s = 0 -> s <= d.
Proof.
  intros Hs Hd Hm.
  assert (Hdm : d = s * (d / s) + d mod s) by (apply Z.div_mod; lia).
  rewrite Hm, Z.add_0_r in Hdm. revert Hdm. generalize (d / s). intros q Hq.
  destruct (Z.le_gt_cases q 0); nia.
Qed.

Lemma sub_step_mod (d s : Z) : 0 < s -> (d - s) mod s = d mod s.
Proof.
  intros Hs. replace (d - s) with (d + (-1) * s) by lia. apply Z.mod_add. lia.
Qed.

(** The loop of one record, when [dr.last] is not negative: it returns, and
    it has written the value of the record for this frame into the cells
    [cellNumber], [cellNumber + step], ... that are below [dr.last]. *)
Lemma populate_Ok (dr : distribution_t) (frameNumber v : Z) :
  load (cellValue dr) frameNumber = Ok v ->
  0 <= last dr < 2^31 -> 1 <= step dr < 2^31 ->
  forall (fuel : nat) (cellNumber : Z) (frame : list Z),
    0 <= cellNumber ->
    (cellNumber < last dr -> last dr - cellNumber <= Z.of_nat fuel) ->
    last dr <= Z.of_nat (length frame) ->
    exists frame', populate fuel dr frameNumber cellNumber frame = Ok frame' /\
      length frame' = length frame /\
      forall k, 0 <= k ->
        frame' !! Z.to_nat k =
          if decide (cellNumber <= k < last dr /\ (k - cellNumber) mod step dr = 0)
          then Some v else frame !! Z.to_nat k.
Proof.
  intros Hv Hlast Hstep.
  assert (Hul : u32 (last dr) = last dr) by (apply u32_id; unfold is_u32; lia).
  assert (Hus : u32 (step dr) = step dr) by (apply u32_id; unfold is_u32; lia).
  induction fuel as [|fuel IH]; intros c frame Hc Hfuel Hlen.
  - exists frame. simpl. rewrite Hul.
    destruct (c <? last dr) eqn:Hcmp.
    + apply Z.ltb_lt in Hcmp. specialize (Hfuel Hcmp). simpl in Hfuel. lia.
    + apply Z.ltb_ge in Hcmp. split; [reflexivity|]. split; [reflexivity|].
      intros k Hk. rewrite decide_False by (intros [? ?]; lia). reflexivity.
  - simpl. rewrite Hul, Hus.
    destruct (c <? last dr) eqn:Hcmp.
    + apply Z.ltb_lt in Hcmp. specialize (Hfuel Hcmp).
      rewrite Hv. cbn. rewrite store_Ok by lia. cbn.
      rewrite u32_id by (unfold is_u32; lia).
      destruct (IH (c + step dr) (<[Z.to_nat c := v]> frame)) as (frame' & Hp & Hl & Hcells).
      { lia. } { lia. } { rewrite length_insert. lia. }
      exists frame'. split; [exact Hp|].
      split; [rewrite Hl; apply length_insert|].
      intros k Hk. rewrite (Hcells k Hk).
      destruct (decide (k = c)) as [->|Hne].
      * rewrite decide_False by (intros [? ?]; lia).
        rewrite decide_True by (rewrite Z.sub_diag, Z.mod_0_l; lia).
        apply list_lookup_insert_eq. lia.
      * rewrite list_lookup_insert_ne by lia.
        replace (k - (c + step dr)) with (k - c - step dr) by lia.
        rewrite sub_step_mod by lia.
        destruct (decide (c + step dr <= k < last dr /\ (k - c) mod step dr = 0))
          as [[H1 H2]|Hn].
        -- rewrite decide_True by (split; [lia|exact H2]). reflexivity.
        -- rewrite decide_False; [reflexivity|].
           intros [H1 H2]. apply Hn. split; [|exact H2].
           pose proof (multiple_ge (k - c) (step dr)). lia.
    + apply Z.ltb_ge in Hcmp. exists frame.
      split; [reflexivity|]. split; [reflexivity|].
      intros k Hk. rewrite decide_False by (intros [? ?]; lia). reflexivity.
Qed.

Lemma find_app_last {A : Type} (f : A -> bool) (l : list A) (x : A) :
  find f (l ++ [x]) =
    match find f l with
    | Some y => Some y
    | None => if f x then Some x else None
    end.
Proof.
  induction l as [|a l IH]; simpl.
  - reflexivity.
  - destruct (f a); [reflexivity|exact IH].
Qed.

Lemma inProgression_spec (dr : distribution_t) (k : Z) :
  inProgression dr k = true <->
  first dr - 1 <= k < last dr /\ (k - (first dr - 1)) mod step dr = 0.
Proof.
  unfold inProgression. rewrite !andb_true_iff, Z.leb_le, Z.ltb_lt, Z.eqb_eq. tauto.
Qed.

(** More fuel does not change a run that ends. *)
Lemma populate_more_fuel (dr : distribution_t) (frameNumber : Z) (fuel : nat) :
  forall (fuel' : nat) (cellNumber : Z) (frame : list Z),
    (fuel <= fuel')%nat ->
    populate fuel dr frameNumber cellNumber frame <> Fail Diverges ->
    populate fuel' dr frameNumber cellNumber frame =
      populate fuel dr frameNumber cellNumber frame.
Proof.
  induction fuel as [|fuel IH]; intros fuel' c frame Hle Hend.
  - simpl in *. destruct (c <? u32 (last dr)) eqn:Hcmp; [contradiction|].
    destruct fuel'; simpl; rewrite Hcmp; reflexivity.
  - destruct fuel' as [|fuel']; [lia|]. simpl in *.
    destruct (c <? u32 (last dr)); [|reflexivity].
    destruct (load (cellValue dr) frameNumber) as [v|]; cbn in *; [|reflexivity].
    destruct (store frame c v) as [frame'|]; cbn in *; [|reflexivity].
    apply IH; [lia|exact Hend].
Qed.

Lemma distributionLoop_cons (dr : distribution_t) (dl : list distribution_t)
    (frameNumber : Z) (frame : list Z) :
  distributionLoop (dr :: dl) frameNumber frame =
    (frame' ← (if frameNumber <? Z.of_nat (length (cellValue dr))
               then populate (S (length frame)) dr frameNumber (u32 (first dr - 1)) frame
               else Ok frame);
     distributionLoop dl frameNumber frame').
Proof. reflexivity. Qed.

(** The loop over the records, from any frame of [cells_per_frame] bytes. *)
Lemma distributionLoop_cells (config : config_t) (frameNumber : Z) :
  is_u32 (cells_per_frame config) -> 0 <= frameNumber ->
  forall (distributionList : list distribution_t) (frame : list Z),
    Forall (fun dr => wf_distribution dr /\ inRange config dr /\ nonNegativeLast dr)
      distributionList ->
    Z.of_nat (length frame) = cells_per_frame config ->
    exists frame', distributionLoop distributionList frameNumber frame = Ok frame' /\
      length frame' = length frame /\
      forall k, 0 <= k ->
        frame' !! Z.to_nat k =
          match find (writesCell frameNumber k) (rev distributionList) with
          | Some dr => cellValue dr !! Z.to_nat frameNumber
          | None => frame !! Z.to_nat k
          end.
Proof.
  intros Hcpf Hn. induction distributionList as [|dr dl IH]; intros frame Hall Hlen.
  - exists frame. repeat split; reflexivity.
  - inversion Hall as [|? ? (Hwf & Hin & Hnn) Hall']; subst.
    destruct Hwf as [Hf Hl Hs]. destruct Hin as [Hfr Hlr Hsr].
    unfold is_i32, nonNegativeLast in *.
    assert (Hone : exists frame1,
      (if frameNumber <? Z.of_nat (length (cellValue dr))
       then populate (S (length frame)) dr frameNumber (u32 (first dr - 1)) frame
       else Ok frame) = Ok frame1 /\
      length frame1 = length frame /\
      forall k, 0 <= k ->
        frame1 !! Z.to_nat k =
          if writesCell frameNumber k dr then cellValue dr !! Z.to_nat frameNumber
          else frame !! Z.to_nat k).
    { unfold writesCell.
      destruct (frameNumber <? Z.of_nat (length (cellValue dr))) eqn:Hact.
      - apply Z.ltb_lt in Hact.
        destruct (load_in_range (cellValue dr) frameNumber) as [v Hv]; [lia|].
        rewrite u32_id by (unfold is_u32; lia).
        destruct (populate_Ok dr frameNumber v Hv) with
          (fuel := S (length frame)) (cellNumber := first dr - 1) (frame := frame)
          as (frame1 & Hp & Hl1 & Hcells); try lia.
        exists frame1. split; [exact Hp|]. split; [exact Hl1|].
        intros k Hk. rewrite (Hcells k Hk). simpl.
        apply load_Ok in Hv as [_ Hv]. rewrite Hv.
        destruct (inProgression dr k) eqn:Hprog.
        + apply decide_True. apply inProgression_spec. exact Hprog.
        + apply decide_False. intros H. apply inProgression_spec in H. congruence.
      - exists frame. split; [reflexivity|]. split; [reflexivity|]. reflexivity. }
    destruct Hone as (frame1 & Hone & Hl1 & Hcells1).
    destruct (IH frame1 Hall') as (frame' & Hloop & Hl' & Hcells'); [lia|].
    exists frame'. rewrite distributionLoop_cons, Hone. cbn.
    split; [exact Hloop|]. split; [lia|].
    intros k Hk. rewrite (Hcells' k Hk). simpl rev. rewrite find_app_last.
    destruct (find (writesCell frameNumber k) (rev dl)); [reflexivity|].
    rewrite (Hcells1 k Hk). destruct (writesCell frameNumber k dr); reflexivity.
Qed.

(** What buildDataFrame does for records with a non-negative [last]: it
    returns a frame of [cells_per_frame] bytes (no write falls outside the
    frame) whose cells are those that the distribution list describes. *)
Lemma buildDataFrame_cells (config : config_t) (distributionList : list distribution_t)
    (frameNumber : Z) :
  wf_config config -> is_u32 frameNumber ->
  Forall (fun dr => wf_distribution dr /\ inRange config dr /\ nonNegativeLast dr)
    distributionList ->
  exists frame, buildDataFrame config distributionList frameNumber = Ok frame /\
    Z.of_nat (length frame) = cells_per_frame config /\
    forall k, 0 <= k < cells_per_frame config ->
      frame !! Z.to_nat k = describedCell config distributionList frameNumber k.
Proof.
  intros [Hcpf _ _ _ _] Hn Hall. unfold buildDataFrame.
  assert (Hlen : Z.of_nat (length (memset (quiescent config) (cells_per_frame config)))
                 = cells_per_frame config)
    by (apply length_memset; unfold is_u32 in Hcpf; lia).
  destruct (distributionLoop_cells config frameNumber Hcpf) with
    (distributionList := distributionList)
    (frame := memset (quiescent config) (cells_per_frame config))
    as (frame & Hloop & Hl & Hcells); [unfold is_u32 in Hn; lia | exact Hall | exact Hlen |].
  exists frame. split; [exact Hloop|]. split; [lia|].
  intros k Hk. rewrite Hcells by lia.
  unfold describedCell, decidingRecord.
  destruct (find _ _); [reflexivity|].
  unfold memset. apply lookup_replicate_2. lia.
Qed.

(** What the described cell is, in the words of the distribution rules. *)

Lemma find_app {A : Type} (f : A -> bool) (l1 l2 : list A) :
  find f (l1 ++ l2) =
    match find f l1 with
    | Some y => Some y
    | None => find f l2
    end.
Proof.
  induction l1 as [|a l1 IH]; simpl; [reflexivity|].
  destruct (f a); [reflexivity|exact IH].
Qed.

Lemma find_rev_none {A : Type} (f : A -> bool) (l : list A) :
  Forall (fun x => f x = false) l -> find f (rev l) = None.
Proof.
  intros Hall. destruct (find f (rev l)) as [x|] eqn:Hfind; [|reflexivity].
  apply find_some in Hfind as [Hin Hx]. apply in_rev in Hin.
  rewrite Forall_forall in Hall.
  rewrite (Hall x Hin) in Hx. discriminate.
Qed.

(** A cell that no record writes holds the quiescent value. *)
Lemma describedCell_quiescent (config : config_t) (distributionList : list distribution_t)
    (frameNumber k : Z) :
  Forall (fun dr => writesCell frameNumber k dr = false) distributionList ->
  describedCell config distributionList frameNumber k = Some (quiescent config).
Proof.
  intros Hall. unfold describedCell, decidingRecord.
  rewrite (find_rev_none _ _ Hall). reflexivity.
Qed.

(** A record whose values end before the frame number writes no cell, and
    neither does a record whose [last] is below its [first]. *)
Lemma writesCell_ended (frameNumber k : Z) (dr : distribution_t) :
  Z.of_nat (length (cellValue dr)) <= frameNumber -> writesCell frameNumber k dr = false.
Proof.
  intros H. unfold writesCell.
  replace (frameNumber <? _) with false by (symmetry; apply Z.ltb_ge; exact H).
  reflexivity.
Qed.

Lemma inProgression_empty (dr : distribution_t) (k : Z) :
  last dr < first dr -> inProgression dr k = false.
Proof.
  intros H. unfold inProgression.
  destruct (first dr - 1 <=? k) eqn:H1; [|reflexivity].
  apply Z.leb_le in H1.
  replace (k <? last dr) with false by (symmetry; apply Z.ltb_ge; lia).
  reflexivity.
Qed.

(** Where records overlap, the last one in list order decides. *)
Lemma describedCell_last_wins (config : config_t) (before after : list distribution_t)
    (dr : distribution_t) (frameNumber k : Z) :
  writesCell frameNumber k dr = true ->
  Forall (fun dr' => writesCell frameNumber k dr' = false) after ->
  describedCell config (before ++ dr :: after) frameNumber k =
    cellValue dr !! Z.to_nat frameNumber.
Proof.
  intros Hdr Hafter. unfold describedCell, decidingRecord.
  rewrite rev_app_distr. simpl rev. rewrite <- app_assoc, find_app.
  rewrite (find_rev_none _ _ Hafter). simpl. rewrite Hdr. reflexivity.
Qed.

(** ** The capacity arithmetic *)

Lemma maximumLength_cons (dr : distribution_t) (dl : list distribution_t) :
  maximumLength (dr :: dl) = Z.max (Z.of_nat (length (cellValue dr))) (maximumLength dl).
Proof. unfold maximumLength. rewrite fmap_cons. apply Nat2Z.inj_max. Qed.

Lemma longestLoop_cons (dr : distribution_t) (dl : list distribution_t) (longest : Z) :
  longestLoop (dr :: dl) longest =
    longestLoop dl (if Z.of_nat (length (cellValue dr)) >? longest
                    then u32 (Z.of_nat (length (cellValue dr))) else longest).
Proof. reflexivity. Qed.

Lemma longestLoop_max (distributionList : list distribution_t) :
  lengthsFit distributionList ->
  forall longestLength, 0 <= longestLength ->
    longestLoop distributionList longestLength =
      Z.max longestLength (maximumLength distributionList).
Proof.
  unfold lengthsFit.
  induction distributionList as [|dr dl IH]; intros Hfit longest Hl.
  - unfold maximumLength. simpl. lia.
  - inversion Hfit as [|? ? Hdr Hfit']; subst.
    rewrite longestLoop_cons, maximumLength_cons.
    destruct (Z.of_nat (length (cellValue dr)) >? longest) eqn:Hcmp.
    + rewrite Z.gtb_ltb in Hcmp. apply Z.ltb_lt in Hcmp.
      rewrite u32_id by (unfold is_u32; lia).
      rewrite IH by (try assumption; lia). lia.
    + rewrite Z.gtb_ltb in Hcmp. apply Z.ltb_ge in Hcmp.
      rewrite IH by assumption. lia.
Qed.

Lemma findLongestSequence_max (distributionList : list distribution_t) :
  lengthsFit distributionList ->
  findLongestSequence distributionList = maximumLength distributionList.
Proof.
  intros Hfit. unfold findLongestSequence.
  rewrite longestLoop_max by (try assumption; lia).
  unfold maximumLength. lia.
Qed.

Lemma maximumLength_bound (distributionList : list distribution_t) :
  lengthsFit distributionList -> 0 <= maximumLength distributionList < 2^32.
Proof.
  unfold lengthsFit.
  induction distributionList as [|dr dl IH]; intros Hfit.
  - unfold maximumLength. simpl. lia.
  - inversion Hfit as [|? ? Hdr Hfit']; subst. specialize (IH Hfit').
    rewrite maximumLength_cons. lia.
Qed.

Lemma divide_Ok (a b : Z) : b <> 0 -> divide a b = Ok (a / b).
Proof.
  intros Hb. unfold divide. destruct (b =? 0) eqn:H; [|reflexivity].
  apply Z.eqb_eq in H. contradiction.
Qed.

(** What the capacity computation yields when both divisors are not zero. *)
Lemma capacity_Ok (config : config_t) (distributionList : list distribution_t) :
  cells_per_frame config <> 0 -> data_frames config <> 0 ->
  capacity config distributionList =
    let diagnosticFrames := u32 (Z.of_nat (length (diagnostic_values config))) in
    let longestSequence := findLongestSequence distributionList in
    let frameGroupLength := u32 (diagnosticFrames + data_frames config) in
    let frameGroupCount := u32 (longestSequence / data_frames config + 1) in
    let totalReqdFrames := u32 (frameGroupCount * frameGroupLength) in
    Ok (mk_capacity (u32 (contig_size config / cells_per_frame config))
          longestSequence frameGroupLength frameGroupCount totalReqdFrames
          (u64 (u64 totalReqdFrames * u64 (cells_per_frame config)))).
Proof.
  intros Hc Hd. unfold capacity.
  rewrite (divide_Ok _ _ Hc). cbn. rewrite (divide_Ok _ _ Hd). reflexivity.
Qed.

(** The capacity computation in general: with divisors that are not zero and
    values sequences shorter than 2^32, it yields the longest sequence
    length (0 for an empty list), and, each reduced modulo 2^32 as
    [uint32_t] arithmetic does, the frame group length, the frame group
    count [longestSequence / data_frames + 1] and the total number of
    frames; the total number of bytes is the exact product.  Whenever the
    value of a formula is below 2^32 the variable is that value. *)
Lemma capacity_arithmetic (config : config_t) (distributionList : list distribution_t) :
  wf_config config -> lengthsFit distributionList ->
  cells_per_frame config <> 0 -> data_frames config <> 0 ->
  exists c, capacity config distributionList = Ok c /\
    let diagnosticFrames := Z.of_nat (length (diagnostic_values config)) in
    longestSequence c = maximumLength distributionList /\
    frameGroupLength c = (diagnosticFrames + data_frames config) mod 2^32 /\
    frameGroupCount c = (longestSequence c / data_frames config + 1) mod 2^32 /\
    totalReqdFrames c = (frameGroupCount c * frameGroupLength c) mod 2^32 /\
    totalContigReqd c = totalReqdFrames c * cells_per_frame config /\
    (diagnosticFrames + data_frames config < 2^32 ->
       frameGroupLength c = diagnosticFrames + data_frames config) /\
    (longestSequence c < 2^32 - 1 ->
       frameGroupCount c = longestSequence c / data_frames config + 1 /\
       1 <= frameGroupCount c) /\
    (frameGroupCount c * frameGroupLength c < 2^32 ->
       totalReqdFrames c = frameGroupCount c * frameGroupLength c) /\
    (data_frames config = 4582 -> diagnosticFrames = 3 -> longestSequence c = 4583 ->
       frameGroupCount c = 2 /\ frameGroupLength c = 4585 /\ totalReqdFrames c = 9170).
Proof.
  intros [Hcpf Hcs _ Hdf _] Hfit Hc Hd.
  rewrite (capacity_Ok _ _ Hc Hd). cbv zeta.
  eexists. split; [reflexivity|]. cbv zeta. simpl.
  unfold is_u32 in *.
  pose proof (maximumLength_bound _ Hfit) as Hmax.
  rewrite (findLongestSequence_max _ Hfit).
  set (L := maximumLength distributionList) in *.
  set (D := Z.of_nat (length (diagnostic_values config))).
  assert (HD : 0 <= D) by (unfold D; lia).
  assert (Hq : 0 <= L / data_frames config <= L).
  { split; [apply Z.div_pos; lia|].
    apply Z.div_le_upper_bound; [lia|]. nia. }
  split; [reflexivity|].
  split; [unfold u32; rewrite Zplus_mod_idemp_l; reflexivity|].
  split; [reflexivity|].
  split; [reflexivity|].
  split.
  { pose proof (u32_range (u32 (L / data_frames config + 1) *
                             u32 (u32 D + data_frames config))) as Ht.
    unfold is_u32 in Ht. unfold u64.
    rewrite (Z.mod_small (u32 _)) by lia.
    rewrite (Z.mod_small (cells_per_frame config)) by lia.
    apply Z.mod_small. nia. }
  split.
  { intros Hsmall. unfold u32. rewrite Zplus_mod_idemp_l.
    apply Z.mod_small. lia. }
  split.
  { intros Hsmall. rewrite u32_id by (unfold is_u32; lia). lia. }
  split.
  { intros Hsmall. apply u32_id. unfold is_u32.
    pose proof (u32_range (L / data_frames config + 1)) as H1.
    pose proof (u32_range (u32 D + data_frames config)) as H2.
    unfold is_u32 in *. nia. }
  intros -> -> ->. vm_compute. repeat split.
Qed.

Lemma wf_manyDataFrames : wf_config manyDataFrames.
Proof.
  split; simpl; unfold is_u32, is_u8; try lia. repeat constructor; lia.
Qed.

(** C3: the capacity computation on the example of the claim, and on a
    configuration on which it goes wrong.  With 4582 data frames, three
    diagnostic values and a longest sequence of 4583 values it yields 2
    frame groups of 4585 frames, 9170 frames and 9170 * 2048 bytes.  With
    4294967295 data frames and one diagnostic value a frame group has
    4294967296 frames, but the [uint32_t] sum holds 0, and so do the total
    number of frames and the total number of bytes, which is computed on 64
    bits from it. *)
Theorem capacity_frame_count_wraps :
  (exists c, capacity sampleConfig [longRecord] = Ok c /\
     longestSequence c = 4583 /\ frameGroupCount c = 2 /\ frameGroupLength c = 4585 /\
     totalReqdFrames c = 9170 /\ totalContigReqd c = 9170 * 2048) /\
  (wf_config manyDataFrames /\
   Z.of_nat (length (diagnostic_values manyDataFrames)) + data_frames manyDataFrames
     = 4294967296 /\
   exists c, capacity manyDataFrames [] = Ok c /\
     longestSequence c = 0 /\ frameGroupCount c = 1 /\
     frameGroupLength c = 0 /\ totalReqdFrames c = 0 /\ totalContigReqd c = 0).
Proof.
  split.
  - eexists. split; [vm_compute; reflexivity|]. repeat split.
  - split; [exact wf_manyDataFrames|]. split; [reflexivity|].
    eexists. split; [vm_compute; reflexivity|]. repeat split.
Qed.

(** ** The validation *)

Lemma verifyDistributionIsValid_multiple (config : config_t)
    (distributionList : list distribution_t) :
  cells_per_frame config mod ROW_SIZE = 0 ->
  verifyDistributionIsValid config distributionList =
    (c ← capacity config distributionList;
     if totalReqdFrames c >? maxFrames c then Fail (Exit WontFit)
     else Ok (frameGroupCount c)).
Proof.
  intros Hm. unfold verifyDistributionIsValid. rewrite Hm. reflexivity.
Qed.

(** The two tests in general: verifyDistributionIsValid ends the run when
    [cells_per_frame] is not a multiple of ROW_SIZE, whatever the other
    values are (the capacity arithmetic is not reached); otherwise, when
    [cells_per_frame] and [data_frames] are not zero, it ends the run when
    the total number of frames, as the [uint32_t] holds it, exceeds
    [maxFrames], which is [contig_size / cells_per_frame] reduced modulo
    2^32, and returns the frame group count when it does not. *)
Lemma verifyDistributionIsValid_checks (config : config_t)
    (distributionList : list distribution_t) :
  (cells_per_frame config mod ROW_SIZE <> 0 ->
     verifyDistributionIsValid config distributionList = Fail (Exit NotMultipleOfRowSize)) /\
  (cells_per_frame config mod ROW_SIZE = 0 ->
   cells_per_frame config <> 0 -> data_frames config <> 0 ->
     exists c, capacity config distributionList = Ok c /\
       maxFrames c = (contig_size config / cells_per_frame config) mod 2^32 /\
       (totalReqdFrames c > maxFrames c ->
          verifyDistributionIsValid config distributionList = Fail (Exit WontFit)) /\
       (totalReqdFrames c <= maxFrames c ->
          verifyDistributionIsValid config distributionList = Ok (frameGroupCount c))).
Proof.
  split.
  - intros Hm. unfold verifyDistributionIsValid.
    destruct (cells_per_frame config mod ROW_SIZE =? 0) eqn:H; [|reflexivity].
    apply Z.eqb_eq in H. contradiction.
  - intros Hm Hc Hd. rewrite (verifyDistributionIsValid_multiple _ _ Hm).
    rewrite (capacity_Ok _ _ Hc Hd). cbv zeta.
    eexists. split; [reflexivity|]. split; [reflexivity|]. cbn.
    split; intros Hcmp.
    + replace (_ >? _) with true by (symmetry; rewrite Z.gtb_ltb; apply Z.ltb_lt; lia).
      reflexivity.
    + replace (_ >? _) with false by (symmetry; rewrite Z.gtb_ltb; apply Z.ltb_ge; lia).
      reflexivity.
Qed.

Lemma wf_hugeContig : wf_config hugeContig.
Proof.
  split; simpl; unfold is_u32, is_u8; try lia. constructor.
Qed.

(** C7: the two tests of verifyDistributionIsValid on four configurations.
    A frame size of 2000 ends the run, and the example of the capacity
    claim is accepted with its 2 frame groups.  With a contiguous buffer of
    2^43 bytes one frame is needed and 4294967296 frames fit, but
    [maxFrames] holds 0 and the run is ended with the message of a
    distribution that does not fit.  With 4294967295 data frames and one
    diagnostic value, 4294967296 frames are needed and 20971520 fit, but the
    total number of frames holds 0 and the function returns 1 frame group. *)
Theorem verifyDistributionIsValid_truncates :
  verifyDistributionIsValid oddConfig [] = Fail (Exit NotMultipleOfRowSize) /\
  verifyDistributionIsValid sampleConfig [longRecord] = Ok 2 /\
  (wf_config hugeContig /\ cells_per_frame hugeContig mod ROW_SIZE = 0 /\
   contig_size hugeContig / cells_per_frame hugeContig = 4294967296 /\
   1 * (Z.of_nat (length (diagnostic_values hugeContig)) + data_frames hugeContig) = 1 /\
   (exists c, capacity hugeContig [] = Ok c /\
      frameGroupCount c = 1 /\ totalReqdFrames c = 1 /\ maxFrames c = 0) /\
   verifyDistributionIsValid hugeContig [] = Fail (Exit WontFit)) /\
  (wf_config manyDataFrames /\ cells_per_frame manyDataFrames mod ROW_SIZE = 0 /\
   contig_size manyDataFrames / cells_per_frame manyDataFrames = 20971520 /\
   1 * (Z.of_nat (length (diagnostic_values manyDataFrames)) + data_frames manyDataFrames)
     = 4294967296 /\
   (exists c, capacity manyDataFrames [] = Ok c /\
      frameGroupCount c = 1 /\ totalReqdFrames c = 0 /\ maxFrames c = 20971520) /\
   verifyDistributionIsValid manyDataFrames [] = Ok 1).
Proof.
  split; [vm_compute; reflexivity|].
  split; [vm_compute; reflexivity|].
  split.
  - split; [exact wf_hugeContig|]. split; [reflexivity|]. split; [reflexivity|].
    split; [reflexivity|]. split; [|vm_compute; reflexivity].
    eexists. split; [vm_compute; reflexivity|]. repeat split.
  - split; [exact wf_manyDataFrames|]. split; [reflexivity|]. split; [reflexivity|].
    split; [reflexivity|]. split; [|vm_compute; reflexivity].
    eexists. split; [vm_compute; reflexivity|]. repeat split.
Qed.

(** ** Writing the output file *)

Lemma seqZ_S_cons (m : Z) (n : nat) :
  seqZ m (Z.of_nat (S n)) = m :: seqZ (m + 1) (Z.of_nat n).
Proof. rewrite seqZ_cons by lia. f_equal. f_equal; lia. Qed.

Lemma populate_length (dr : distribution_t) (frameNumber : Z) (fuel : nat) :
  forall (cellNumber : Z) (frame frame' : list Z),
    populate fuel dr frameNumber cellNumber frame = Ok frame' ->
    length frame' = length frame.
Proof.
  induction fuel as [|fuel IH]; intros c frame frame'; simpl.
  - destruct (c <? u32 (last dr)); [discriminate|]. intros [= ->]. reflexivity.
  - destruct (c <? u32 (last dr)); [|intros [= ->]; reflexivity].
    destruct (load (cellValue dr) frameNumber) as [v|]; cbn; [|discriminate].
    unfold store. destruct ((0 <=? c) && (c <? Z.of_nat (length frame))); cbn; [|discriminate].
    intros H. apply IH in H. rewrite H. apply length_insert.
Qed.

Lemma distributionLoop_length (frameNumber : Z) (distributionList : list distribution_t) :
  forall (frame frame' : list Z),
    distributionLoop distributionList frameNumber frame = Ok frame' ->
    length frame' = length frame.
Proof.
  induction distributionList as [|dr dl IH]; intros frame frame'.
  - intros [= ->]. reflexivity.
  - rewrite distributionLoop_cons.
    destruct (frameNumber <? Z.of_nat (length (cellValue dr))).
    + destruct (populate _ _ _ _ _) as [frame1|] eqn:Hp; cbn; [|discriminate].
      intros H. apply IH in H. apply populate_length in Hp. congruence.
    + cbn. apply IH.
Qed.

(** A frame that buildDataFrame returns has [cells_per_frame] bytes. *)
Lemma buildDataFrame_length (config : config_t) (distributionList : list distribution_t)
    (frameNumber : Z) (frame : list Z) :
  0 <= cells_per_frame config ->
  buildDataFrame config distributionList frameNumber = Ok frame ->
  Z.of_nat (length frame) = cells_per_frame config.
Proof.
  intros Hc H. apply distributionLoop_length in H. rewrite H.
  apply length_memset. exact Hc.
Qed.

Lemma builtFrame_length (config : config_t) (cmdLine : cmdline_t)
    (distributionList : list distribution_t) (frameNumber : Z) (frame : list Z) :
  is_u32 (cells_per_frame config) ->
  builtFrame config cmdLine distributionList frameNumber = Ok frame ->
  Z.of_nat (length frame) = cells_per_frame config.
Proof.
  intros Hc. unfold builtFrame.
  destruct (buildDataFrame config distributionList frameNumber) as [raw|] eqn:Hraw;
    cbn; [|discriminate].
  apply buildDataFrame_length in Hraw; [|unfold is_u32 in Hc; lia].
  destruct (nolvds cmdLine).
  - intros [= <-]. exact Hraw.
  - destruct (reorderForLvds_Ok config raw Hc Hraw) as (lvds & Hre & Hl & _).
    rewrite Hre. intros [= <-]. lia.
Qed.

Lemma diagnosticLoop_Ok (config : config_t) (n : nat) :
  forall (i : Z) (ofile : list Z),
    0 <= i -> i + Z.of_nat n <= Z.of_nat (length (diagnostic_values config)) ->
    diagnosticLoop n config i ofile =
      (ofile ++ concat ((fun v => memset v (cells_per_frame config))
                          <$> take n (drop (Z.to_nat i) (diagnostic_values config))),
       Ok tt).
Proof.
  induction n as [|n IH]; intros i ofile Hi Hn.
  - simpl. rewrite app_nil_r. reflexivity.
  - destruct (load_in_range (diagnostic_values config) i) as [v Hv]; [lia|].
    simpl diagnosticLoop. rewrite Hv.
    rewrite IH by lia. unfold fwrite.
    apply load_Ok in Hv as [_ Hv].
    rewrite (drop_S _ _ _ Hv). simpl take. rewrite fmap_cons, concat_cons.
    replace (Z.to_nat (i + 1)) with (S (Z.to_nat i)) by lia.
    rewrite <- app_assoc. reflexivity.
Qed.

Lemma diagnosticLoop_all (config : config_t) (ofile : list Z) :
  Z.of_nat (length (diagnostic_values config)) < 2^32 ->
  diagnosticLoop (Z.to_nat (u32 (Z.of_nat (length (diagnostic_values config))))) config 0 ofile
    = (ofile ++ concat (diagnosticFrames config), Ok tt).
Proof.
  intros Hfit. rewrite u32_id by (unfold is_u32; lia). rewrite Nat2Z.id.
  rewrite diagnosticLoop_Ok by lia.
  simpl drop. rewrite firstn_all. reflexivity.
Qed.

Lemma dataLoop_S (n : nat) (config : config_t) (cmdLine : cmdline_t)
    (distributionList : list distribution_t) (frameNumber : Z) (ofile : list Z) :
  dataLoop (S n) config cmdLine distributionList frameNumber ofile =
    match builtFrame config cmdLine distributionList frameNumber with
    | Ok frame =>
        dataLoop n config cmdLine distributionList (u32 (frameNumber + 1))
          (fwrite frame ofile)
    | Fail f => (ofile, Fail f)
    end.
Proof. reflexivity. Qed.

Lemma u32_succ (k : Z) : u32 (u32 k + 1) = u32 (k + 1).
Proof. unfold u32. apply Zplus_mod_idemp_l. Qed.

Lemma dataLoop_Ok (config : config_t) (cmdLine : cmdline_t)
    (distributionList : list distribution_t) (frames : Z -> list Z) (n : nat) :
  forall (k : Z) (ofile : list Z),
    (forall j, k <= j < k + Z.of_nat n ->
       builtFrame config cmdLine distributionList (u32 j) = Ok (frames j)) ->
    dataLoop n config cmdLine distributionList (u32 k) ofile =
      (ofile ++ concat (frames <$> seqZ k (Z.of_nat n)), Ok (u32 (k + Z.of_nat n))).
Proof.
  induction n as [|n IH]; intros k ofile Hframes.
  - simpl. rewrite app_nil_r, Z.add_0_r. reflexivity.
  - rewrite dataLoop_S, (Hframes k) by lia.
    rewrite u32_succ, IH by (intros j Hj; apply Hframes; lia).
    unfold fwrite. rewrite seqZ_S_cons, fmap_cons, concat_cons, <- app_assoc.
    do 3 f_equal. lia.
Qed.

Lemma frameGroupLoop_S (n : nat) (config : config_t) (cmdLine : cmdline_t)
    (distributionList : list distribution_t) (frameNumber : Z) (ofile : list Z) :
  frameGroupLoop (S n) config cmdLine distributionList frameNumber ofile =
    match diagnosticLoop
            (Z.to_nat (u32 (Z.of_nat (length (diagnostic_values config))))) config 0 ofile with
    | (ofile1, Ok _) =>
        match dataLoop (Z.to_nat (data_frames config)) config cmdLine
                distributionList frameNumber ofile1 with
        | (ofile2, Ok frameNumber') =>
            frameGroupLoop n config cmdLine distributionList frameNumber' ofile2
        | (ofile2, Fail f) => (ofile2, Fail f)
        end
    | (ofile1, Fail f) => (ofile1, Fail f)
    end.
Proof. reflexivity. Qed.

Lemma frameGroupLoop_Ok (config : config_t) (cmdLine : cmdline_t)
    (distributionList : list distribution_t) (frames : Z -> list Z) (n : nat) :
  0 <= data_frames config ->
  Z.of_nat (length (diagnostic_values config)) < 2^32 ->
  forall (g : Z) (ofile : list Z),
    0 <= g ->
    (forall j, g * data_frames config <= j < (g + Z.of_nat n) * data_frames config ->
       builtFrame config cmdLine distributionList (u32 j) = Ok (frames j)) ->
    frameGroupLoop n config cmdLine distributionList (u32 (g * data_frames config)) ofile =
      (ofile ++ concat (concat (frameGroup config frames <$> seqZ g (Z.of_nat n))), Ok tt).
Proof.
  intros Hd Hdiag. induction n as [|n IH]; intros g ofile Hg Hframes.
  - simpl. rewrite app_nil_r. reflexivity.
  - rewrite frameGroupLoop_S, diagnosticLoop_all by exact Hdiag.
    rewrite (dataLoop_Ok config cmdLine distributionList frames).
    2:{ intros j Hj. apply Hframes. nia. }
    rewrite Z2Nat.id by exact Hd.
    replace (g * data_frames config + data_frames config)
      with ((g + 1) * data_frames config) by lia.
    rewrite IH; [|lia|intros j Hj; apply Hframes; nia].
    rewrite seqZ_S_cons, fmap_cons, concat_cons. unfold frameGroup at 2.
    rewrite !concat_app, <- !app_assoc. reflexivity.
Qed.

(** ** Positions in a reordered frame *)

Lemma row_position (row r : Z) :
  0 <= r < ROW_SIZE ->
  (ROW_SIZE * row + r) / ROW_SIZE = row /\ (ROW_SIZE * row + r) mod ROW_SIZE = r.
Proof.
  intros Hr. unfold ROW_SIZE in *. split.
  - symmetry. apply (Z.div_unique _ 2048 row r); lia.
  - symmetry. apply (Z.mod_unique _ 2048 row r); lia.
Qed.

Lemma lvdsSource_lvdsPosition (k : Z) :
  0 <= k -> lvdsSource (lvdsPosition k) = k.
Proof.
  intros Hk. unfold lvdsSource, lvdsPosition.
  assert (Hr : 0 <= k mod ROW_SIZE < ROW_SIZE) by (apply Z.mod_pos_bound; rlia).
  destruct (row_position (k / ROW_SIZE) (tableIndex (k mod ROW_SIZE))
              (tableIndex_range _ Hr)) as [-> ->].
  rewrite tableEntry_tableIndex by exact Hr.
  pose proof (Z.div_mod k ROW_SIZE ltac:(rlia)). lia.
Qed.

Lemma lvdsPosition_row (k : Z) :
  0 <= k ->
  lvdsPosition k / ROW_SIZE = k / ROW_SIZE /\
  0 <= lvdsPosition k /\
  ROW_SIZE * (k / ROW_SIZE) <= lvdsPosition k < ROW_SIZE * (k / ROW_SIZE + 1).
Proof.
  intros Hk. unfold lvdsPosition.
  assert (Hr : 0 <= k mod ROW_SIZE < ROW_SIZE) by (apply Z.mod_pos_bound; rlia).
  assert (Hq : 0 <= k / ROW_SIZE) by (apply Z.div_pos; rlia).
  pose proof (tableIndex_range _ Hr) as Ht.
  destruct (row_position (k / ROW_SIZE) _ Ht) as [-> _].
  split; [reflexivity|]. rlia.
Qed.

Lemma complete_rows (cells k : Z) :
  0 <= k -> 0 <= cells ->
  k < ROW_SIZE * (cells / ROW_SIZE) <-> k / ROW_SIZE < cells / ROW_SIZE.
Proof.
  intros Hk Hc. unfold ROW_SIZE.
  pose proof (Z.div_mod k 2048 ltac:(lia)).
  pose proof (Z.mod_pos_bound k 2048 ltac:(lia)).
  split; intros H1; nia.
Qed.

Lemma reorderForLvds_position (config : config_t) (rawFrame lvdsFrame : list Z) (k : Z) :
  is_u32 (cells_per_frame config) ->
  Z.of_nat (length rawFrame) = cells_per_frame config ->
  reorderForLvds config rawFrame = Ok lvdsFrame ->
  0 <= k < ROW_SIZE * (cells_per_frame config / ROW_SIZE) ->
  lvdsFrame !! Z.to_nat (lvdsPosition k) = rawFrame !! Z.to_nat k.
Proof.
  intros Hcpf Hlen Hre Hk.
  destruct (reorderForLvds_Ok config rawFrame Hcpf Hlen) as (lvds & Hre' & _ & Hcells).
  rewrite Hre in Hre'. injection Hre' as <-.
  destruct (lvdsPosition_row k ltac:(lia)) as (Hrow & Hnn & Hin).
  rewrite (Hcells (lvdsPosition k) Hnn).
  rewrite decide_True.
  - rewrite lvdsSource_lvdsPosition by lia. reflexivity.
  - unfold is_u32 in Hcpf.
    apply complete_rows; [lia|lia|]. rewrite Hrow.
    apply complete_rows; lia.
Qed.

Lemma builtFrame_Ok (config : config_t) (cmdLine : cmdline_t)
    (distributionList : list distribution_t) (k : Z) (raw : list Z) :
  is_u32 (cells_per_frame config) ->
  buildDataFrame config distributionList (u32 k) = Ok raw ->
  rawFrameOf config distributionList k = raw /\
  builtFrame config cmdLine distributionList (u32 k) =
    Ok (writtenFrameOf config cmdLine distributionList k) /\
  (if nolvds cmdLine then Ok raw else reorderForLvds config raw) =
    Ok (writtenFrameOf config cmdLine distributionList k).
Proof.
  intros Hcpf Hraw. unfold rawFrameOf, writtenFrameOf, builtFrame. rewrite Hraw. cbn.
  split; [reflexivity|].
  destruct (nolvds cmdLine); [split; reflexivity|].
  assert (Hlen : Z.of_nat (length raw) = cells_per_frame config).
  { apply (buildDataFrame_length config distributionList (u32 k) raw); [|exact Hraw].
    unfold is_u32 in Hcpf. lia. }
  destruct (reorderForLvds_Ok config raw Hcpf Hlen) as (lvds & -> & _).
  split; reflexivity.
Qed.

Lemma wf_smallConfig : wf_config smallConfig.
Proof.
  split; simpl; unfold is_u32, is_u8; try lia. repeat constructor; lia.
Qed.

Lemma smallList_in_range :
  Forall (fun dr => wf_distribution dr /\ inRange smallConfig dr /\ nonNegativeLast dr)
    smallList.
Proof.
  repeat constructor; unfold is_i32, nonNegativeLast; simpl; lia.
Qed.

(** *** Where a frame and a byte are in the file *)

Lemma lookup_concat_uniform {A : Type} (n : nat) (ls : list (list A)) :
  Forall (fun l => length l = n) ls ->
  forall i j : nat, (j < n)%nat ->
    concat ls !! (i * n + j)%nat =
      match ls !! i with Some l => l !! j | None => None end.
Proof.
  induction 1 as [|l ls Hl Hall IH]; intros i j Hj; [reflexivity|].
  cbn [concat]. destruct i as [|i].
  - cbn [Nat.mul Nat.add lookup list_lookup]. apply lookup_app_l. lia.
  - rewrite lookup_app_r by lia.
    replace (S i * n + j - length l)%nat with (i * n + j)%nat by lia.
    apply IH. exact Hj.
Qed.

Lemma length_frameGroup (config : config_t) (frames : Z -> list Z) (g : Z) :
  length (frameGroup config frames g) =
    (length (diagnostic_values config) + Z.to_nat (data_frames config))%nat.
Proof.
  unfold frameGroup, diagnosticFrames.
  rewrite length_app, !length_fmap, length_seqZ. reflexivity.
Qed.

Lemma expectedFrames_lookup (config : config_t) (frames : Z -> list Z)
    (frameGroupCount g : Z) (f : nat) :
  0 <= g < frameGroupCount ->
  (f < length (diagnostic_values config) + Z.to_nat (data_frames config))%nat ->
  expectedFrames config frames frameGroupCount
    !! (Z.to_nat g * (length (diagnostic_values config) + Z.to_nat (data_frames config))
        + f)%nat =
    frameGroup config frames g !! f.
Proof.
  intros Hg Hf. unfold expectedFrames.
  rewrite (lookup_concat_uniform _ _
             (proj2 (Forall_fmap _ _ _)
                (proj2 (Forall_forall _ _)
                   (fun x _ => length_frameGroup config frames x))))
    by exact Hf.
  rewrite list_lookup_fmap.
  assert (Hseq : seqZ 0 frameGroupCount !! Z.to_nat g = Some g).
  { apply lookup_seqZ. split; lia. }
  rewrite Hseq. reflexivity.
Qed.

Lemma expectedFile_lookup (config : config_t) (frames : Z -> list Z)
    (frameGroupCount : Z) (f b : nat) :
  Forall (fun frame => Z.of_nat (length frame) = cells_per_frame config)
    (expectedFrames config frames frameGroupCount) ->
  (b < Z.to_nat (cells_per_frame config))%nat ->
  expectedFile config frames frameGroupCount
    !! (f * Z.to_nat (cells_per_frame config) + b)%nat =
    match expectedFrames config frames frameGroupCount !! f with
    | Some frame => frame !! b
    | None => None
    end.
Proof.
  intros Hall Hb. unfold expectedFile. apply lookup_concat_uniform; [|exact Hb].
  eapply Forall_impl; [|exact Hall]. simpl. intros frame H. lia.
Qed.

Lemma length_concat_uniform {A : Type} (n : nat) (ls : list (list A)) :
  Forall (fun l => length l = n) ls -> length (concat ls) = (length ls * n)%nat.
Proof.
  induction 1 as [|l ls Hl Hall IH]; [reflexivity|].
  cbn [concat length]. rewrite length_app, IH, Hl. lia.
Qed.

Lemma length_expectedFrames (config : config_t) (frames : Z -> list Z)
    (frameGroupCount : Z) :
  length (expectedFrames config frames frameGroupCount) =
    (Z.to_nat frameGroupCount *
     (length (diagnostic_values config) + Z.to_nat (data_frames config)))%nat.
Proof.
  unfold expectedFrames.
  rewrite (length_concat_uniform
             (length (diagnostic_values config) + Z.to_nat (data_frames config))).
  - rewrite length_fmap, length_seqZ. reflexivity.
  - apply Forall_fmap, Forall_forall. intros g _. apply length_frameGroup.
Qed.

(** C6: when the output file can be created and buildDataFrame returns for
    each frame number of the run, the bytes that writeOutputFile writes are
    the [frameGroupCount] frame groups one after the other and nothing else;
    a group is one frame per entry of [diagnostic_values], every byte of
    which is that entry, followed by [data_frames] data frames; every frame
    has [cells_per_frame] bytes, so that byte [b] of frame [f] of group [g]
    is at position [(g * frameGroupLength + f) * cells_per_frame + b] of the
    file; the [k]-th data frame of the run (over all groups, from 0) is
    built from the frame number [k] as the [uint32_t] counter holds it,
    which is [k] itself in a run of up to 2^32 data frames; and it is the
    frame of buildDataFrame, passed through reorderForLvds unless [-nolvds]
    was given.  With the reordering the frames have fewer than 2^31 + 2048
    cells, the range in which its [int] offsets are exact. *)
Theorem writeOutputFile_stream (config : config_t) (cmdLine : cmdline_t)
    (distributionList : list distribution_t) (frameGroupCount : Z) (frames : Z -> list Z) :
  wf_config config -> 0 <= frameGroupCount ->
  Z.of_nat (length (diagnostic_values config)) < 2^32 ->
  nolvds cmdLine = true \/ cells_per_frame config < 2^31 + 2048 ->
  (forall k, 0 <= k < frameGroupCount * data_frames config ->
     exists raw, buildDataFrame config distributionList (u32 k) = Ok raw /\
       (if nolvds cmdLine then Ok raw else reorderForLvds config raw) = Ok (frames k)) ->
  let file := expectedFile config frames frameGroupCount in
  let frameGroupLength := Z.of_nat (length (diagnostic_values config)) + data_frames config in
  writeOutputFile config cmdLine distributionList true frameGroupCount =
    (Some file, Ok tt) /\
  Forall (fun frame => Z.of_nat (length frame) = cells_per_frame config)
    (expectedFrames config frames frameGroupCount) /\
  Z.of_nat (length file) = frameGroupCount * frameGroupLength * cells_per_frame config /\
  (forall g i v b, 0 <= g < frameGroupCount ->
     diagnostic_values config !! i = Some v -> 0 <= b < cells_per_frame config ->
     file !! Z.to_nat ((g * frameGroupLength + Z.of_nat i) * cells_per_frame config + b)
       = Some v) /\
  (forall g d b, 0 <= g < frameGroupCount ->
     0 <= d < data_frames config -> 0 <= b < cells_per_frame config ->
     file !! Z.to_nat ((g * frameGroupLength + Z.of_nat (length (diagnostic_values config))
                        + d) * cells_per_frame config + b)
       = frames (g * data_frames config + d) !! Z.to_nat b) /\
  (frameGroupCount * data_frames config <= 2^32 ->
     forall k, 0 <= k < frameGroupCount * data_frames config -> u32 k = k).
Proof.
  intros Hwf Hfgc Hdiag _ Hbuilt file frameGroupLength.
  destruct Hwf as [Hcpf _ _ Hdf _].
  assert (Hframes : forall k, 0 <= k < frameGroupCount * data_frames config ->
            builtFrame config cmdLine distributionList (u32 k) = Ok (frames k)).
  { intros k Hk. destruct (Hbuilt k Hk) as (raw & Hraw & Hout).
    unfold builtFrame. rewrite Hraw. exact Hout. }
  assert (Hall : Forall (fun frame => Z.of_nat (length frame) = cells_per_frame config)
                   (expectedFrames config frames frameGroupCount)).
  { unfold expectedFrames. apply Forall_concat, Forall_fmap, Forall_seqZ.
    intros g Hg. unfold frameGroup. apply Forall_app. split.
    + unfold diagnosticFrames. apply Forall_fmap, Forall_forall.
      intros v _. simpl. rewrite length_replicate. unfold is_u32 in Hcpf. lia.
    + apply Forall_fmap, Forall_seqZ. intros k Hk. simpl.
      apply (builtFrame_length config cmdLine distributionList (u32 k)); [exact Hcpf|].
      apply Hframes. unfold is_u32 in Hdf. nia. }
  unfold is_u32 in Hcpf, Hdf.
  assert (Hindex : forall g f b, 0 <= g -> 0 <= f -> 0 <= b ->
            Z.to_nat ((g * frameGroupLength + f) * cells_per_frame config + b) =
            ((Z.to_nat g * ((length (diagnostic_values config)) + Z.to_nat (data_frames config)) + Z.to_nat f)
               * Z.to_nat (cells_per_frame config) + Z.to_nat b)%nat).
  { intros g f b Hg Hf Hb. unfold frameGroupLength. apply Nat2Z.inj.
    rewrite Nat2Z.inj_add, !Nat2Z.inj_mul, Nat2Z.inj_add, !Nat2Z.inj_mul, Nat2Z.inj_add.
    rewrite !Z2Nat.id by nia. reflexivity. }
  split; [|split; [exact Hall|split; [|split; [|split]]]].
  - unfold writeOutputFile, file, expectedFile, expectedFrames.
    assert (Hdf' : 0 <= data_frames config) by lia.
    pose proof (frameGroupLoop_Ok config cmdLine distributionList frames
                  (Z.to_nat frameGroupCount) Hdf' Hdiag 0 [] (Z.le_refl 0)) as Hloop.
    rewrite Z2Nat.id in Hloop by exact Hfgc.
    change (u32 (0 * data_frames config)) with 0 in Hloop.
    rewrite Hloop; [reflexivity|].
    intros j Hj. apply Hframes. lia.
  - unfold file, expectedFile.
    rewrite (length_concat_uniform (Z.to_nat (cells_per_frame config))).
    + rewrite length_expectedFrames. unfold frameGroupLength.
      rewrite !Nat2Z.inj_mul, Nat2Z.inj_add, !Z2Nat.id by lia. reflexivity.
    + eapply Forall_impl; [|exact Hall]. simpl. intros frame H. lia.
  - intros g i v b Hg Hi Hb.
    pose proof (lookup_lt_Some _ _ _ Hi) as Hlt.
    rewrite (Hindex g (Z.of_nat i) b) by lia. rewrite Nat2Z.id.
    unfold file. rewrite expectedFile_lookup by (exact Hall || lia).
    rewrite expectedFrames_lookup by lia.
    unfold frameGroup, diagnosticFrames.
    rewrite lookup_app_l by (rewrite length_fmap; exact Hlt).
    rewrite list_lookup_fmap, Hi. simpl.
    apply lookup_replicate_2. lia.
  - intros g d b Hg Hd Hb.
    replace (g * frameGroupLength + Z.of_nat (length (diagnostic_values config)) + d)
      with (g * frameGroupLength + (Z.of_nat (length (diagnostic_values config)) + d)) by lia.
    rewrite (Hindex g (Z.of_nat (length (diagnostic_values config)) + d) b) by lia.
    replace (Z.to_nat (Z.of_nat (length (diagnostic_values config)) + d)) with ((length (diagnostic_values config)) + Z.to_nat d)%nat by lia.
    unfold file. rewrite expectedFile_lookup by (exact Hall || lia).
    rewrite expectedFrames_lookup by lia.
    unfold frameGroup, diagnosticFrames.
    rewrite lookup_app_r by (rewrite length_fmap; lia).
    rewrite length_fmap.
    replace ((length (diagnostic_values config)) + Z.to_nat d - (length (diagnostic_values config)))%nat with (Z.to_nat d) by lia.
    rewrite list_lookup_fmap.
    assert (Hseq : seqZ (g * data_frames config) (data_frames config) !! Z.to_nat d =
                   Some (g * data_frames config + d)).
    { apply lookup_seqZ. split; lia. }
    rewrite Hseq. reflexivity.
  - intros Hrun k Hk. apply u32_id. unfold is_u32. lia.
Qed.

Lemma writtenFrameOf_small (cmdLine : cmdline_t) (k : Z) :
  exists raw,
    buildDataFrame smallConfig smallList (u32 k) = Ok raw /\
    (if nolvds cmdLine then Ok raw else reorderForLvds smallConfig raw) =
      Ok (writtenFrameOf smallConfig cmdLine smallList k) /\
    forall c, 0 <= c < 2048 ->
      writtenFrameOf smallConfig cmdLine smallList k
        !! Z.to_nat (if nolvds cmdLine then c else lvdsPosition c) =
      describedCell smallConfig smallList (u32 k) c.
Proof.
  assert (Hcpf : is_u32 (cells_per_frame smallConfig)) by (unfold is_u32; simpl; lia).
  destruct (buildDataFrame_cells smallConfig smallList (u32 k) wf_smallConfig
              (u32_range k) smallList_in_range) as (raw & Hraw & Hlen & Hcells).
  destruct (builtFrame_Ok smallConfig cmdLine smallList k raw Hcpf Hraw)
    as (_ & _ & Hwritten).
  exists raw. split; [exact Hraw|]. split; [exact Hwritten|].
  intros c Hc. rewrite <- (Hcells c) by exact Hc.
  destruct (nolvds cmdLine).
  - injection Hwritten as <-. reflexivity.
  - apply (reorderForLvds_position smallConfig raw); [exact Hcpf|exact Hlen|exact Hwritten|].
    exact Hc.
Qed.

Lemma writeOutputFile_stream_witness :
  (exists file,
     writeOutputFile smallConfig lvdsCmdLine smallList true 2 = (Some file, Ok tt) /\
     Z.of_nat (length file) = 12288 /\
     file !! Z.to_nat 0 = Some 34 /\
     file !! Z.to_nat (3 * 2048 + 2047) = Some 34 /\
     file !! Z.to_nat (1 * 2048 + 63) = Some 1 /\
     file !! Z.to_nat (2 * 2048 + 63) = Some 2 /\
     file !! Z.to_nat (4 * 2048 + 63) = Some 3 /\
     file !! Z.to_nat (5 * 2048 + 63) = Some 170) /\
  (exists file,
     writeOutputFile smallConfig rawCmdLine smallList true 2 = (Some file, Ok tt) /\
     Z.of_nat (length file) = 12288 /\
     file !! Z.to_nat (3 * 2048) = Some 34 /\
     file !! Z.to_nat (1 * 2048 + 0) = Some 1 /\
     file !! Z.to_nat (1 * 2048 + 1) = Some 170 /\
     file !! Z.to_nat (4 * 2048 + 2) = Some 3 /\
     file !! Z.to_nat (5 * 2048 + 0) = Some 170).
Proof.
  assert (Hrun : forall cmdLine k, 0 <= k < 2 * data_frames smallConfig ->
            exists raw, buildDataFrame smallConfig smallList (u32 k) = Ok raw /\
              (if nolvds cmdLine then Ok raw else reorderForLvds smallConfig raw) =
                Ok (writtenFrameOf smallConfig cmdLine smallList k)).
  { intros cmdLine k _. destruct (writtenFrameOf_small cmdLine k) as (raw & Hraw & Hout & _).
    exists raw. split; assumption. }
  assert (Hgroups : 0 <= 2) by lia.
  assert (Hdiag : Z.of_nat (length (diagnostic_values smallConfig)) < 2^32) by (simpl; lia).
  assert (Hsize : forall cmdLine,
            nolvds cmdLine = true \/ cells_per_frame smallConfig < 2^31 + 2048)
    by (intros cmdLine; right; simpl; lia).
  split.
  - destruct (writeOutputFile_stream smallConfig lvdsCmdLine smallList 2
                (writtenFrameOf smallConfig lvdsCmdLine smallList)
                wf_smallConfig Hgroups Hdiag (Hsize lvdsCmdLine) (Hrun lvdsCmdLine))
      as (Hfile & _ & Hlen & Hdiagnostic & Hdata & _).
    eexists. split; [exact Hfile|]. split; [exact Hlen|].
    assert (Hcell : forall k, writtenFrameOf smallConfig lvdsCmdLine smallList k
                      !! Z.to_nat 63 = describedCell smallConfig smallList (u32 k) 0).
    { intros k. destruct (writtenFrameOf_small lvdsCmdLine k) as (_ & _ & _ & Hcells).
      apply (Hcells 0). lia. }
    split; [apply (Hdiagnostic 0 0%nat 34 0); simpl; [lia|reflexivity|lia]|].
    split; [apply (Hdiagnostic 1 0%nat 34 2047); simpl; [lia|reflexivity|lia]|].
    split; [transitivity (describedCell smallConfig smallList (u32 0) 0);
       [rewrite <- (Hcell 0); apply (Hdata 0 0 63); simpl; lia|reflexivity]|].
    split; [transitivity (describedCell smallConfig smallList (u32 1) 0);
       [rewrite <- (Hcell 1); apply (Hdata 0 1 63); simpl; lia|reflexivity]|].
    split; [transitivity (describedCell smallConfig smallList (u32 2) 0);
       [rewrite <- (Hcell 2); apply (Hdata 1 0 63); simpl; lia|reflexivity]|].
    transitivity (describedCell smallConfig smallList (u32 3) 0);
       [rewrite <- (Hcell 3); apply (Hdata 1 1 63); simpl; lia|reflexivity].
  - destruct (writeOutputFile_stream smallConfig rawCmdLine smallList 2
                (writtenFrameOf smallConfig rawCmdLine smallList)
                wf_smallConfig Hgroups Hdiag (Hsize rawCmdLine) (Hrun rawCmdLine))
      as (Hfile & _ & Hlen & Hdiagnostic & Hdata & _).
    eexists. split; [exact Hfile|]. split; [exact Hlen|].
    assert (Hcell : forall k c, 0 <= c < 2048 ->
              writtenFrameOf smallConfig rawCmdLine smallList k !! Z.to_nat c =
              describedCell smallConfig smallList (u32 k) c).
    { intros k c Hc. destruct (writtenFrameOf_small rawCmdLine k) as (_ & _ & _ & Hcells).
      apply (Hcells c Hc). }
    split; [apply (Hdiagnostic 1 0%nat 34 0); simpl; [lia|reflexivity|lia]|].
    split; [transitivity (describedCell smallConfig smallList (u32 0) 0);
       [rewrite <- (Hcell 0 0) by lia; apply (Hdata 0 0 0); simpl; lia|reflexivity]|].
    split; [transitivity (describedCell smallConfig smallList (u32 0) 1);
       [rewrite <- (Hcell 0 1) by lia; apply (Hdata 0 0 1); simpl; lia|reflexivity]|].
    split; [transitivity (describedCell smallConfig smallList (u32 2) 2);
       [rewrite <- (Hcell 2 2) by lia; apply (Hdata 1 0 2); simpl; lia|reflexivity]|].
    transitivity (describedCell smallConfig smallList (u32 3) 0);
       [rewrite <- (Hcell 3 0) by lia; apply (Hdata 1 1 0); simpl; lia|reflexivity].
Defined.

(** ** Records with a negative [last] *)

(** C10, on a run: the line [1, -1, 1 $ A] is accepted by loadDistribution
    and gives a record that meets the three conditions of the claim, but
    buildDataFrame writes outside the frame for it: [last], -1, is compared
    as the [uint32_t] 4294967295, so the loop fills the 2048 cells of the
    frame and goes on to cell 2048.  The run ends there, in the first data
    frame. *)
Theorem buildDataFrame_out_of_bounds :
  loadDistribution sampleConfig {[ "A"%string := [7] ]} (distributionLines negativeLastEnv) []
    = ([negativeLast], Ok tt) /\
  inRange sampleConfig negativeLast /\
  last negativeLast < first negativeLast /\
  buildDataFrame sampleConfig [negativeLast] 0 = Fail OutOfBounds /\
  snd (execute sampleConfig lvdsCmdLine negativeLastEnv) = Fail OutOfBounds.
Proof.
  split; [vm_compute; reflexivity|].
  split; [split; simpl; lia|].
  split; [simpl; lia|].
  split; vm_compute; reflexivity.
Qed.

(** C2, on two records that meet the conditions of the claim.  For the
    first, which loadDistribution accepts from its line, [last] is
    -2147483648 and is compared as 2147483648: the loop
    writes cell 2047, which is not below [last], where the claim leaves the
    quiescent value.  For the second, [last] is -1: the loop writes every
    cell of the frame and then leaves the frame, so no frame is produced. *)
Theorem buildDataFrame_negative_last :
  (loadDistributionLine sampleConfig {[ "A"%string := [7] ]} []
     "2048, -2147483648, 2147483647 $ A" = ([wrappingRecord], Ok tt) /\
   inRange sampleConfig wrappingRecord /\ wf_distribution wrappingRecord /\
   inProgression wrappingRecord 2047 = false /\
   describedCell sampleConfig [wrappingRecord] 0 2047 = Some (quiescent sampleConfig) /\
   exists frame, buildDataFrame sampleConfig [wrappingRecord] 0 = Ok frame /\
     load frame 2047 = Ok 7) /\
  (inRange sampleConfig negativeLast /\ wf_distribution negativeLast /\
   buildDataFrame sampleConfig [negativeLast] 0 = Fail OutOfBounds).
Proof.
  split.
  - split; [vm_compute; reflexivity|].
    split; [split; simpl; lia|].
    split; [split; unfold is_i32; simpl; lia|].
    split; [vm_compute; reflexivity|].
    split; [vm_compute; reflexivity|].
    eexists. split; vm_compute; reflexivity.
  - split; [split; simpl; lia|].
    split; [split; unfold is_i32; simpl; lia|].
    vm_compute. reflexivity.
Qed.

(** ** Reading a line: tokens *)

Lemma skipBlanks_length (p : string) :
  (String.length (skipBlanks p) <= String.length p)%nat.
Proof.
  induction p as [|c p IH]; simpl; [lia|].
  destruct (isBlank c); simpl; lia.
Qed.

Lemma skipBlanks_peek (p : string) : isBlank (peek (skipBlanks p)) = false.
Proof.
  induction p as [|c p IH]; simpl; [reflexivity|].
  destruct (isBlank c) eqn:Hc; [exact IH|exact Hc].
Qed.

Lemma advance_length (p : string) :
  (String.length (advance p) <= String.length p)%nat.
Proof. destruct p; simpl; lia. Qed.

Lemma extractToken_length (p token rest : string) :
  extractToken p = (token, rest) ->
  (String.length token + String.length rest = String.length p)%nat.
Proof.
  revert token rest. induction p as [|c p IH]; intros token rest; simpl.
  - intros [= <- <-]. reflexivity.
  - destruct (isBlank c || isEol c || (c =? ",")%char).
    + intros [= <- <-]. reflexivity.
    + destruct (extractToken p) as [t r]. intros [= <- <-].
      specialize (IH t r eq_refl). simpl. lia.
Qed.

(** A call that yields a token moves [p] forward. *)
Lemma getNextCommaSeparatedToken_progress (p token p' : string) :
  getNextCommaSeparatedToken p = (true, token, p') ->
  (String.length p' < String.length p)%nat.
Proof.
  unfold getNextCommaSeparatedToken.
  pose proof (skipBlanks_length p) as Hskip.
  pose proof (skipBlanks_peek p) as Hblank.
  destruct (skipBlanks p) as [|c q]; simpl peek in *.
  - simpl. discriminate.
  - destruct (isEol c) eqn:Heol; [discriminate|].
    simpl extractToken. rewrite Hblank, Heol. simpl orb.
    destruct (c =? ",")%char eqn:Hcomma.
    + apply Ascii.eqb_eq in Hcomma. subst c. simpl. intros [= <- <-].
      simpl in Hskip. lia.
    + destruct (extractToken q) as [t r] eqn:Hx. apply extractToken_length in Hx.
      intros [= <- <-].
      pose proof (skipBlanks_length r) as Hr.
      pose proof (advance_length (skipBlanks r)) as Ha.
      simpl in Hskip. destruct (peek (skipBlanks r) =? ",")%char; lia.
Qed.

Lemma i32_range (x : Z) : is_i32 (i32 x).
Proof.
  unfold is_i32, i32. pose proof (Z.mod_pos_bound (x + 2^31) (2^32)). lia.
Qed.

Lemma parseCells_range (buffer : string) (first last step : Z) :
  parseCells buffer = (first, last, step) ->
  is_i32 first /\ is_i32 last /\ is_i32 step.
Proof.
  unfold parseCells, getNextCommaSeparatedInt.
  destruct (getNextCommaSeparatedToken buffer) as [[s1 t1] p1].
  destruct (getNextCommaSeparatedToken p1) as [[s2 t2] p2].
  destruct (getNextCommaSeparatedToken p2) as [[s3 t3] p3].
  intros [= <- <- <-]. unfold atoi. repeat split; apply i32_range.
Qed.


(** ** Resolving the fragment names of a line *)

Lemma resolveFragments_S (fuel : nat) (fragment : gmap string (list Z))
    (p : string) (drcv : list Z) :
  resolveFragments (S fuel) fragment p drcv =
    let '(status, fragmentName, p') := getNextCommaSeparatedToken p in
    if status then
      match fragment !! fragmentName with
      | None => Fail (Throw (UndefinedFragment fragmentName))
      | Some fragcv => resolveFragments fuel fragment p' (drcv ++ (u8 <$> fragcv))
      end
    else Ok drcv.
Proof. reflexivity. Qed.

Lemma fragmentNames_S (fuel : nat) (p : string) :
  fragmentNames (S fuel) p =
    let '(status, fragmentName, p') := getNextCommaSeparatedToken p in
    if status then fragmentName :: fragmentNames fuel p' else [].
Proof. reflexivity. Qed.


(** With a listed name that is absent, the loop throws, and names an absent
    name of the line. *)
Lemma resolveFragments_unknown (fragment : gmap string (list Z)) (fuel : nat) :
  forall (p : string) (drcv : list Z),
    (exists name, name ∈ fragmentNames fuel p /\ fragment !! name = None) ->
    exists name, resolveFragments fuel fragment p drcv = Fail (Throw (UndefinedFragment name)) /\
      name ∈ fragmentNames fuel p /\ fragment !! name = None.
Proof.
  induction fuel as [|fuel IH]; intros p drcv (name & Hin & Hname).
  - simpl in Hin. apply elem_of_nil in Hin. contradiction.
  - rewrite fragmentNames_S in Hin. rewrite resolveFragments_S, fragmentNames_S.
    destruct (getNextCommaSeparatedToken p) as [[status n] p'].
    destruct status; [|apply elem_of_nil in Hin; contradiction].
    destruct (fragment !! n) as [fragcv|] eqn:Hn.
    + apply elem_of_cons in Hin as [->|Hin]; [congruence|].
      destruct (IH p' (drcv ++ (u8 <$> fragcv))) as (n' & Hres & Hin' & Hn');
        [exists name; split; assumption|].
      exists n'. split; [exact Hres|]. split; [|exact Hn'].
      apply list_elem_of_further. exact Hin'.
    + exists n. split; [reflexivity|]. split; [apply list_elem_of_here|exact Hn].
Qed.


(** The fuel that distributionRecord gives is never used up. *)
Lemma resolveFragments_fuel (fragment : gmap string (list Z)) (fuel : nat) :
  forall (p : string) (drcv : list Z),
    (String.length p < fuel)%nat ->
    resolveFragments fuel fragment p drcv <> Fail Diverges.
Proof.
  induction fuel as [|fuel IH]; intros p drcv Hfuel; [lia|].
  rewrite resolveFragments_S.
  destruct (getNextCommaSeparatedToken p) as [[status n] p'] eqn:Hnext.
  destruct status; [|discriminate].
  apply getNextCommaSeparatedToken_progress in Hnext.
  destruct (fragment !! n); [|discriminate].
  apply IH. lia.
Qed.

(** ** Loading a distribution line *)

Lemma distributionRecord_eq (config : config_t) (fragment : gmap string (list Z))
    (buffer delimeter : string) (first last step : Z) :
  parseCells buffer = (first, last, step) ->
  distributionRecord config fragment buffer delimeter =
    if (first <? 1) || (u32 first >? cells_per_frame config)
    then Fail (Throw (InvalidCellNumber first))
    else
      (drcv ← resolveFragments (S (String.length (namesText delimeter))) fragment
                (namesText delimeter) [];
       Ok (storedRecord first last step drcv)).
Proof.
  intros Hparse. unfold distributionRecord, namesText, storedRecord.
  rewrite Hparse. reflexivity.
Qed.

Lemma loadDistributionLine_eq (config : config_t) (fragment : gmap string (list Z))
    (distributionList : list distribution_t) (line buffer delimeter : string) :
  isSkippedLine (skipBlanks line) = false ->
  splitAtDollar (skipBlanks line) = Some (buffer, delimeter) ->
  loadDistributionLine config fragment distributionList line =
    match distributionRecord config fragment buffer delimeter with
    | Ok distRecord => (distributionList ++ [distRecord], Ok tt)
    | Fail f => (distributionList, Fail f)
    end.
Proof.
  intros Hskip Hsplit. unfold loadDistributionLine. rewrite Hskip, Hsplit. reflexivity.
Qed.

(** The test on the first cell number, on the [int] that was parsed. *)
Lemma invalid_cell_test (first cells : Z) :
  is_i32 first ->
  (first <? 1) || (u32 first >? cells) = true <-> first < 1 \/ first > cells.
Proof.
  intros Hf. unfold is_i32 in Hf.
  rewrite orb_true_iff, Z.ltb_lt, Z.gtb_ltb, Z.ltb_lt.
  destruct (Z.lt_ge_cases first 1) as [Hlt|Hge].
  - split; intros _; left; exact Hlt.
  - rewrite u32_id by (unfold is_u32; lia). lia.
Qed.

(** What a definition line does once its first cell number is accepted. *)
Lemma loadDistributionLine_in_range (config : config_t) (fragment : gmap string (list Z))
    (distributionList : list distribution_t) (line buffer delimeter : string)
    (first last step : Z) :
  isSkippedLine (skipBlanks line) = false ->
  splitAtDollar (skipBlanks line) = Some (buffer, delimeter) ->
  parseCells buffer = (first, last, step) ->
  1 <= first <= cells_per_frame config ->
  loadDistributionLine config fragment distributionList line =
    match resolveFragments (S (String.length (namesText delimeter))) fragment
            (namesText delimeter) [] with
    | Ok values => (distributionList ++ [storedRecord first last step values], Ok tt)
    | Fail f => (distributionList, Fail f)
    end.
Proof.
  intros Hskip Hsplit Hparse Hrange.
  rewrite (loadDistributionLine_eq _ _ _ _ _ _ Hskip Hsplit).
  rewrite (distributionRecord_eq _ _ _ _ _ _ _ Hparse).
  destruct (parseCells_range _ _ _ _ Hparse) as (Hf & _ & _).
  destruct ((first <? 1) || (u32 first >? cells_per_frame config)) eqn:Htest.
  - apply invalid_cell_test in Htest; [lia|exact Hf].
  - destruct (resolveFragments _ _ _ _); reflexivity.
Qed.








(** * Properties of the rest of the program *)

(** ** buildDataFrame on records with a non-negative [last] *)

(** X1: for records whose [last] is not negative (and that have
    [1 <= first <= cells_per_frame], [last <= cells_per_frame] and
    [step >= 1]), buildDataFrame returns a frame of [cells_per_frame] bytes
    and never writes outside it; a cell that no record writes holds the
    quiescent value, and a cell that several records write holds the value
    of the last of them in list order. *)
Theorem buildDataFrame_described (config : config_t)
    (distributionList : list distribution_t) (frameNumber : Z) :
  wf_config config -> is_u32 frameNumber ->
  Forall (fun dr => wf_distribution dr /\ inRange config dr /\ nonNegativeLast dr)
    distributionList ->
  exists frame, buildDataFrame config distributionList frameNumber = Ok frame /\
    Z.of_nat (length frame) = cells_per_frame config /\
    (forall k, 0 <= k < cells_per_frame config ->
       Forall (fun dr => writesCell frameNumber k dr = false) distributionList ->
       load frame k = Ok (quiescent config)) /\
    (forall k before dr after, 0 <= k < cells_per_frame config ->
       distributionList = before ++ dr :: after ->
       writesCell frameNumber k dr = true ->
       Forall (fun dr' => writesCell frameNumber k dr' = false) after ->
       exists v, load (cellValue dr) frameNumber = Ok v /\ load frame k = Ok v).
Proof.
  intros Hwf Hn Hall.
  destruct (buildDataFrame_cells config distributionList frameNumber Hwf Hn Hall)
    as (frame & Hbuild & Hlen & Hcells).
  exists frame. split; [exact Hbuild|]. split; [exact Hlen|]. split.
  - intros k Hk Hnone. apply load_Ok. split; [lia|].
    rewrite (Hcells k Hk). apply describedCell_quiescent. exact Hnone.
  - intros k before dr after Hk -> Hdr Hafter.
    assert (Hact : frameNumber < Z.of_nat (length (cellValue dr))).
    { unfold writesCell in Hdr. apply andb_true_iff in Hdr as [Hdr _].
      apply Z.ltb_lt in Hdr. exact Hdr. }
    destruct (load_in_range (cellValue dr) frameNumber) as [v Hv];
      [unfold is_u32 in Hn; lia|].
    exists v. split; [exact Hv|].
    apply load_Ok. split; [lia|].
    rewrite (Hcells k Hk), (describedCell_last_wins config before after dr _ _ Hdr Hafter).
    apply load_Ok in Hv as [_ Hv]. exact Hv.
Qed.

Lemma tinyList_in_range :
  Forall (fun dr => wf_distribution dr /\ inRange tinyConfig dr /\ nonNegativeLast dr)
    tinyList.
Proof.
  repeat constructor; unfold is_i32, nonNegativeLast; simpl; lia.
Qed.

Lemma wf_tinyConfig : wf_config tinyConfig.
Proof.
  split; simpl; unfold is_u32, is_u8; try lia. repeat constructor; lia.
Qed.

Lemma buildDataFrame_described_witness :
  exists frame, buildDataFrame tinyConfig tinyList 0 = Ok frame /\
    Z.of_nat (length frame) = 4 /\
    load frame 3 = Ok 170 /\ load frame 1 = Ok 9.
Proof.
  destruct (buildDataFrame_described tinyConfig tinyList 0)
    as (frame & Hbuild & Hlen & Hquiet & Hlast).
  - exact wf_tinyConfig.
  - unfold is_u32. lia.
  - exact tinyList_in_range.
  - exists frame. split; [exact Hbuild|]. split; [exact Hlen|]. split.
    + apply Hquiet; [simpl; lia|]. repeat constructor.
    + destruct (Hlast 1 [mk_distribution 1 4 2 [1; 2; 3]] (mk_distribution 2 2 1 [9]) [])
        as (v & Hv & Hcell); [simpl; lia | reflexivity | reflexivity | constructor |].
      vm_compute in Hv. injection Hv as <-. exact Hcell.
Defined.

(** ** Frames after the end of every sequence *)

Lemma distributionLoop_ended (frameNumber : Z) (distributionList : list distribution_t) :
  Forall (fun dr => Z.of_nat (length (cellValue dr)) <= frameNumber) distributionList ->
  forall frame, distributionLoop distributionList frameNumber frame = Ok frame.
Proof.
  induction distributionList as [|dr dl IH]; intros Hall frame; [reflexivity|].
  inversion Hall as [|? ? Hdr Hall']; subst.
  rewrite distributionLoop_cons.
  replace (frameNumber <? Z.of_nat (length (cellValue dr))) with false
    by (symmetry; apply Z.ltb_ge; exact Hdr).
  cbn. apply IH. exact Hall'.
Qed.

Lemma maximumLength_each (distributionList : list distribution_t) :
  Forall (fun dr => Z.of_nat (length (cellValue dr)) <= maximumLength distributionList)
    distributionList.
Proof.
  induction distributionList as [|dr dl IH]; [constructor|].
  rewrite maximumLength_cons. constructor; [lia|].
  eapply Forall_impl; [|exact IH]. simpl. intros dr' H. lia.
Qed.

(** X2: from the frame number that findLongestSequence returns on, every
    data frame is the all-quiescent frame, whatever the cell numbers of the
    records are: a record is looked at only while it has a value for the
    frame number. *)
Theorem buildDataFrame_after_end (config : config_t)
    (distributionList : list distribution_t) (frameNumber : Z) :
  lengthsFit distributionList ->
  findLongestSequence distributionList <= frameNumber ->
  buildDataFrame config distributionList frameNumber =
    Ok (memset (quiescent config) (cells_per_frame config)).
Proof.
  intros Hfit Hlong. unfold buildDataFrame.
  apply distributionLoop_ended.
  rewrite (findLongestSequence_max _ Hfit) in Hlong.
  eapply Forall_impl; [|apply maximumLength_each].
  simpl. intros dr H. lia.
Qed.

Lemma buildDataFrame_after_end_witness :
  buildDataFrame tinyConfig (negativeLast :: tinyList) 3 = Ok [170; 170; 170; 170].
Proof.
  apply (buildDataFrame_after_end tinyConfig (negativeLast :: tinyList) 3).
  - repeat constructor; simpl; lia.
  - vm_compute. discriminate.
Defined.

(** ** The run and the longest sequence *)

Lemma verifyDistributionIsValid_Ok (config : config_t)
    (distributionList : list distribution_t) (groups : Z) :
  verifyDistributionIsValid config distributionList = Ok groups ->
  cells_per_frame config mod ROW_SIZE = 0 /\
  cells_per_frame config <> 0 /\ data_frames config <> 0 /\
  exists c, capacity config distributionList = Ok c /\
    groups = frameGroupCount c /\ totalReqdFrames c <= maxFrames c.
Proof.
  unfold verifyDistributionIsValid.
  destruct (cells_per_frame config mod ROW_SIZE =? 0) eqn:Hm; simpl; [|discriminate].
  apply Z.eqb_eq in Hm.
  destruct (capacity config distributionList) as [c|] eqn:Hc; cbn; [|discriminate].
  destruct (totalReqdFrames c >? maxFrames c) eqn:Hcmp; [discriminate|].
  intros [= <-]. rewrite Z.gtb_ltb in Hcmp. apply Z.ltb_ge in Hcmp.
  assert (Hdiv : cells_per_frame config <> 0 /\ data_frames config <> 0).
  { unfold capacity, divide in Hc.
    destruct (cells_per_frame config =? 0) eqn:H1; cbn in Hc; [discriminate|].
    destruct (data_frames config =? 0) eqn:H2; cbn in Hc; [discriminate|].
    apply Z.eqb_neq in H1, H2. split; assumption. }
  split; [exact Hm|]. split; [tauto|]. split; [tauto|].
  exists c. split; [reflexivity|]. split; [reflexivity|exact Hcmp].
Qed.

(** X3: when verifyDistributionIsValid returns the frame group count, the
    data frames of the run are more than the values of the longest sequence
    (for sequences of fewer than 2^32 - 1 values): the count is
    [longest / data_frames + 1], at least 1, and
    [count * data_frames > longest].  So every value of every sequence has
    its data frame in the run. *)
Theorem run_covers_longest_sequence (config : config_t)
    (distributionList : list distribution_t) (groups : Z) :
  wf_config config -> lengthsFit distributionList ->
  findLongestSequence distributionList < 2^32 - 1 ->
  verifyDistributionIsValid config distributionList = Ok groups ->
  groups = findLongestSequence distributionList / data_frames config + 1 /\
  1 <= groups /\
  findLongestSequence distributionList < groups * data_frames config.
Proof.
  intros [_ _ _ Hdf _] Hfit Hsmall Hverify.
  destruct (verifyDistributionIsValid_Ok _ _ _ Hverify) as (_ & Hc & Hd & c & Hcap & -> & _).
  rewrite (capacity_Ok _ _ Hc Hd) in Hcap. cbv zeta in Hcap. injection Hcap as <-.
  simpl frameGroupCount.
  pose proof (maximumLength_bound _ Hfit) as Hmax.
  rewrite (findLongestSequence_max _ Hfit) in *.
  set (L := maximumLength distributionList) in *.
  unfold is_u32 in Hdf.
  assert (Hq : 0 <= L / data_frames config <= L).
  { split; [apply Z.div_pos; lia|]. apply Z.div_le_upper_bound; [lia|]. nia. }
  rewrite u32_id by (unfold is_u32; lia).
  split; [reflexivity|]. split; [lia|].
  pose proof (Z.mul_succ_div_gt L (data_frames config) ltac:(lia)). lia.
Qed.

Lemma run_covers_longest_sequence_witness :
  2 = findLongestSequence [longRecord] / data_frames sampleConfig + 1 /\
  1 <= 2 /\
  findLongestSequence [longRecord] < 2 * data_frames sampleConfig.
Proof.
  apply (run_covers_longest_sequence sampleConfig [longRecord] 2).
  - exact wf_sampleConfig.
  - repeat constructor.
  - vm_compute. reflexivity.
  - vm_compute. reflexivity.
Defined.

(** ** The LVDS order and its inverse *)

(** X4: reorderForLvds loses nothing.  In a frame of [cells_per_frame]
    bytes, for [cells_per_frame] below 2^31 + 2048, it returns a frame of
    the same length in which the raw cell [k] of a complete row is found at
    [lvdsPosition k], in the same row; the cells after the last complete row
    stay where they are; and no other raw frame gives the same reordered
    frame. *)
Theorem reorderForLvds_inverse (config : config_t) (rawFrame : list Z) :
  0 <= cells_per_frame config < 2^31 + 2048 ->
  Z.of_nat (length rawFrame) = cells_per_frame config ->
  exists lvdsFrame, reorderForLvds config rawFrame = Ok lvdsFrame /\
    length lvdsFrame = length rawFrame /\
    (forall k, 0 <= k < ROW_SIZE * (cells_per_frame config / ROW_SIZE) ->
       lvdsPosition k / ROW_SIZE = k / ROW_SIZE /\
       exists v, rawFrame !! Z.to_nat k = Some v /\
         lvdsFrame !! Z.to_nat (lvdsPosition k) = Some v) /\
    (forall k, ROW_SIZE * (cells_per_frame config / ROW_SIZE) <= k ->
       lvdsFrame !! Z.to_nat k = rawFrame !! Z.to_nat k) /\
    (forall otherFrame, Z.of_nat (length otherFrame) = cells_per_frame config ->
       reorderForLvds config otherFrame = Ok lvdsFrame -> otherFrame = rawFrame).
Proof.
  intros Hbound Hlen.
  assert (Hcpf : is_u32 (cells_per_frame config)) by (unfold is_u32; lia).
  destruct (reorderForLvds_Ok config rawFrame Hcpf Hlen) as (lvdsFrame & Hre & Hl & Hcells).
  assert (Hq : 0 <= ROW_SIZE * (cells_per_frame config / ROW_SIZE) <= cells_per_frame config).
  { unfold is_u32 in Hcpf. split.
    - apply Z.mul_nonneg_nonneg; [rlia|]. apply Z.div_pos; rlia.
    - apply Z.mul_div_le. rlia. }
  assert (Hpos : forall frame lvds : list Z,
    Z.of_nat (length frame) = cells_per_frame config ->
    (forall k, 0 <= k -> lvds !! Z.to_nat k =
        if decide (k < ROW_SIZE * (cells_per_frame config / ROW_SIZE))
        then frame !! Z.to_nat (lvdsSource k) else frame !! Z.to_nat k) ->
    forall k, 0 <= k ->
      frame !! Z.to_nat k =
        if decide (k < ROW_SIZE * (cells_per_frame config / ROW_SIZE))
        then lvds !! Z.to_nat (lvdsPosition k) else lvds !! Z.to_nat k).
  { intros frame lvds Hfl Hf k Hk.
    destruct (decide (k < ROW_SIZE * (cells_per_frame config / ROW_SIZE))) as [Hc|Hc].
    - destruct (lvdsPosition_row k Hk) as (Hrow & Hnn & Hin).
      rewrite (Hf (lvdsPosition k)) by lia.
      rewrite decide_True.
      + rewrite lvdsSource_lvdsPosition by exact Hk. reflexivity.
      + unfold is_u32 in Hcpf.
        apply complete_rows; [lia|lia|]. rewrite Hrow.
        apply complete_rows; [lia|lia|exact Hc].
    - rewrite (Hf k Hk). rewrite decide_False by exact Hc. reflexivity. }
  exists lvdsFrame. split; [exact Hre|]. split; [exact Hl|]. split; [|split].
  - intros k Hk. split; [apply lvdsPosition_row; lia|].
    destruct (load_in_range rawFrame k) as [v Hv]; [lia|].
    apply load_Ok in Hv as [_ Hv].
    exists v. split; [exact Hv|].
    rewrite <- Hv, (Hpos rawFrame lvdsFrame Hlen Hcells k) by lia.
    rewrite decide_True by lia. reflexivity.
  - intros k Hk.
    rewrite (Hcells k) by lia. rewrite decide_False by lia. reflexivity.
  - intros otherFrame Hlo Hother.
    destruct (reorderForLvds_Ok config otherFrame Hcpf Hlo) as (lvds' & Hre' & Hl' & Hcells').
    rewrite Hother in Hre'. injection Hre' as <-.
    apply list_eq. intros i.
    replace i with (Z.to_nat (Z.of_nat i)) by lia.
    rewrite (Hpos rawFrame lvdsFrame Hlen Hcells (Z.of_nat i)) by lia.
    rewrite (Hpos otherFrame lvdsFrame Hlo Hcells' (Z.of_nat i)) by lia.
    reflexivity.
Qed.

Lemma reorderForLvds_inverse_witness :
  exists lvdsFrame, reorderForLvds twoRowConfig twoRowFrame = Ok lvdsFrame /\
    twoRowFrame !! Z.to_nat (2048 + 5) = Some 12 /\
    lvdsFrame !! Z.to_nat (2048 + 1343) = Some 12.
Proof.
  destruct (reorderForLvds_inverse twoRowConfig twoRowFrame)
    as (lvdsFrame & Hre & _ & Hcells & _).
  - simpl. lia.
  - unfold twoRowFrame. rewrite length_app, !length_rowFrom. reflexivity.
  - exists lvdsFrame. split; [exact Hre|].
    destruct (Hcells (2048 + 5)) as (_ & v & Hraw & Hlvds);
      [vm_compute; split; [discriminate|reflexivity]|].
    assert (Hv : v = 12) by (vm_compute in Hraw; injection Hraw as <-; reflexivity).
    subst v. split; [exact Hraw|exact Hlvds].
Defined.

Lemma reorderForLvds_memset (config : config_t) (v : Z) :
  is_u32 (cells_per_frame config) ->
  reorderForLvds config (memset v (cells_per_frame config)) =
    Ok (memset v (cells_per_frame config)).
Proof.
  intros Hcpf.
  assert (Hlen : Z.of_nat (length (memset v (cells_per_frame config))) =
                 cells_per_frame config)
    by (rewrite length_memset; unfold is_u32 in Hcpf; lia).
  destruct (reorderForLvds_Ok config _ Hcpf Hlen) as (lvdsFrame & Hre & Hl & Hcells).
  rewrite Hre. f_equal. apply list_eq. intros i.
  destruct (decide (i < length lvdsFrame)%nat) as [Hi|Hi].
  - replace i with (Z.to_nat (Z.of_nat i)) at 1 by lia.
    rewrite (Hcells (Z.of_nat i)) by lia.
    assert (Hq : ROW_SIZE * (cells_per_frame config / ROW_SIZE) <= cells_per_frame config)
      by (apply Z.mul_div_le; rlia).
    unfold memset in *. rewrite length_replicate in *.
    rewrite (lookup_replicate_2 _ _ i) by lia.
    destruct (decide _) as [Hc|Hc].
    + assert (Hrow : 0 <= Z.of_nat i / ROW_SIZE) by (apply Z.div_pos; rlia).
      destruct (lvdsSource_row (Z.of_nat i / ROW_SIZE) (Z.of_nat i) Hrow) as (_ & _ & Hs).
      { pose proof (Z.div_mod (Z.of_nat i) ROW_SIZE ltac:(rlia)).
        pose proof (Z.mod_pos_bound (Z.of_nat i) ROW_SIZE ltac:(rlia)). lia. }
      apply lookup_replicate_2.
      assert (Z.of_nat i / ROW_SIZE < cells_per_frame config / ROW_SIZE).
      { apply complete_rows; [lia| unfold is_u32 in Hcpf; lia | exact Hc]. }
      unfold ROW_SIZE in *. nia.
    + apply lookup_replicate_2. lia.
  - rewrite (lookup_ge_None_2 lvdsFrame) by lia.
    symmetry. apply lookup_ge_None_2. lia.
Qed.

(** X5: a frame whose cells all hold the same byte is returned unchanged by
    reorderForLvds, for every [cells_per_frame] below 2^31 + 2048; so each
    diagnostic frame of the output file, which writeOutputFile does not
    reorder, is the frame that reordering it would give. *)
Theorem reorderForLvds_constant (config : config_t) (v : Z) :
  0 <= cells_per_frame config < 2^31 + 2048 ->
  reorderForLvds config (replicate (Z.to_nat (cells_per_frame config)) v) =
    Ok (replicate (Z.to_nat (cells_per_frame config)) v) /\
  Forall (fun frame => reorderForLvds config frame = Ok frame) (diagnosticFrames config).
Proof.
  intros Hbound.
  assert (Hcpf : is_u32 (cells_per_frame config)) by (unfold is_u32; lia).
  split; [exact (reorderForLvds_memset config v Hcpf)|].
  unfold diagnosticFrames. apply Forall_fmap. apply Forall_forall.
  intros x _. exact (reorderForLvds_memset config x Hcpf).
Qed.

Lemma reorderForLvds_constant_witness :
  reorderForLvds twoRowConfig (replicate 4096 34) = Ok (replicate 4096 34) /\
  Forall (fun frame => reorderForLvds twoRowConfig frame = Ok frame)
    [replicate 4096 34].
Proof.
  apply (reorderForLvds_constant twoRowConfig 34).
  simpl. lia.
Defined.

(** ** The traced cell *)

Lemma searchFrom_Some (table : list Z) (i r j : Z) :
  searchFrom table i r = Some j -> r ∈ table.
Proof.
  revert i. induction table as [|x table IH]; intros i; simpl; [discriminate|].
  destruct (x =? r) eqn:Hx.
  - apply Z.eqb_eq in Hx. subst x. intros _. apply list_elem_of_here.
  - intros H. apply list_elem_of_further. exact (IH _ H).
Qed.

(** X6: findLvdsCellOffset throws its "BUG" error, carrying the offset it
    was given, exactly on the offsets outside [0, ROW_SIZE); on every other
    offset it returns. *)
Theorem findLvdsCellOffset_throws (rawCellOffset : Z) :
  findLvdsCellOffset rawCellOffset = Fail (Throw (LvdsBug rawCellOffset)) <->
  ~ (0 <= rawCellOffset < ROW_SIZE).
Proof.
  split.
  - intros Hf Hr. rewrite (findLvdsCellOffset_Ok _ Hr) in Hf. discriminate.
  - intros Hr. unfold findLvdsCellOffset.
    destruct (searchFrom lvdsTranslationTable 0 rawCellOffset) as [j|] eqn:Hs;
      [|reflexivity].
    exfalso. apply Hr. apply searchFrom_Some in Hs.
    pose proof lvdsTranslationTable_range as Hall.
    rewrite Forall_forall in Hall. apply Hall. apply list_elem_of_In. exact Hs.
Qed.

Lemma findLvdsCellOffset_throws_witness :
  findLvdsCellOffset 2048 = Fail (Throw (LvdsBug 2048)).
Proof.
  apply (findLvdsCellOffset_throws 2048). unfold ROW_SIZE. lia.
Defined.

Lemma traceCellNumber_Ok (cmdLine : cmdline_t) :
  0 <= cellNumber cmdLine < 2^31 ->
  traceCellNumber cmdLine =
    Ok (if nolvds cmdLine then cellNumber cmdLine else lvdsPosition (cellNumber cmdLine)).
Proof.
  intros Hc. unfold traceCellNumber. destruct (nolvds cmdLine); [reflexivity|].
  assert (Hr : 0 <= cellNumber cmdLine mod ROW_SIZE < ROW_SIZE)
    by (apply Z.mod_pos_bound; rlia).
  assert (Hq : 0 <= cellNumber cmdLine / ROW_SIZE < 2^20).
  { split; [apply Z.div_pos; rlia|]. apply Z.div_lt_upper_bound; rlia. }
  rewrite (i32_id (cellNumber cmdLine mod ROW_SIZE)) by (unfold is_i32; rlia).
  rewrite (i32_id (cellNumber cmdLine / ROW_SIZE)) by (unfold is_i32; lia).
  rewrite (findLvdsCellOffset_Ok _ Hr). cbn.
  pose proof (tableIndex_range _ Hr) as Ht.
  rewrite u32_id by (unfold is_u32; rlia).
  unfold lvdsPosition. f_equal. lia.
Qed.

(** X7: the cell number that [-trace] follows.  For every cell number
    below 2^31 ([row * ROW_SIZE] is a product of [int]s) the translation
    never throws; with [-nolvds] the
    cell number is kept, otherwise it becomes [lvdsPosition] of it, a cell
    of the same row; and two different cell numbers are never followed in
    the same cell. *)
Theorem traceCellNumber_total (cmdLine : cmdline_t) :
  0 <= cellNumber cmdLine < 2^31 ->
  exists cell, traceCellNumber cmdLine = Ok cell /\
    cell = (if nolvds cmdLine then cellNumber cmdLine
            else lvdsPosition (cellNumber cmdLine)) /\
    cell / ROW_SIZE = cellNumber cmdLine / ROW_SIZE /\
    (forall cmdLine', 0 <= cellNumber cmdLine' < 2^31 ->
       nolvds cmdLine' = nolvds cmdLine ->
       traceCellNumber cmdLine' = Ok cell ->
       cellNumber cmdLine' = cellNumber cmdLine).
Proof.
  intros Hc. eexists. split; [apply (traceCellNumber_Ok cmdLine Hc)|].
  split; [reflexivity|]. split.
  - destruct (nolvds cmdLine); [reflexivity|]. apply lvdsPosition_row. lia.
  - intros c' Hc' Hsame Htrace. rewrite (traceCellNumber_Ok c' Hc'), Hsame in Htrace.
    injection Htrace as Htrace. destruct (nolvds cmdLine); [exact Htrace|].
    rewrite <- (lvdsSource_lvdsPosition (cellNumber c')) by lia.
    rewrite Htrace. apply lvdsSource_lvdsPosition. lia.
Qed.

Lemma traceCellNumber_total_witness :
  exists cell, traceCellNumber lvdsTrace = Ok cell /\ cell = lvdsPosition 2.
Proof.
  destruct (traceCellNumber_total lvdsTrace) as (cell & Hcell & Heq & _).
  - simpl. lia.
  - exists cell. split; [exact Hcell|exact Heq].
Defined.

(** ** Reading back what was written *)

Lemma append_assoc (a b c : string) : (a +:+ b) +:+ c = a +:+ (b +:+ c).
Proof. induction a as [|x a IH]; [reflexivity|]. exact (f_equal (String x) IH). Qed.

Lemma append_nil_r (a : string) : a +:+ EmptyString = a.
Proof. induction a as [|x a IH]; [reflexivity|]. exact (f_equal (String x) IH). Qed.

Lemma digit_char (d : Z) :
  0 <= d <= 9 ->
  digitValue (ascii_of_nat (48 + Z.to_nat d)) = Some d /\
  isNumberChar (ascii_of_nat (48 + Z.to_nat d)) = true /\
  isspace (ascii_of_nat (48 + Z.to_nat d)) = false /\
  forall s, strtol (String (ascii_of_nat (48 + Z.to_nat d)) s) =
    Z.max (- 2^63) (Z.min (2^63 - 1) (readDigits (String (ascii_of_nat (48 + Z.to_nat d)) s) 0)).
Proof.
  intros Hd.
  assert (H : d = 0 \/ d = 1 \/ d = 2 \/ d = 3 \/ d = 4 \/ d = 5 \/ d = 6 \/
              d = 7 \/ d = 8 \/ d = 9) by lia.
  repeat (destruct H as [-> | H]; [repeat split|]); subst; repeat split.
Qed.

Lemma readDigits_decimalDigits (fuel : nat) :
  forall (n : Z) (acc : string), 0 <= n < 10 ^ Z.of_nat fuel ->
    exists k, 0 <= k /\
      forall a, readDigits (decimalDigits fuel n acc) a = readDigits acc (a * 10 ^ k + n).
Proof.
  induction fuel as [|fuel IH]; intros n acc Hn.
  - exists 0. split; [lia|]. intros a. simpl. f_equal. change (10 ^ Z.of_nat 0) with 1 in Hn. lia.
  - assert (Hd : 0 <= n mod 10 <= 9) by (pose proof (Z.mod_pos_bound n 10); lia).
    destruct (digit_char _ Hd) as (Hv & _).
    cbn [decimalDigits]. destruct (n <? 10) eqn:Hlt.
    + apply Z.ltb_lt in Hlt. exists 1. split; [lia|]. intros a.
      cbn [readDigits]. rewrite Hv. f_equal. rewrite Z.mod_small by lia. lia.
    + apply Z.ltb_ge in Hlt.
      destruct (IH (n / 10) (String (ascii_of_nat (48 + Z.to_nat (n mod 10))) acc))
        as (k & Hk & Hread).
      { split; [apply Z.div_pos; lia|]. apply Z.div_lt_upper_bound; [lia|].
        rewrite Nat2Z.inj_succ, Z.pow_succ_r in Hn by lia. lia. }
      exists (k + 1). split; [lia|]. intros a. rewrite Hread.
      cbn [readDigits]. rewrite Hv. f_equal.
      rewrite Z.pow_add_r by lia.
      pose proof (Z.div_mod n 10 ltac:(lia)). lia.
Qed.

Lemma decimalDigits_chars (fuel : nat) :
  forall (n : Z) (acc : string), 0 <= n -> allChars isNumberChar acc = true ->
    allChars isNumberChar (decimalDigits fuel n acc) = true.
Proof.
  induction fuel as [|fuel IH]; intros n acc Hn Hacc; [exact Hacc|].
  assert (Hd : 0 <= n mod 10 <= 9) by (pose proof (Z.mod_pos_bound n 10); lia).
  destruct (digit_char _ Hd) as (_ & Hc & _).
  cbn [decimalDigits]. destruct (n <? 10).
  - cbn [allChars]. rewrite Hc, Hacc. reflexivity.
  - apply IH; [apply Z.div_pos; lia|]. cbn [allChars]. rewrite Hc, Hacc. reflexivity.
Qed.

Lemma decimalDigits_head (fuel : nat) :
  forall (n : Z) (acc : string), 0 <= n ->
    exists d s, 0 <= d <= 9 /\
      decimalDigits (S fuel) n acc = String (ascii_of_nat (48 + Z.to_nat d)) s.
Proof.
  induction fuel as [|fuel IH]; intros n acc Hn.
  - exists (n mod 10). cbn [decimalDigits].
    pose proof (Z.mod_pos_bound n 10). destruct (n <? 10); eexists; (split; [lia|reflexivity]).
  - pose proof (Z.mod_pos_bound n 10).
    change (decimalDigits (S (S fuel)) n acc) with
      (let acc' := String (ascii_of_nat (48 + Z.to_nat (n mod 10))) acc in
       if n <? 10 then acc' else decimalDigits (S fuel) (n / 10) acc').
    cbv zeta. destruct (n <? 10).
    + exists (n mod 10). eexists. split; [lia|reflexivity].
    + apply IH. apply Z.div_pos; lia.
Qed.

Lemma log2_fuel (n : Z) : 0 <= n -> 0 <= n < 10 ^ Z.of_nat (S (Z.to_nat (Z.log2 n))).
Proof.
  intros Hn. split; [exact Hn|].
  rewrite Nat2Z.inj_succ, Z2Nat.id by apply Z.log2_nonneg.
  destruct (Z.eq_dec n 0) as [->|Hnz]; [reflexivity|].
  pose proof (Z.log2_spec n ltac:(lia)) as [_ Hlt].
  eapply Z.lt_le_trans; [exact Hlt|].
  apply Z.pow_le_mono_l. lia.
Qed.

Lemma atoi_decimal (n : Z) : is_i32 n -> atoi (decimal n) = n.
Proof.
  intros Hn. unfold atoi, decimal. unfold is_i32 in Hn.
  destruct (n <? 0) eqn:Hneg.
  - apply Z.ltb_lt in Hneg.
    destruct (readDigits_decimalDigits _ (- n) EmptyString (log2_fuel (- n) ltac:(lia)))
      as (k & _ & Hread).
    change (strtol (String "-" ?s)) with
      (Z.max (- 2^63) (Z.min (2^63 - 1) (- readDigits s 0))).
    rewrite Hread. cbn [readDigits]. rewrite i32_id; unfold is_i32; lia.
  - apply Z.ltb_ge in Hneg.
    destruct (readDigits_decimalDigits _ n EmptyString (log2_fuel n Hneg)) as (k & _ & Hread).
    destruct (decimalDigits_head (Z.to_nat (Z.log2 n)) n EmptyString Hneg)
      as (d & s & Hd & Heq).
    destruct (digit_char d Hd) as (_ & _ & _ & Hstr).
    rewrite Heq, Hstr, <- Heq, Hread. cbn [readDigits].
    rewrite i32_id; unfold is_i32; lia.
Qed.

Lemma decimal_chars (n : Z) :
  allChars isNumberChar (decimal n) = true /\ decimal n <> EmptyString.
Proof.
  unfold decimal. destruct (n <? 0) eqn:Hneg.
  - apply Z.ltb_lt in Hneg. split; [|discriminate].
    cbn [allChars]. rewrite decimalDigits_chars by (lia || reflexivity). reflexivity.
  - apply Z.ltb_ge in Hneg. split; [apply decimalDigits_chars; [lia|reflexivity]|].
    destruct (decimalDigits_head (Z.to_nat (Z.log2 n)) n EmptyString Hneg)
      as (d & s & _ & ->). discriminate.
Qed.

Lemma numberChar_plain (c : ascii) :
  isNumberChar c = true ->
  isSeparator c = false /\ (c =? "#")%char = false /\ (c =? "/")%char = false /\
  (c =? "$")%char = false /\ (c =? "000")%char = false.
Proof.
  destruct c as [[] [] [] [] [] [] [] []]; intros H; try discriminate H; repeat split.
Qed.

Lemma number_noSeparator (s : string) :
  allChars isNumberChar s = true -> noSeparator s = true.
Proof.
  induction s as [|c s IH]; [reflexivity|]. cbn [allChars noSeparator].
  intros H. apply andb_true_iff in H as [Hc Hs].
  destruct (numberChar_plain c Hc) as (-> & _). rewrite (IH Hs). reflexivity.
Qed.

Lemma decimal_token (n : Z) : isToken (decimal n).
Proof.
  destruct (decimal_chars n) as [Hc Hne]. split; [exact Hne|].
  apply number_noSeparator. exact Hc.
Qed.

(** *** One token *)

Lemma extractToken_token (token rest : string) :
  noSeparator token = true -> isSeparator (peek rest) = true ->
  extractToken (token +:+ rest) = (token, rest).
Proof.
  intros Ht Hrest. induction token as [|c token IH].
  - destruct rest as [|c rest]; [reflexivity|].
    simpl in *. unfold isSeparator in Hrest. rewrite Hrest. reflexivity.
  - cbn [noSeparator] in Ht. apply andb_true_iff in Ht as [Hc Ht].
    apply negb_true_iff in Hc. unfold isSeparator in Hc.
    change (String c token +:+ rest) with (String c (token +:+ rest)).
    cbn [extractToken]. rewrite Hc, (IH Ht). reflexivity.
Qed.

Lemma getNextCommaSeparatedToken_token (token rest : string) :
  isToken token -> isSeparator (peek rest) = true ->
  getNextCommaSeparatedToken (token +:+ rest) = (true, token, afterToken rest).
Proof.
  intros [Hne Ht] Hrest. unfold getNextCommaSeparatedToken.
  destruct token as [|c token]; [contradiction|].
  pose proof Ht as Ht'.
  cbn [noSeparator] in Ht'. apply andb_true_iff in Ht' as [Hc _].
  apply negb_true_iff in Hc. unfold isSeparator in Hc.
  apply orb_false_iff in Hc as [Hc _]. apply orb_false_iff in Hc as [Hb He].
  change (String c token +:+ rest) with (String c (token +:+ rest)).
  cbn [skipBlanks]. rewrite Hb. cbn [peek]. rewrite He.
  change (String c (token +:+ rest)) with (String c token +:+ rest).
  rewrite (extractToken_token _ _ Ht Hrest). reflexivity.
Qed.

Lemma getNextCommaSeparatedToken_blank (p : string) :
  getNextCommaSeparatedToken (String " " p) = getNextCommaSeparatedToken p.
Proof. reflexivity. Qed.

Lemma getNextCommaSeparatedInt_blank (p : string) :
  getNextCommaSeparatedInt (String " " p) = getNextCommaSeparatedInt p.
Proof. reflexivity. Qed.

Lemma getNextCommaSeparatedInt_number (n : Z) (rest : string) :
  is_i32 n -> isSeparator (peek rest) = true ->
  getNextCommaSeparatedInt (decimal n +:+ rest) = (true, n, afterToken rest).
Proof.
  intros Hn Hrest. unfold getNextCommaSeparatedInt.
  rewrite (getNextCommaSeparatedToken_token _ _ (decimal_token n) Hrest).
  rewrite (atoi_decimal n Hn). reflexivity.
Qed.

(** X8: getNextCommaSeparatedInt reads back a printed [int].  For every
    [n] of an [int], printed in decimal and followed by the end of the
    line, a blank or a comma, the call returns true and [n], and leaves [p]
    after the blanks and the one comma that follow the number. *)
Theorem getNextCommaSeparatedInt_decimal (n : Z) (rest : string) :
  is_i32 n -> isSeparator (peek rest) = true ->
  getNextCommaSeparatedInt (decimal n +:+ rest) =
    (true, n, let p := skipBlanks rest in
              if (peek p =? ",")%char then advance p else p).
Proof.
  intros Hn Hrest. unfold getNextCommaSeparatedInt.
  rewrite (getNextCommaSeparatedToken_token (decimal n) rest (decimal_token n) Hrest).
  rewrite (atoi_decimal n Hn). reflexivity.
Qed.

Lemma getNextCommaSeparatedInt_decimal_witness :
  getNextCommaSeparatedInt (decimal (-2147483648) +:+ " , 7") = (true, -2147483648, " 7"%string).
Proof.
  apply (getNextCommaSeparatedInt_decimal (-2147483648) " , 7").
  - unfold is_i32. lia.
  - reflexivity.
Defined.

(** *** Lists of tokens *)

Lemma afterToken_comma (p : string) : afterToken (", " +:+ p) = String " " p.
Proof. reflexivity. Qed.

Lemma token_head (token : string) :
  isToken token ->
  exists c rest, token = String c rest /\ isBlank c = false /\ isEol c = false /\
    (c =? ",")%char = false.
Proof.
  intros [Hne Ht]. destruct token as [|c rest]; [contradiction|].
  exists c, rest. split; [reflexivity|].
  cbn [noSeparator] in Ht. apply andb_true_iff in Ht as [Hc _].
  apply negb_true_iff in Hc. unfold isSeparator in Hc.
  apply orb_false_iff in Hc as [Hc Hcomma]. apply orb_false_iff in Hc as [Hb He].
  repeat split; assumption.
Qed.

Lemma eol_char (c : ascii) :
  isEol c = true ->
  isBlank c = false /\ (c =? ",")%char = false /\ (c =? "/")%char = false /\
  isSeparator c = true.
Proof.
  destruct c as [[] [] [] [] [] [] [] []]; intros H; try discriminate H; repeat split.
Qed.

Lemma eol_tail (tail : string) :
  isEol (peek tail) = true ->
  skipBlanks tail = tail /\ afterToken tail = tail /\ isSeparator (peek tail) = true /\
  (peek tail =? "/")%char = false /\ (peek tail =? ",")%char = false.
Proof.
  intros H. destruct tail as [|c tail]; [repeat split|].
  cbn [peek] in *. destruct (eol_char c H) as (Hb & Hcomma & Hslash & Hsep).
  unfold afterToken. cbn [skipBlanks]. rewrite Hb. cbn [peek]. rewrite Hcomma.
  repeat split; assumption.
Qed.

Lemma token_first (token : string) (tokens : list string) (tail p : string) :
  isToken token -> isEol (peek tail) = true ->
  p = joinTokens (token :: tokens) +:+ tail \/
    p = String " " (joinTokens (token :: tokens) +:+ tail) ->
  exists p', getNextCommaSeparatedToken p = (true, token, p') /\
    (p' = joinTokens tokens +:+ tail \/ p' = String " " (joinTokens tokens +:+ tail)).
Proof.
  intros Ht Htail Hp.
  destruct (eol_tail tail Htail) as (_ & Hafter & Hsep & _).
  assert (H : exists p', getNextCommaSeparatedToken (joinTokens (token :: tokens) +:+ tail) =
                (true, token, p') /\
              (p' = joinTokens tokens +:+ tail \/
               p' = String " " (joinTokens tokens +:+ tail))).
  { destruct tokens as [|token' tokens].
    - exists tail. split; [|left; reflexivity].
      cbn [joinTokens].
      rewrite (getNextCommaSeparatedToken_token token tail Ht Hsep), Hafter. reflexivity.
    - exists (String " " (joinTokens (token' :: tokens) +:+ tail)).
      split; [|right; reflexivity].
      change (joinTokens (token :: token' :: tokens))
        with (token +:+ ", " +:+ joinTokens (token' :: tokens)).
      rewrite append_assoc.
      change ((", " +:+ joinTokens (token' :: tokens)) +:+ tail)
        with (", " +:+ (joinTokens (token' :: tokens) +:+ tail)).
      rewrite (getNextCommaSeparatedToken_token token _ Ht) by reflexivity.
      rewrite afterToken_comma. reflexivity. }
  destruct Hp as [-> | ->]; [exact H|].
  rewrite getNextCommaSeparatedToken_blank. exact H.
Qed.

Lemma token_none (tail p : string) :
  isEol (peek tail) = true ->
  p = joinTokens [] +:+ tail \/ p = String " " (joinTokens [] +:+ tail) ->
  exists p', getNextCommaSeparatedToken p = (false, EmptyString, p').
Proof.
  intros Htail Hp. destruct (eol_tail tail Htail) as (Hskip & _).
  assert (H : getNextCommaSeparatedToken tail = (false, EmptyString, tail)).
  { unfold getNextCommaSeparatedToken. rewrite Hskip, Htail. reflexivity. }
  exists tail. destruct Hp as [-> | ->]; [exact H|].
  rewrite getNextCommaSeparatedToken_blank. exact H.
Qed.

Lemma fragmentValues_written (tail : string) (values : list Z) :
  isEol (peek tail) = true ->
  forall (p : string) (v : list Z) (fuel : nat),
    p = joinTokens (decimal <$> values) +:+ tail \/
      p = String " " (joinTokens (decimal <$> values) +:+ tail) ->
    Forall is_i32 values -> (String.length p < fuel)%nat ->
    fragmentValues fuel p v = Ok (v ++ values).
Proof.
  intros Htail.
  induction values as [|x values IH]; intros p v fuel Hp Hall Hfuel;
    (destruct fuel as [|fuel]; [lia|]); cbn [fragmentValues].
  - destruct (token_none tail p Htail Hp) as [p' ->]. rewrite app_nil_r. reflexivity.
  - inversion Hall as [|? ? Hx Hall']; subst x0 l.
    rewrite fmap_cons in Hp.
    destruct (token_first _ _ tail p (decimal_token x) Htail Hp) as (p' & Hnext & Hp').
    rewrite Hnext. pose proof (getNextCommaSeparatedToken_progress _ _ _ Hnext).
    rewrite (IH p' _ fuel Hp' Hall') by lia.
    rewrite (atoi_decimal x Hx), <- app_assoc. reflexivity.
Qed.

Lemma fragmentBytes_cons (fragment : gmap string (list Z)) (name : string)
    (names : list string) :
  fragmentBytes fragment (name :: names) =
    (u8 <$> default [] (fragment !! name)) ++ fragmentBytes fragment names.
Proof. reflexivity. Qed.

Lemma resolveFragments_written (fragment : gmap string (list Z)) (tail : string)
    (names : list string) :
  isEol (peek tail) = true ->
  forall (p : string) (drcv : list Z) (fuel : nat),
    p = joinTokens names +:+ tail \/ p = String " " (joinTokens names +:+ tail) ->
    Forall isToken names ->
    Forall (fun name => is_Some (fragment !! name)) names ->
    (String.length p < fuel)%nat ->
    resolveFragments fuel fragment p drcv = Ok (drcv ++ fragmentBytes fragment names).
Proof.
  intros Htail.
  induction names as [|name names IH]; intros p drcv fuel Hp Htok Hdef Hfuel;
    (destruct fuel as [|fuel]; [lia|]); rewrite resolveFragments_S.
  - destruct (token_none tail p Htail Hp) as [p' ->]. unfold fragmentBytes. simpl.
    rewrite app_nil_r. reflexivity.
  - inversion Htok as [|? ? Hname Htok']; subst x l.
    inversion Hdef as [|? ? [fragcv Hcv] Hdef']; subst x l.
    destruct (token_first _ _ tail p Hname Htail Hp) as (p' & Hnext & Hp').
    rewrite Hnext. pose proof (getNextCommaSeparatedToken_progress _ _ _ Hnext).
    rewrite Hcv. rewrite (IH p' _ fuel Hp' Htok' Hdef') by lia.
    rewrite fragmentBytes_cons, Hcv, <- app_assoc. reflexivity.
Qed.

Lemma written_line_kept (c : ascii) (rest : string) :
  isBlank c = false -> skipBlanks (String c rest) = String c rest.
Proof. intros H. cbn [skipBlanks]. rewrite H. reflexivity. Qed.

(** X9: a line of the fragment file is read back as it was written.  For a
    name that is a token of at most 997 characters and does not start a
    comment, followed by any
    [int] values printed in decimal, loadFragments stores exactly these
    values under that name, whether the line ends there or goes on with a
    carriage return or a line feed (what follows is not read); a second line
    with the same name replaces the values of the first. *)
Theorem loadFragmentLine_written (fragment : gmap string (list Z)) (name : string)
    (values : list Z) (tail : string) :
  isToken name -> shortText name -> isSkippedLine name = false ->
  Forall is_i32 values -> isEol (peek tail) = true ->
  loadFragmentLine fragment (fragmentLine name values +:+ tail) =
    Ok (<[name := values]> fragment) /\
  forall earlier, Forall is_i32 earlier ->
    loadFragmentLines fragment
        [fragmentLine name earlier +:+ tail; fragmentLine name values +:+ tail] =
      Ok (<[name := values]> fragment).
Proof.
  intros Hname _ Hskip Hall Htail.
  destruct (eol_tail tail Htail) as (_ & _ & _ & Hslash & _).
  assert (Hline : forall (fragment : gmap string (list Z)) (values : list Z),
            Forall is_i32 values ->
            loadFragmentLine fragment (fragmentLine name values +:+ tail) =
              Ok (<[name := values]> fragment)).
  { clear fragment values Hall. intros fragment values Hall.
    unfold loadFragmentLine, fragmentLine.
    destruct (token_first name (decimal <$> values) tail _ Hname Htail (or_introl eq_refl))
      as (p' & Hnext & Hp').
    destruct (token_head name Hname) as (c & rest & Hc & Hb & He & Hcomma).
    assert (Hsame : exists text,
              joinTokens (name :: (decimal <$> values)) +:+ tail = String c text /\
              ((peek (advance name) =? "/")%char = false ->
               (peek text =? "/")%char = false)).
    { subst name. destruct (decimal <$> values) as [|t ts].
      - exists (rest +:+ tail). split; [reflexivity|].
        destruct rest; intros H; [exact Hslash|exact H].
      - exists ((rest +:+ ", " +:+ joinTokens (t :: ts)) +:+ tail). split; [reflexivity|].
        destruct rest; intros H; [reflexivity|exact H]. }
    destruct Hsame as (text & Hjoin & Hpeek).
    assert (Hskipped : isSkippedLine (String c text) = false).
    { unfold isSkippedLine in *. subst name. cbn [peek advance] in *.
      rewrite He in *. cbn [orb] in *.
      destruct (c =? "#")%char; [discriminate|]. cbn [orb] in *.
      destruct (c =? "/")%char; [|reflexivity]. cbn [andb] in *.
      apply Hpeek. exact Hskip. }
    rewrite Hjoin, (written_line_kept c text Hb), Hskipped, <- Hjoin, Hnext.
    destruct Hname as [Hne _].
    destruct (String.eqb_spec name EmptyString) as [Heq|_]; [contradiction|].
    rewrite (fragmentValues_written tail values Htail p' [] _ Hp' Hall) by lia.
    reflexivity. }
  split; [exact (Hline fragment values Hall)|].
  intros earlier Hearlier. cbn [loadFragmentLines].
  rewrite (Hline fragment earlier Hearlier). cbn.
  rewrite (Hline _ values Hall). cbn. rewrite insert_insert_eq. reflexivity.
Qed.

Lemma loadFragmentLine_written_witness :
  loadFragmentLine sampleFragments
      (fragmentLine "idle" [0; -1; 300] +:+ String "013"%char EmptyString) =
    Ok (<["idle"%string := [0; -1; 300]]> sampleFragments).
Proof.
  apply (loadFragmentLine_written sampleFragments "idle" [0; -1; 300]
           (String "013"%char EmptyString)).
  - split; [discriminate|reflexivity].
  - apply Nat.leb_le. reflexivity.
  - reflexivity.
  - repeat constructor; unfold is_i32; lia.
  - reflexivity.
Defined.

(** ** The values of a distribution record *)

Lemma u8_range (x : Z) : is_u8 (u8 x).
Proof. unfold is_u8, u8. apply Z.mod_pos_bound. lia. Qed.

Lemma fragmentBytes_bytes (fragment : gmap string (list Z)) (names : list string) :
  Forall is_u8 (fragmentBytes fragment names).
Proof.
  unfold fragmentBytes. induction names as [|name names IH]; [constructor|].
  cbn [fmap list_fmap concat]. apply Forall_app. split; [|exact IH].
  apply Forall_fmap. apply Forall_forall. intros x _. apply u8_range.
Qed.

Lemma resolveFragments_values (fragment : gmap string (list Z)) (fuel : nat) :
  forall (p : string) (drcv values : list Z),
    resolveFragments fuel fragment p drcv = Ok values ->
    values = drcv ++ fragmentBytes fragment (fragmentNames fuel p) /\
    Forall (fun name => is_Some (fragment !! name)) (fragmentNames fuel p).
Proof.
  induction fuel as [|fuel IH]; intros p drcv values; [discriminate|].
  rewrite resolveFragments_S, fragmentNames_S.
  destruct (getNextCommaSeparatedToken p) as [[status fragmentName] p'].
  destruct status.
  - destruct (fragment !! fragmentName) as [fragcv|] eqn:Hcv; [|discriminate].
    intros H. destruct (IH _ _ _ H) as [-> Hall]. split.
    + rewrite fragmentBytes_cons, Hcv, <- app_assoc. reflexivity.
    + constructor; [rewrite Hcv; eexists; reflexivity|exact Hall].
  - intros [= <-]. split; [|constructor]. unfold fragmentBytes. simpl.
    rewrite app_nil_r. reflexivity.
Qed.

(** X10: when the name loop of loadDistribution returns, every name of the
    line is defined, and the values of the record are the values of the
    named fragments in the order of the names, each converted to a byte
    (taken modulo 256), appended to what the vector held; a fragment named
    twice gives its values twice.  All of them are bytes. *)
Theorem resolveFragments_concatenates (fragment : gmap string (list Z)) (fuel : nat)
    (p : string) (drcv values : list Z) :
  resolveFragments fuel fragment p drcv = Ok values ->
  values = drcv ++ fragmentBytes fragment (fragmentNames fuel p) /\
  Forall (fun name => is_Some (fragment !! name)) (fragmentNames fuel p) /\
  (Forall is_u8 drcv -> Forall is_u8 values).
Proof.
  intros H. destruct (resolveFragments_values _ _ _ _ _ H) as [-> Hall].
  split; [reflexivity|]. split; [exact Hall|].
  intros Hd. apply Forall_app. split; [exact Hd|apply fragmentBytes_bytes].
Qed.

Lemma resolveFragments_concatenates_witness :
  [1; 2; 44; 4; 255; 1; 2; 44] =
    [] ++ fragmentBytes sampleFragments (fragmentNames 9 "A, B ,A") /\
  Forall (fun name => is_Some (sampleFragments !! name)) (fragmentNames 9 "A, B ,A") /\
  (Forall is_u8 [] -> Forall is_u8 [1; 2; 44; 4; 255; 1; 2; 44]).
Proof.
  apply (resolveFragments_concatenates sampleFragments 9 "A, B ,A" []).
  vm_compute. reflexivity.
Defined.

(** ** A line of the distribution file *)

Lemma splitAtDollar_number (number rest : string) :
  allChars isNumberChar number = true ->
  splitAtDollar (number +:+ rest) =
    match splitAtDollar rest with
    | Some (buffer, delimeter) => Some (number +:+ buffer, delimeter)
    | None => None
    end.
Proof.
  intros Hn. induction number as [|c number IH].
  - change (EmptyString +:+ rest) with rest.
    destruct (splitAtDollar rest) as [[buffer delimeter]|]; reflexivity.
  - cbn [allChars] in Hn. apply andb_true_iff in Hn as [Hc Hn].
    destruct (numberChar_plain c Hc) as (_ & _ & _ & Hdollar & Hnul).
    change (String c number +:+ rest) with (String c (number +:+ rest)).
    cbn [splitAtDollar]. rewrite Hnul, Hdollar, (IH Hn).
    destruct (splitAtDollar rest) as [[buffer delimeter]|]; reflexivity.
Qed.

Lemma splitAtDollar_comma (rest : string) :
  splitAtDollar (", " +:+ rest) =
    match splitAtDollar rest with
    | Some (buffer, delimeter) => Some (", " +:+ buffer, delimeter)
    | None => None
    end.
Proof.
  change (", " +:+ rest) with (String "," (String " " rest)).
  cbn [splitAtDollar]. cbn [Ascii.eqb Bool.eqb].
  destruct (splitAtDollar rest) as [[buffer delimeter]|]; reflexivity.
Qed.

Lemma splitAtDollar_dollar (rest : string) :
  splitAtDollar (" $ " +:+ rest) =
    Some (String " " (String "013" (String " " rest)), String " " rest).
Proof. reflexivity. Qed.

Lemma namesText_written (names : list string) (tail : string) :
  Forall isToken names -> isEol (peek tail) = true ->
  namesText (String " " (joinTokens names +:+ tail)) = joinTokens names +:+ tail.
Proof.
  intros Hall Htail. unfold namesText.
  change (skipBlanks (String " " ?p)) with (skipBlanks p).
  destruct names as [|name names].
  - destruct (eol_tail tail Htail) as (Hskip & _ & _ & _ & Hcomma).
    change (joinTokens [] +:+ tail) with tail. rewrite Hskip, Hcomma. reflexivity.
  - inversion Hall as [|? ? Hname _]; subst.
    destruct (token_head name Hname) as (c & rest & -> & Hb & _ & Hcomma).
    assert (Hjoin : exists text,
              joinTokens (String c rest :: names) +:+ tail = String c text).
    { destruct names; eexists; reflexivity. }
    destruct Hjoin as [text ->].
    rewrite (written_line_kept c text Hb). cbn [peek]. rewrite Hcomma. reflexivity.
Qed.

Lemma distributionLine_tail (first last step : Z) (names : list string) (tail : string) :
  distributionLine first last step names +:+ tail =
    decimal first +:+ ", " +:+ decimal last +:+ ", " +:+ decimal step +:+ " $ "
      +:+ (joinTokens names +:+ tail).
Proof.
  unfold distributionLine.
  rewrite (append_assoc (decimal first)).
  change ((", " +:+ ?a) +:+ tail) with (", " +:+ (a +:+ tail)).
  rewrite (append_assoc (decimal last)).
  change ((", " +:+ ?a) +:+ tail) with (", " +:+ (a +:+ tail)).
  rewrite (append_assoc (decimal step)). reflexivity.
Qed.

Lemma distributionLine_split (first last step : Z) (text : string) :
  let line := decimal first +:+ ", " +:+ decimal last +:+ ", " +:+ decimal step +:+ " $ "
                +:+ text in
  exists buffer,
    skipBlanks line = line /\
    isSkippedLine line = false /\
    splitAtDollar line = Some (buffer, String " " text) /\
    (is_i32 first -> is_i32 last -> is_i32 step ->
     parseCells buffer = (first, last, step)).
Proof.
  cbv zeta.
  exists (decimal first +:+ ", " +:+ decimal last +:+ ", " +:+ decimal step +:+
            String " " (String "013" (String " " text))).
  destruct (decimal_chars first) as [Hf Hfne].
  destruct (decimal_chars last) as [Hl _].
  destruct (decimal_chars step) as [Hs _].
  split; [|split; [|split]].
  - destruct (decimal first) as [|c s]; [contradiction|].
    cbn [allChars] in Hf. apply andb_true_iff in Hf as [Hc _].
    destruct (numberChar_plain c Hc) as (Hsep & _).
    unfold isSeparator in Hsep. apply orb_false_iff in Hsep as [Hsep _].
    apply orb_false_iff in Hsep as [Hb _].
    apply (written_line_kept c _ Hb).
  - destruct (decimal first) as [|c s]; [contradiction|].
    cbn [allChars] in Hf. apply andb_true_iff in Hf as [Hc _].
    destruct (numberChar_plain c Hc) as (Hsep & Hhash & Hslash & _).
    unfold isSeparator in Hsep. apply orb_false_iff in Hsep as [Hsep _].
    apply orb_false_iff in Hsep as [_ He].
    unfold isSkippedLine.
    change (peek (String c s +:+ ?r)) with c.
    rewrite He, Hhash, Hslash. reflexivity.
  - rewrite (splitAtDollar_number _ _ Hf), splitAtDollar_comma.
    rewrite (splitAtDollar_number _ _ Hl), splitAtDollar_comma.
    rewrite (splitAtDollar_number _ _ Hs), splitAtDollar_dollar. reflexivity.
  - intros Hfi Hli Hsi. unfold parseCells.
    rewrite (getNextCommaSeparatedInt_number first _ Hfi) by reflexivity.
    rewrite afterToken_comma, getNextCommaSeparatedInt_blank.
    rewrite (getNextCommaSeparatedInt_number last _ Hli) by reflexivity.
    rewrite afterToken_comma, getNextCommaSeparatedInt_blank.
    rewrite (getNextCommaSeparatedInt_number step _ Hsi) by reflexivity.
    reflexivity.
Qed.

(** X11: a line of the distribution file is read back as it was written.
    For a first cell number in [1, cells_per_frame], any two [int]s for the
    last cell number and the step (a negative last cell number included),
    and names that are tokens of at most 997 characters defined in the
    fragment table, loadDistribution appends one record to the list: the first cell number, the last one (the
    first when 0 was written), the step (1 when 0 was written) and the bytes
    of the named fragments in order.  The line may go on with a carriage
    return or a line feed: what follows is not read. *)
Theorem loadDistributionLine_written (config : config_t) (fragment : gmap string (list Z))
    (distributionList : list distribution_t) (first last step : Z) (names : list string)
    (tail : string) :
  1 <= first <= cells_per_frame config -> is_i32 first -> is_i32 last -> is_i32 step ->
  Forall isToken names -> Forall shortText names ->
  Forall (fun name => is_Some (fragment !! name)) names ->
  isEol (peek tail) = true ->
  loadDistributionLine config fragment distributionList
      (distributionLine first last step names +:+ tail) =
    (distributionList ++ [storedRecord first last step (fragmentBytes fragment names)],
     Ok tt).
Proof.
  intros Hrange Hf Hl Hs Htok _ Hdef Htail.
  rewrite distributionLine_tail.
  destruct (distributionLine_split first last step (joinTokens names +:+ tail))
    as (buffer & Hkept & Hskip & Hsplit & Hcells).
  rewrite <- Hkept in Hskip, Hsplit.
  rewrite (loadDistributionLine_in_range config fragment distributionList _ buffer
             (String " " (joinTokens names +:+ tail)) first last step Hskip Hsplit
             (Hcells Hf Hl Hs) Hrange).
  rewrite (namesText_written names tail Htok Htail).
  rewrite (resolveFragments_written fragment tail names Htail _ [] _
             (or_introl eq_refl) Htok Hdef) by lia.
  reflexivity.
Qed.

Lemma loadDistributionLine_written_witness :
  loadDistributionLine sampleConfig sampleFragments []
      (distributionLine 3 (-1) 0 ["A"; "B"] +:+ String "013"%char EmptyString) =
    ([storedRecord 3 (-1) 0 (fragmentBytes sampleFragments ["A"; "B"])], Ok tt).
Proof.
  apply (loadDistributionLine_written sampleConfig sampleFragments [] 3 (-1) 0 ["A"; "B"]
           (String "013"%char EmptyString)).
  - simpl. lia.
  - unfold is_i32. lia.
  - unfold is_i32. lia.
  - unfold is_i32. lia.
  - repeat constructor; discriminate.
  - repeat constructor; apply Nat.leb_le; reflexivity.
  - repeat constructor; vm_compute; eexists; reflexivity.
  - reflexivity.
Defined.

(** ** The records that loadDistribution stores *)





(** ** The fragment table *)






(** ** The size of the output file *)

Lemma diagnosticLoop_length (config : config_t) (n : nat) :
  forall (i : Z) (ofile ofile' : list Z),
    0 <= cells_per_frame config ->
    diagnosticLoop n config i ofile = (ofile', Ok tt) ->
    Z.of_nat (length ofile') =
      Z.of_nat (length ofile) + Z.of_nat n * cells_per_frame config.
Proof.
  induction n as [|n IH]; intros i ofile ofile' Hcpf.
  - intros [= <-]. lia.
  - cbn [diagnosticLoop]. destruct (load (diagnostic_values config) i) as [v|f];
      [|discriminate].
    intros H. rewrite (IH _ _ _ Hcpf H). unfold fwrite.
    rewrite length_app, Nat2Z.inj_add, (length_memset v _ Hcpf). lia.
Qed.

Lemma dataLoop_length (config : config_t) (cmdLine : cmdline_t)
    (distributionList : list distribution_t) (n : nat) :
  forall (frameNumber frameNumber' : Z) (ofile ofile' : list Z),
    is_u32 (cells_per_frame config) ->
    dataLoop n config cmdLine distributionList frameNumber ofile = (ofile', Ok frameNumber') ->
    Z.of_nat (length ofile') =
      Z.of_nat (length ofile) + Z.of_nat n * cells_per_frame config.
Proof.
  induction n as [|n IH]; intros frameNumber frameNumber' ofile ofile' Hcpf.
  - intros [= <- _]. lia.
  - rewrite dataLoop_S.
    destruct (builtFrame config cmdLine distributionList frameNumber) as [frame|f] eqn:Hb;
      [|discriminate].
    intros H. rewrite (IH _ _ _ _ Hcpf H). unfold fwrite.
    rewrite length_app, Nat2Z.inj_add, (builtFrame_length _ _ _ _ _ Hcpf Hb). lia.
Qed.

Lemma frameGroupLoop_length (config : config_t) (cmdLine : cmdline_t)
    (distributionList : list distribution_t) (n : nat) :
  forall (frameNumber : Z) (ofile ofile' : list Z),
    is_u32 (cells_per_frame config) -> 0 <= data_frames config ->
    frameGroupLoop n config cmdLine distributionList frameNumber ofile = (ofile', Ok tt) ->
    Z.of_nat (length ofile') =
      Z.of_nat (length ofile) +
      Z.of_nat n * (u32 (Z.of_nat (length (diagnostic_values config))) + data_frames config)
        * cells_per_frame config.
Proof.
  induction n as [|n IH]; intros frameNumber ofile ofile' Hcpf Hdf.
  - intros [= <-]. lia.
  - rewrite frameGroupLoop_S.
    destruct (diagnosticLoop _ config 0 ofile) as [ofile1 [[]|f]] eqn:Hdiag; [|discriminate].
    destruct (dataLoop _ config cmdLine distributionList frameNumber ofile1)
      as [ofile2 [frameNumber'|f]] eqn:Hdata; [|discriminate].
    intros H. rewrite (IH _ _ _ Hcpf Hdf H).
    rewrite (dataLoop_length _ _ _ _ _ _ _ _ Hcpf Hdata).
    assert (Hnn : 0 <= cells_per_frame config) by (unfold is_u32 in Hcpf; lia).
    rewrite (diagnosticLoop_length _ _ _ _ _ Hnn Hdiag).
    pose proof (u32_range (Z.of_nat (length (diagnostic_values config)))) as Hu.
    unfold is_u32 in Hu. rewrite !Z2Nat.id by lia. lia.
Qed.

(** X14: the file of a run that ends well fits the contiguous buffer.  When
    execute returns after writing the file, the file holds
    [frameGroupCount * (diagnostic frames + data_frames)] frames of
    [cells_per_frame] bytes, for the frame group count that
    verifyDistributionIsValid returned on the loaded list; and when that
    number of frames is below 2^32, the file is not longer than
    [contig_size]. *)
Theorem execute_file_fits (config : config_t) (cmdLine : cmdline_t) (env : environment)
    (file : list Z) :
  wf_config config ->
  execute config cmdLine env = (Some file, Ok tt) ->
  exists fragment distributionList groups,
    loadFragments config (fragmentLines env) ∅ = Ok fragment /\
    loadDistribution config fragment (distributionLines env) [] = (distributionList, Ok tt) /\
    verifyDistributionIsValid config distributionList = Ok groups /\
    Z.of_nat (length file) =
      groups * (u32 (Z.of_nat (length (diagnostic_values config))) + data_frames config)
        * cells_per_frame config /\
    (groups * (u32 (Z.of_nat (length (diagnostic_values config))) + data_frames config)
       < 2^32 ->
     Z.of_nat (length file) <= contig_size config).
Proof.
  intros Hwf. unfold execute.
  destruct (loadFragments config (fragmentLines env) ∅) as [fragment|f] eqn:Hfrag;
    [|discriminate].
  destruct (loadDistribution config fragment (distributionLines env) [])
    as [distributionList [[]|f]] eqn:Hdist; [|discriminate].
  destruct (verifyDistributionIsValid config distributionList) as [groups|f] eqn:Hverify;
    [|discriminate].
  unfold writeOutputFile. destruct (canCreateOutput env); [|discriminate].
  destruct (frameGroupLoop _ config cmdLine distributionList 0 []) as [ofile r] eqn:Hloop.
  intros [= -> ->].
  exists fragment, distributionList, groups.
  split; [reflexivity|]. split; [exact Hdist|]. split; [exact Hverify|].
  destruct Hwf as [Hcpf Hcontig _ Hdf _].
  destruct (verifyDistributionIsValid_Ok _ _ _ Hverify)
    as (_ & Hc & Hd & c & Hcap & -> & Hfits).
  rewrite (capacity_Ok _ _ Hc Hd) in Hcap. cbv zeta in Hcap. injection Hcap as <-.
  cbn [frameGroupCount totalReqdFrames maxFrames] in *.
  set (groups := u32 (findLongestSequence distributionList / data_frames config + 1)) in *.
  set (diagnostics := u32 (Z.of_nat (length (diagnostic_values config)))) in *.
  assert (Hg : is_u32 groups) by apply u32_range.
  assert (Hn : is_u32 diagnostics) by apply u32_range.
  unfold is_u32 in *.
  assert (Hcpf' : is_u32 (cells_per_frame config)) by (unfold is_u32; lia).
  assert (Hdf' : 0 <= data_frames config) by lia.
  pose proof (frameGroupLoop_length config cmdLine distributionList _ _ _ _
                Hcpf' Hdf' Hloop) as Hlen.
  fold diagnostics in Hlen. rewrite Z2Nat.id in Hlen by lia. cbn [length] in Hlen.
  split; [lia|]. intros Hsmall. rewrite Hlen.
  destruct (Z.eq_dec groups 0) as [->|Hg0]; [lia|].
  assert (Hsum : diagnostics + data_frames config < 2^32) by nia.
  rewrite (u32_id (diagnostics + data_frames config)) in Hfits by (unfold is_u32; lia).
  rewrite (u32_id (groups * _)) in Hfits by (unfold is_u32; nia).
  pose proof (Z.mod_le (contig_size config / cells_per_frame config) (2^32)
                ltac:(apply Z.div_pos; lia) ltac:(lia)) as Hmod.
  unfold u32 in Hfits.
  pose proof (Z.mul_div_le (contig_size config) (cells_per_frame config) ltac:(lia)).
  nia.
Qed.

Lemma execute_file_fits_witness :
  exists file, execute smallConfig rawCmdLine smallEnv = (Some file, Ok tt) /\
    Z.of_nat (length file) = 2 * (1 + 2) * 2048 /\
    Z.of_nat (length file) <= 42949672960.
Proof.
  destruct (execute smallConfig rawCmdLine smallEnv) as [[file|] [[]|f]] eqn:Hrun;
    try (vm_compute in Hrun; discriminate Hrun).
  exists file. split; [reflexivity|].
  destruct (execute_file_fits smallConfig rawCmdLine smallEnv file)
    as (fragment & distributionList & groups & Hf & Hd & Hv & Hlen & Hfits).
  - split; simpl; unfold is_u32, is_u8; try lia. repeat constructor; lia.
  - exact Hrun.
  - vm_compute in Hf. injection Hf as <-.
    vm_compute in Hd. injection Hd as <-.
    vm_compute in Hv. injection Hv as <-.
    split; [exact Hlen|]. apply Hfits. vm_compute. reflexivity.
Defined.

(** ** trace on the file that writeOutputFile wrote *)

Lemma traceLoop_S (fuel : nat) (config : config_t) (cell : Z) (ifile : list Z)
    (isFirst : bool) (out : string) :
  traceLoop (S fuel) config cell ifile isFirst out =
    let frame := take (Z.to_nat (cells_per_frame config)) ifile in
    if Z.of_nat (length frame) =? cells_per_frame config then
      v ← load frame cell;
      traceLoop fuel config cell (drop (Z.to_nat (cells_per_frame config)) ifile)
        false ((if isFirst then out else out +:+ ", ") +:+ decimal v)
    else Ok (out +:+ String "010"%char EmptyString).
Proof. reflexivity. Qed.

Lemma traceLoop_frames (config : config_t) (cell : Z) (frames : list (list Z)) :
  0 < cells_per_frame config -> 0 <= cell < cells_per_frame config ->
  Forall (fun frame => Z.of_nat (length frame) = cells_per_frame config) frames ->
  forall (fuel : nat) (isFirst : bool) (out : string),
    (length frames < fuel)%nat ->
    traceLoop fuel config cell (concat frames) isFirst out =
      Ok (match frames with
          | [] => out
          | _ => if isFirst then out else out +:+ ", "
          end +:+ commaSeparated ((fun frame => frame !!! Z.to_nat cell) <$> frames)
              +:+ String "010"%char EmptyString).
Proof.
  intros Hcpf Hcell Hall.
  induction Hall as [|frame frames Hframe Hall IH]; intros fuel isFirst out Hfuel;
    (destruct fuel as [|fuel]; [simpl in Hfuel; lia|]); rewrite traceLoop_S; cbv zeta.
  - cbn [concat]. rewrite take_nil. cbn [length].
    replace (Z.of_nat 0 =? cells_per_frame config) with false
      by (symmetry; apply Z.eqb_neq; lia).
    reflexivity.
  - cbn [concat].
    rewrite (take_app_length' frame) by lia.
    rewrite (drop_app_length' frame) by lia.
    rewrite Hframe, Z.eqb_refl.
    assert (Hload : load frame cell = Ok (frame !!! Z.to_nat cell)).
    { apply load_Ok. split; [lia|]. apply list_lookup_lookup_total_lt. lia. }
    rewrite Hload. cbn [mbind outcome_bind].
    rewrite IH by (simpl in Hfuel; lia).
    f_equal. rewrite fmap_cons.
    set (first := if isFirst then out else out +:+ ", ").
    set (v := decimal (frame !!! Z.to_nat cell)).
    destruct frames as [|frame' frames].
    + cbn [fmap list_fmap commaSeparated]. rewrite append_assoc. reflexivity.
    + rewrite fmap_cons.
      change (commaSeparated (?a :: ?b :: ?l))
        with (decimal a +:+ ", " +:+ commaSeparated (b :: l)).
      fold v. rewrite !append_assoc. reflexivity.
Qed.

Lemma fmap_concat_lists {A B : Type} (f : A -> B) (ls : list (list A)) :
  f <$> concat ls = concat ((fun l : list A => f <$> l) <$> ls).
Proof.
  induction ls as [|l ls IH]; [reflexivity|].
  cbn [concat]. rewrite fmap_app, IH. reflexivity.
Qed.

Lemma length_frames (cells : Z) (frames : list (list Z)) :
  Forall (fun frame => Z.of_nat (length frame) = cells) frames ->
  Z.of_nat (length (concat frames)) = Z.of_nat (length frames) * cells.
Proof.
  induction 1 as [|frame frames Hframe Hall IH]; [reflexivity|].
  cbn [concat length]. rewrite length_app. lia.
Qed.

(** X15: trace reads back what writeOutputFile wrote.  On the file of a run
    whose frames are complete rows, trace of a cell number of the frame
    prints, separated by a comma and a space and followed by a new line, one
    number per frame of the file: in every group the diagnostic values, then
    the value of that cell in each data frame as buildDataFrame built it.
    This holds with and without [-nolvds]: the translation of the cell
    number undoes the reordering of the frames.  With the reordering the
    frames have fewer than 2^31 + 2048 cells. *)
Theorem trace_writeOutputFile (config : config_t) (cmdLine : cmdline_t)
    (distributionList : list distribution_t) (groups : Z) :
  wf_config config ->
  0 < cells_per_frame config -> cells_per_frame config mod ROW_SIZE = 0 ->
  0 <= groups ->
  Z.of_nat (length (diagnostic_values config)) < 2^32 ->
  0 <= cellNumber cmdLine < cells_per_frame config -> cellNumber cmdLine < 2^31 ->
  nolvds cmdLine = true \/ cells_per_frame config < 2^31 + 2048 ->
  (forall k, 0 <= k < groups * data_frames config ->
     exists raw, buildDataFrame config distributionList (u32 k) = Ok raw) ->
  exists file,
    writeOutputFile config cmdLine distributionList true groups = (Some file, Ok tt) /\
    trace config cmdLine (Some file) =
      Ok (commaSeparated (cellHistory config distributionList (cellNumber cmdLine) groups)
            +:+ String "010"%char EmptyString).
Proof.
  intros Hwf Hpos Hrows Hgroups Hdiag Hcell Hint _ Hbuilt.
  destruct Hwf as [Hcpf _ _ Hdf _].
  set (frames := writtenFrameOf config cmdLine distributionList).
  set (cell := if nolvds cmdLine then cellNumber cmdLine
               else lvdsPosition (cellNumber cmdLine)).
  assert (Hcomplete : ROW_SIZE * (cells_per_frame config / ROW_SIZE) =
                      cells_per_frame config).
  { pose proof (Z.div_mod (cells_per_frame config) ROW_SIZE ltac:(rlia)). lia. }
  assert (Hin : 0 <= cell < cells_per_frame config).
  { unfold cell. destruct (nolvds cmdLine); [lia|].
    destruct (lvdsPosition_row (cellNumber cmdLine) ltac:(lia)) as (_ & Hnn & Hrow).
    split; [exact Hnn|].
    assert (cellNumber cmdLine / ROW_SIZE < cells_per_frame config / ROW_SIZE).
    { unfold is_u32 in Hcpf. apply complete_rows; lia. }
    unfold ROW_SIZE in *. nia. }
  assert (Hframes : forall k, 0 <= k < groups * data_frames config ->
            builtFrame config cmdLine distributionList (u32 k) = Ok (frames k) /\
            Z.of_nat (length (frames k)) = cells_per_frame config /\
            frames k !!! Z.to_nat cell =
              rawFrameOf config distributionList k !!! Z.to_nat (cellNumber cmdLine)).
  { intros k Hk. destruct (Hbuilt k Hk) as [raw Hraw].
    destruct (builtFrame_Ok config cmdLine distributionList k raw Hcpf Hraw)
      as (-> & Hb & Hw).
    split; [exact Hb|]. split; [exact (builtFrame_length _ _ _ _ _ Hcpf Hb)|].
    fold frames in Hw. unfold cell. destruct (nolvds cmdLine).
    - injection Hw as <-. reflexivity.
    - assert (Hlen : Z.of_nat (length raw) = cells_per_frame config).
      { apply (buildDataFrame_length config distributionList (u32 k) raw); [lia|exact Hraw]. }
      rewrite !list_lookup_total_alt.
      rewrite (reorderForLvds_position config raw (frames k) _ Hcpf Hlen Hw) by lia.
      reflexivity. }
  assert (Hdf' : 0 <= data_frames config) by (unfold is_u32 in Hdf; lia).
  pose proof (frameGroupLoop_Ok config cmdLine distributionList frames (Z.to_nat groups)
                Hdf' Hdiag 0 [] (Z.le_refl 0)) as Hloop.
  rewrite Z2Nat.id in Hloop by lia.
  change (u32 (0 * data_frames config)) with 0 in Hloop.
  set (written := concat (frameGroup config frames <$> seqZ 0 groups)).
  exists (concat written). split.
  { unfold writeOutputFile. rewrite Hloop by (intros j Hj; apply Hframes; lia).
    reflexivity. }
  assert (Hall : Forall (fun frame => Z.of_nat (length frame) = cells_per_frame config)
                   written).
  { unfold written. apply Forall_concat, Forall_fmap, Forall_forall.
    intros g Hg. apply list_elem_of_In, elem_of_seqZ in Hg. unfold frameGroup, diagnosticFrames. cbn.
    apply Forall_app. split.
    - apply Forall_fmap, Forall_forall. intros v _. cbn. apply length_memset. lia.
    - apply Forall_fmap, Forall_forall. intros k Hk. apply list_elem_of_In, elem_of_seqZ in Hk. cbn.
      apply Hframes. unfold is_u32 in Hdf. nia. }
  assert (Hvalues : (fun frame => frame !!! Z.to_nat cell) <$> written =
                    cellHistory config distributionList (cellNumber cmdLine) groups).
  { unfold written, cellHistory. rewrite fmap_concat_lists, <- list_fmap_compose.
    f_equal. apply Forall_fmap_ext_1, Forall_forall.
    intros g Hg. apply list_elem_of_In, elem_of_seqZ in Hg. cbn.
    unfold frameGroup, diagnosticFrames. rewrite fmap_app, <- !list_fmap_compose.
    f_equal.
    - rewrite <- (list_fmap_id (diagnostic_values config)) at 2.
      apply Forall_fmap_ext_1, Forall_forall. intros v _. cbn.
      unfold memset. apply lookup_total_replicate_2. lia.
    - apply Forall_fmap_ext_1, Forall_forall. intros k Hk. apply list_elem_of_In, elem_of_seqZ in Hk. cbn.
      apply Hframes. unfold is_u32 in Hdf. nia. }
  unfold trace.
  assert (Htrace : traceCellNumber cmdLine = Ok cell)
    by (apply traceCellNumber_Ok; lia).
  rewrite Htrace. cbn [mbind outcome_bind].
  rewrite (traceLoop_frames config cell written Hpos Hin Hall).
  - rewrite Hvalues. f_equal. destruct written; reflexivity.
  - pose proof (length_frames _ _ Hall). nia.
Qed.

Lemma trace_writeOutputFile_witness :
  exists file,
    writeOutputFile smallConfig lvdsTrace smallList true 2 = (Some file, Ok tt) /\
    trace smallConfig lvdsTrace (Some file) =
      Ok ("34, 1, 2, 34, 3, 170" +:+ String "010"%char EmptyString).
Proof.
  destruct (trace_writeOutputFile smallConfig lvdsTrace smallList 2)
    as (file & Hwrite & Htrace).
  - exact wf_smallConfig.
  - simpl. lia.
  - reflexivity.
  - lia.
  - simpl. lia.
  - simpl. lia.
  - simpl. lia.
  - right. simpl. lia.
  - intros k _.
    destruct (buildDataFrame_cells smallConfig smallList (u32 k) wf_smallConfig
                (u32_range k) smallList_in_range) as (raw & Hraw & _).
    exists raw. exact Hraw.
  - exists file. split; [exact Hwrite|]. rewrite Htrace. vm_compute. reflexivity.
Defined.

(** ** The earlier revision of the writer *)

Lemma diagnosticLoop_v1_frames (n : nat) (frame : list Z) :
  forall ofile, diagnosticLoop_v1 n frame ofile = ofile ++ concat (replicate n frame).
Proof.
  induction n as [|n IH]; intros ofile; cbn [diagnosticLoop_v1 replicate concat].
  - rewrite app_nil_r. reflexivity.
  - rewrite IH. unfold fwrite. rewrite <- app_assoc. reflexivity.
Qed.

Lemma dataLoop_v1_upgrade (config : config_v1) (cmdLine : cmdline_t)
    (fragmentFile distributionFile : string) (distributionList : list distribution_t)
    (n : nat) :
  nolvds cmdLine = true ->
  forall (frameNumber : Z) (ofile : list Z),
    dataLoop n (upgradeConfig config fragmentFile distributionFile) cmdLine
      distributionList frameNumber ofile =
    dataLoop_v1 n config distributionList frameNumber ofile.
Proof.
  intros Hraw. induction n as [|n IH]; intros frameNumber ofile; [reflexivity|].
  rewrite dataLoop_S. cbn [dataLoop_v1].
  unfold builtFrame, buildDataFrame, buildDataFrame_v1, upgradeConfig.
  cbn [quiescent cells_per_frame]. rewrite Hraw.
  destruct (distributionLoop distributionList frameNumber _) as [frame|f]; cbn;
    [apply IH|reflexivity].
Qed.

(** X16: the earlier revision of writeOutputFile (one diagnostic constant,
    written [diagnostic_frames] times per group, and no reordering) writes
    what the current revision writes with [-nolvds] when [diagnostic_values]
    holds the constant [diagnostic_frames] times; the two calls also end in
    the same way. *)
Theorem writeOutputFile_v1_upgrade (config : config_v1) (cmdLine : cmdline_t)
    (fragmentFile distributionFile : string) (distributionList : list distribution_t)
    (canCreate : bool) (groups : Z) :
  is_u32 (v1_diagnostic_frames config) -> nolvds cmdLine = true ->
  writeOutputFile (upgradeConfig config fragmentFile distributionFile) cmdLine
    distributionList canCreate groups =
  writeOutputFile_v1 config distributionList canCreate groups.
Proof.
  intros Hdiag Hraw. unfold writeOutputFile, writeOutputFile_v1.
  destruct canCreate; [|reflexivity].
  assert (Hloop : forall (n : nat) (frameNumber : Z) (ofile : list Z),
            frameGroupLoop n (upgradeConfig config fragmentFile distributionFile) cmdLine
              distributionList frameNumber ofile =
            frameGroupLoop_v1 n config distributionList frameNumber ofile).
  { induction n as [|n IH]; intros frameNumber ofile; [reflexivity|].
    rewrite frameGroupLoop_S. cbn [frameGroupLoop_v1].
    set (config' := upgradeConfig config fragmentFile distributionFile).
    assert (Hlen : Z.of_nat (length (diagnostic_values config')) < 2^32).
    { unfold config', upgradeConfig. cbn [diagnostic_values].
      rewrite length_replicate. unfold is_u32 in Hdiag. lia. }
    assert (Hframes : diagnosticFrames config' =
              replicate (Z.to_nat (v1_diagnostic_frames config))
                (memset (v1_diagnostic_constant config) (v1_cells_per_frame config))).
    { unfold diagnosticFrames, config', upgradeConfig.
      cbn [diagnostic_values cells_per_frame]. rewrite fmap_replicate. reflexivity. }
    rewrite (diagnosticLoop_all config' ofile Hlen), Hframes.
    rewrite diagnosticLoop_v1_frames.
    change (data_frames config') with (v1_data_frames config).
    unfold config' at 1.
    rewrite (dataLoop_v1_upgrade config cmdLine fragmentFile distributionFile
               distributionList _ Hraw).
    destruct (dataLoop_v1 _ config distributionList frameNumber _)
      as [ofile2 [frameNumber'|f]]; [apply IH|reflexivity]. }
  rewrite Hloop. reflexivity.
Qed.

Lemma writeOutputFile_v1_upgrade_witness :
  writeOutputFile (upgradeConfig earlierConfig "fragments.csv" "distribution.csv")
    tinyTrace tinyList true 2 =
  writeOutputFile_v1 earlierConfig tinyList true 2.
Proof.
  apply (writeOutputFile_v1_upgrade earlierConfig tinyTrace).
  - unfold is_u32. simpl. lia.
  - reflexivity.
Defined.

(** ** The command line *)

Lemma parseArguments_app (n : nat) (argv2 : list string) :
  forall (argv1 : list string) (cmdLine cmdLine' : cmdline_t) (name name' : string),
    (length argv1 <= n)%nat ->
    parseArguments argv1 cmdLine name = Parsed cmdLine' name' ->
    parseArguments (argv1 ++ argv2) cmdLine name = parseArguments argv2 cmdLine' name'.
Proof.
  induction n as [|n IH]; intros argv1 cmdLine cmdLine' name name' Hlen.
  - destruct argv1; [|simpl in Hlen; lia]. intros [= <- <-]. reflexivity.
  - destruct argv1 as [|token argv1]; [intros [= <- <-]; reflexivity|].
    cbn [parseArguments app]. cbn [length] in Hlen.
    destruct (String.eqb token "-trace").
    { destruct argv1 as [|parameter argv1]; [discriminate|].
      cbn [app length] in *. apply IH. lia. }
    destruct (String.eqb token "-config").
    { destruct argv1 as [|parameter argv1]; [discriminate|].
      cbn [app length] in *. apply IH. lia. }
    destruct (String.eqb token "-nolvds"); [apply IH; lia|].
    destruct (String.eqb token "-lvdsmap"); [apply IH; lia|].
    discriminate.
Qed.

(** X17: the switches of the command line are taken from left to right.
    When parseCommandLine accepts a command line, it accepts the command
    line followed by [-nolvds], by [-config] and a name, and by [-trace]
    and a printed cell number, with the result of the first changed in that
    one field: [-nolvds] is set, the name replaces the earlier one, and the
    cell number is the one given (with the trace switch on).  The word after
    [-config] or [-trace] is always taken as the parameter, never as a
    switch. *)
Theorem parseCommandLine_appended (argv : list string) (cmdLine : cmdline_t)
    (name : string) :
  parseCommandLine argv = Parsed cmdLine name ->
  parseCommandLine (argv ++ ["-nolvds"%string]) =
    Parsed (mk_cmdline (trace_flag cmdLine) (cellNumber cmdLine) true (lvdsmap cmdLine))
      name /\
  (forall parameter, parseCommandLine (argv ++ ["-config"%string; parameter]) =
     Parsed cmdLine parameter) /\
  (forall cell, 0 <= cell < 2^31 ->
     parseCommandLine (argv ++ ["-trace"%string; decimal cell]) =
       Parsed (mk_cmdline true cell (nolvds cmdLine) (lvdsmap cmdLine)) name).
Proof.
  intros Hparsed. unfold parseCommandLine in *.
  split; [|split].
  - rewrite (parseArguments_app _ _ argv _ _ _ _ (Nat.le_refl _) Hparsed). reflexivity.
  - intros parameter.
    rewrite (parseArguments_app _ _ argv _ _ _ _ (Nat.le_refl _) Hparsed). reflexivity.
  - intros cell Hcell.
    rewrite (parseArguments_app _ _ argv _ _ _ _ (Nat.le_refl _) Hparsed).
    cbn [parseArguments]. cbn [String.eqb Ascii.eqb Bool.eqb].
    rewrite atoi_decimal by (unfold is_i32; lia).
    rewrite u32_id by (unfold is_u32; lia). reflexivity.
Qed.

Lemma parseCommandLine_appended_witness :
  parseCommandLine ["-config"; "-nolvds"; "-nolvds"]%string =
    Parsed (mk_cmdline false 0 true false) "-nolvds".
Proof.
  apply (parseCommandLine_appended ["-config"; "-nolvds"]%string noCmdLine "-nolvds").
  reflexivity.
Defined.

(** ** Edge cases of trace *)

Lemma traceLoop_partial (config : config_t) (cell : Z) (frames : list (list Z))
    (partial : list Z) :
  0 < cells_per_frame config ->
  Forall (fun frame => Z.of_nat (length frame) = cells_per_frame config) frames ->
  Z.of_nat (length partial) < cells_per_frame config ->
  forall (fuel1 fuel2 : nat) (isFirst : bool) (out : string),
    (length frames < fuel1)%nat -> (length frames < fuel2)%nat ->
    traceLoop fuel1 config cell (concat frames ++ partial) isFirst out =
    traceLoop fuel2 config cell (concat frames) isFirst out.
Proof.
  intros Hcpf Hall Hpartial.
  induction Hall as [|frame frames Hframe Hall IH]; intros fuel1 fuel2 isFirst out H1 H2;
    (destruct fuel1 as [|fuel1]; [simpl in H1; lia|]);
    (destruct fuel2 as [|fuel2]; [simpl in H2; lia|]);
    rewrite !traceLoop_S; cbv zeta.
  - cbn [concat app]. rewrite take_nil, (take_ge partial) by lia. cbn [length].
    replace (Z.of_nat (length partial) =? cells_per_frame config) with false
      by (symmetry; apply Z.eqb_neq; lia).
    replace (Z.of_nat 0 =? cells_per_frame config) with false
      by (symmetry; apply Z.eqb_neq; lia).
    reflexivity.
  - cbn [concat]. rewrite <- app_assoc.
    rewrite !(take_app_length' frame) by lia.
    rewrite !(drop_app_length' frame) by lia.
    rewrite Hframe, Z.eqb_refl.
    destruct (load frame cell) as [v|f]; [|reflexivity].
    cbn [mbind outcome_bind]. apply IH; simpl in H1, H2; lia.
Qed.

(** X18: a last frame that is not complete is not shown by trace: on a file
    made of whole frames followed by fewer than [cells_per_frame] bytes,
    trace prints (or fails) as on the file without these bytes.  In
    particular, on a file shorter than one frame it prints an empty line. *)
Theorem trace_partial_frame (config : config_t) (cmdLine : cmdline_t)
    (frames : list (list Z)) (partial : list Z) :
  0 < cells_per_frame config ->
  Forall (fun frame => Z.of_nat (length frame) = cells_per_frame config) frames ->
  Z.of_nat (length partial) < cells_per_frame config ->
  trace config cmdLine (Some (concat frames ++ partial)) =
    trace config cmdLine (Some (concat frames)) /\
  (0 <= cellNumber cmdLine < 2^31 ->
   trace config cmdLine (Some partial) = Ok (String "010"%char EmptyString)).
Proof.
  intros Hcpf Hall Hpartial. split.
  - unfold trace. destruct (traceCellNumber cmdLine) as [cell|f]; [|reflexivity].
    cbn [mbind outcome_bind].
    pose proof (length_frames _ _ Hall) as Hlen.
    apply (traceLoop_partial config cell frames partial Hcpf Hall Hpartial).
    + rewrite length_app. nia.
    + nia.
  - intros Hcell. unfold trace. rewrite (traceCellNumber_Ok cmdLine Hcell).
    cbn [mbind outcome_bind]. rewrite traceLoop_S. cbv zeta.
    rewrite (take_ge partial) by lia.
    replace (Z.of_nat (length partial) =? cells_per_frame config) with false
      by (symmetry; apply Z.eqb_neq; lia).
    reflexivity.
Qed.

Lemma trace_partial_frame_witness :
  trace tinyConfig tinyTrace (Some (concat [[1; 2; 3; 4]; [5; 6; 7; 8]] ++ [9; 9])) =
    trace tinyConfig tinyTrace (Some (concat [[1; 2; 3; 4]; [5; 6; 7; 8]])).
Proof.
  apply (trace_partial_frame tinyConfig tinyTrace [[1; 2; 3; 4]; [5; 6; 7; 8]] [9; 9]).
  - simpl. lia.
  - repeat constructor.
  - simpl. lia.
Defined.

(** X19: trace does not compare the cell number with [cells_per_frame].
    For a cell number at or after the end of the frame (with [-nolvds], or
    with frames of complete rows), as soon as the file holds one frame the
    first [frame[cellNumber]] reads outside the frame buffer. *)
Theorem trace_beyond_frame (config : config_t) (cmdLine : cmdline_t) (file : list Z) :
  0 < cells_per_frame config ->
  nolvds cmdLine = true \/ cells_per_frame config mod ROW_SIZE = 0 ->
  cells_per_frame config <= cellNumber cmdLine < 2^31 ->
  cells_per_frame config <= Z.of_nat (length file) ->
  trace config cmdLine (Some file) = Fail OutOfBounds.
Proof.
  intros Hcpf Hrows Hcell Hfile. unfold trace.
  rewrite (traceCellNumber_Ok cmdLine) by lia. cbn [mbind outcome_bind].
  set (cell := if nolvds cmdLine then cellNumber cmdLine
               else lvdsPosition (cellNumber cmdLine)).
  assert (Hbeyond : cells_per_frame config <= cell).
  { unfold cell. destruct (nolvds cmdLine); [lia|].
    destruct Hrows as [Hraw | Hrows]; [discriminate|].
    destruct (lvdsPosition_row (cellNumber cmdLine) ltac:(lia)) as (_ & _ & Hrow).
    pose proof (Z.div_mod (cells_per_frame config) ROW_SIZE ltac:(rlia)) as Hdiv.
    rewrite Hrows in Hdiv.
    assert (cells_per_frame config / ROW_SIZE <= cellNumber cmdLine / ROW_SIZE)
      by (apply Z.div_le_mono; rlia).
    unfold ROW_SIZE in *. nia. }
  rewrite traceLoop_S. cbv zeta.
  rewrite length_take, Nat2Z.inj_min, Z2Nat.id, Z.min_l by lia.
  rewrite Z.eqb_refl.
  assert (Hload : load (take (Z.to_nat (cells_per_frame config)) file) cell =
                  Fail OutOfBounds).
  { unfold load. rewrite length_take.
    replace (cell <? Z.of_nat (Z.to_nat (cells_per_frame config) `min` length file))
      with false by (symmetry; apply Z.ltb_ge; lia).
    rewrite andb_false_r. reflexivity. }
  rewrite Hload. reflexivity.
Qed.

Lemma trace_beyond_frame_witness :
  trace tinyConfig beyondTrace (Some [1; 2; 3; 4]) = Fail OutOfBounds.
Proof.
  apply (trace_beyond_frame tinyConfig beyondTrace [1; 2; 3; 4]).
  - simpl. lia.
  - left. reflexivity.
  - simpl. lia.
  - simpl. lia.
Defined.

(** ** A run without definitions *)




